(** * Survey_CSV_to_DXF: the survey-to-geometry pipeline of XML_to_DXF.py

    A shallow embedding of [process_code], [get_layers], [get_codes],
    [get_survey], [get_layer_from_pcode], [set_dxf_view], [add_attrib_text],
    [create_blocks], [create_dxf] and of the script body, followed by the
    properties of the specification that were checked against it and by
    further properties of the code.

    Conventions of the embedding.
    - A Python [str] is a [string]; its characters are code points below
      256, a range on which [\d] is exactly [0-9]. Text with a code point
      above 255 is outside the embedding: every statement about tokens,
      rows and documents is about text of code points below 256.
    - [int] is taken under the default limit on integer string
      conversion, [sys.int_info.default_max_str_digits = 4300], which the
      script does not change: beyond it [int] raises [ValueError].
    - Python's [None] as a value or as a dictionary key is [None] of an
      option type; a differentiator is an [option Z].
    - Dictionaries that the script only looks up are [gmap]s; dictionaries
      whose iteration order the script observes (the survey index and the
      attribute mappings) are insertion-ordered association lists.
    - The module-level globals [needed_pcodes] and [doc], the standard
      output and the files written are the fields of [world]; effectful
      functions are state-passing and may raise.
    - Calls into ezdxf are recorded in [doc] as [draw_call]s and are taken
      not to raise; floating point is an abstract interface ([FloatOps]). *)

From Stdlib Require Import ZArith Ascii String List.
From stdpp Require Import gmap strings list fin_maps pretty.

Open Scope Z_scope.

Set Warnings "-clear-no-such-hyp".

(** ** Python values and exceptions *)

Inductive exn :=
| KeyError (key : string)
| IndexError
| TypeError (what : string)
| ValueError (what : string)
| OSError (path : string)
| ParseError.

Inductive result (A : Type) :=
| Ok (a : A)
| Raise (e : exn).
Arguments Ok {A} a.
Arguments Raise {A} e.

(** Insertion-ordered dictionaries: a key keeps the position of its first
    insertion, as in a Python [dict]. *)
Module OD.
Section Ops.
Context {K V : Type} `{EqDecision K}.

Fixpoint get (k : K) (d : list (K * V)) : option V :=
  match d with
  | [] => None
  | (k', v) :: d' => if decide (k = k') then Some v else get k d'
  end.

(** [d[k] = v] *)
Fixpoint set (k : K) (v : V) (d : list (K * V)) : list (K * V) :=
  match d with
  | [] => [(k, v)]
  | (k', v') :: d' =>
      if decide (k = k') then (k', v) :: d' else (k', v') :: set k v d'
  end.

(** [f] applied in place to [d.setdefault(k, dflt)] *)
Fixpoint upd (k : K) (f : V → V) (dflt : V) (d : list (K * V)) : list (K * V) :=
  match d with
  | [] => [(k, f dflt)]
  | (k', v') :: d' =>
      if decide (k = k') then (k', f v') :: d' else (k', v') :: upd k f dflt d'
  end.
End Ops.
End OD.

(** ** The regular expressions used by [process_code] *)

Module Re.
Inductive item :=
| Range (lo hi : ascii)
| Lit (c : ascii).

Definition item_mem (c : ascii) (i : item) : bool :=
  match i with
  | Range lo hi => (Ascii.leb lo c && Ascii.leb c hi)%bool
  | Lit c' => Ascii.eqb c c'
  end.

(** A bracket expression. *)
Definition mem (cs : list item) (c : ascii) : bool := existsb (item_mem c) cs.

Inductive regex :=
| Cls (cs : list item)            (* [...] *)
| Cat (r1 r2 : regex)             (* r1 r2 *)
| Star (cs : list item)           (* [...]*, greedy *)
| Plus (cs : list item)           (* [...]+, greedy *)
| Opt (r : regex)                 (* r?, greedy *)
| Group (n : nat) (r : regex)     (* the n-th capturing group *)
| Dollar.                         (* $ without re.MULTILINE *)

Definition captures := gmap nat (list ascii).

(** [$] matches at the end of the string and just before a newline that
    ends the string. *)
Definition at_end (s : list ascii) : bool :=
  match s with
  | [] => true
  | [c] => Ascii.eqb c "010"
  | _ => false
  end.

(** The text consumed between the input [s] and its suffix [s']. *)
Definition taken (s s' : list ascii) : list ascii :=
  take (length s - length s') s.

(** Greedy repetition of a class with backtracking: the longest run is
    tried first, then shorter ones. *)
Fixpoint star (cs : list item) (s : list ascii)
    (k : list ascii → option captures) : option captures :=
  match s with
  | c :: s' =>
      if mem cs c then
        match star cs s' k with
        | Some g => Some g
        | None => k s
        end
      else k s
  | [] => k []
  end.

(** A backtracking matcher in continuation-passing style: [k] is what
    remains of the pattern. *)
Fixpoint run (r : regex) (s : list ascii) (g : captures)
    (k : list ascii → captures → option captures) : option captures :=
  match r with
  | Cls cs =>
      match s with
      | c :: s' => if mem cs c then k s' g else None
      | [] => None
      end
  | Cat r1 r2 => run r1 s g (λ s' g', run r2 s' g' k)
  | Star cs => star cs s (λ s', k s' g)
  | Plus cs =>
      match s with
      | c :: s' => if mem cs c then star cs s' (λ s'', k s'' g) else None
      | [] => None
      end
  | Opt r' =>
      match run r' s g k with
      | Some g' => Some g'
      | None => k s g
      end
  | Group n r' => run r' s g (λ s' g', k s' (<[n := taken s s']> g'))
  | Dollar => if at_end s then k s g else None
  end.

(** What a pattern may consume: [sem r s g s' g'] when [r] can match a
    prefix of [s] leaving [s'], turning the captures [g] into [g']. The
    matcher [run] explores these possibilities in priority order. *)
Inductive sem : regex → list ascii → captures → list ascii → captures → Prop :=
| sem_cls cs c s g :
    mem cs c = true → sem (Cls cs) (c :: s) g s g
| sem_cat r1 r2 s g s1 g1 s2 g2 :
    sem r1 s g s1 g1 → sem r2 s1 g1 s2 g2 → sem (Cat r1 r2) s g s2 g2
| sem_star cs u s g :
    forallb (mem cs) u = true → sem (Star cs) (u ++ s) g s g
| sem_plus cs c u s g :
    mem cs c = true → forallb (mem cs) u = true → sem (Plus cs) (c :: u ++ s) g s g
| sem_opt_some r s g s' g' :
    sem r s g s' g' → sem (Opt r) s g s' g'
| sem_opt_none r s g :
    sem (Opt r) s g s g
| sem_group n r s g s' g' :
    sem r s g s' g' → sem (Group n r) s g s' (<[n := taken s s']> g')
| sem_dollar s g :
    at_end s = true → sem Dollar s g s g.

(** [re.match(pattern, string)]: anchored at the start only. *)
Definition match_ (r : regex) (s : string) : option captures :=
  run r (list_ascii_of_string s) ∅ (λ _ g, Some g).

(** [m.group(n)] *)
Definition group (m : captures) (n : nat) : option string :=
  string_of_list_ascii <$> m !! n.
End Re.

(** ** process_code *)

(** Sequencing of computations that may raise. *)
Definition rbind {A B} (x : result A) (f : A → result B) : result B :=
  match x with
  | Ok a => f a
  | Raise e => Raise e
  end.

Inductive point_type := Line | Point | Unknown.

Global Instance point_type_eq_dec : EqDecision point_type.
Proof. solve_decision. Defined.

Definition letters : list Re.item := [Re.Range "a" "z"; Re.Range "A" "Z"].
Definition word_chars : list Re.item :=
  [Re.Range "a" "z"; Re.Lit "_"; Re.Range "A" "Z"; Re.Range "0" "9"].
(** [\d]: on a [str] pattern it matches the decimal digits of Unicode;
    among the code points below 256, the characters of the embedding,
    these are [0-9] and no others. *)
Definition digits : list Re.item := [Re.Range "0" "9"].

(** [r"([a-zA-Z]+[a-z_A-Z0-9]*[a-zA-Z])(\d+)?$"] *)
Definition pattern : Re.regex :=
  Re.Cat (Re.Group 1 (Re.Cat (Re.Plus letters)
                     (Re.Cat (Re.Star word_chars) (Re.Cls letters))))
 (Re.Cat (Re.Opt (Re.Group 2 (Re.Plus digits)))
         Re.Dollar).

Definition digit_value (c : ascii) : Z := Z.of_nat (nat_of_ascii c) - 48.

(** The value of a run of decimal digits. *)
Definition int_of_digits (s : string) : Z :=
  fold_left (λ acc c, 10 * acc + digit_value c) (list_ascii_of_string s) 0.

(** [sys.int_info.default_max_str_digits]; the script leaves the limit
    at its default. *)
Definition max_str_digits : nat := 4300.

(** [int(s)] on a run of decimal digits: a run of more digits than the
    limit, leading zeros included, raises [ValueError]. *)
Definition int_of_str (s : string) : result Z :=
  if decide (String.length s ≤ max_str_digits)%nat then Ok (int_of_digits s)
  else Raise (ValueError s).

(** What the script prints, one constructor per [print] call. *)
Inductive msg :=
| MsgNoMatch
| MsgCode (code : string) (differentiator : option Z) (pt : point_type)
| MsgSurveyNotFound (file_path : string)
| MsgSurveyDenied (file_path : string)
| MsgAttrib (attrib : list (string * string))
| MsgPointCode (point_code : string)
| MsgUnknownCode (point_code : string).

(** The tuple returned by [process_code], with the lines it printed, or
    the exception it raises: [int(differentiator)] comes before the test
    of [found] and before any line is printed. The code tables are the
    key lists of the library's dictionaries, so their elements are
    [option string]. *)
Definition process_code (input_string : string)
    (line_codes_ref point_codes_ref : list (option string))
    : result (list msg * (bool * string * option Z * point_type)) :=
  match Re.match_ pattern input_string with
  | Some m =>
      let code := default "" (Re.group m 1) in
      let differentiator := Re.group m 2 in
      let '(found, point_type) :=
        if decide (Some code ∈ line_codes_ref) then (true, Line) else (false, Unknown) in
      let '(found, point_type) :=
        if decide (Some code ∈ point_codes_ref) then (true, Point) else (found, point_type) in
      rbind
        match differentiator with
        | Some d => rbind (int_of_str d) (λ z, Ok (Some z))
        | None => Ok (if decide (Some code ∈ line_codes_ref) then Some (-1) else None)
        end
        (λ differentiator,
           Ok (if (bool_decide (code ≠ "") && found)%bool
               then ([MsgCode code differentiator point_type],
                     (true, code, differentiator, point_type))
               else ([], (false, "sprl", Some 1, point_type))))
  | None => Ok ([MsgNoMatch], (false, "sprl", Some 1, Unknown))
  end.

Definition nl : string := String "010" "".

(** The components of what [process_code] returns. *)
Definition success_of (r : list msg * (bool * string * option Z * point_type)) : bool :=
  r.2.1.1.1.
Definition code_of (r : list msg * (bool * string * option Z * point_type)) : string :=
  r.2.1.1.2.
Definition differentiator_of (r : list msg * (bool * string * option Z * point_type))
    : option Z := r.2.1.2.
Definition type_of (r : list msg * (bool * string * option Z * point_type)) : point_type :=
  r.2.2.

(** ** String helpers *)

(** [sub in s] *)
Fixpoint contains (sub s : string) : bool :=
  (String.prefix sub s ||
   match s with
   | String _ s' => contains sub s'
   | EmptyString => false
   end)%bool.

(** [s.split(sep)] for a one-character separator. *)
Fixpoint split_on (sep : ascii) (s : string) : list string :=
  match s with
  | EmptyString => [""]
  | String c s' =>
      if Ascii.eqb c sep then "" :: split_on sep s'
      else match split_on sep s' with
           | w :: ws => String c w :: ws
           | [] => [String c ""]
           end
  end.

(** [l[1]] *)
Definition second (l : list string) : result string :=
  match l !! 1%nat with
  | Some x => Ok x
  | None => Raise IndexError
  end.

(** [d.setdefault(k, v)], for its effect on [d]. *)
Definition setdefault `{Countable K} {V} (k : K) (v : V) (d : gmap K V) : gmap K V :=
  match d !! k with
  | Some _ => d
  | None => <[k := v]> d
  end.

Fixpoint rfold {A B} (f : B → A → result B) (l : list A) (b : B) : result B :=
  match l with
  | [] => Ok b
  | a :: l' => rbind (f b a) (rfold f l')
  end.

(** ** The feature-definition library *)

(** An element of the tree that [ElementTree.parse] returns. *)
#[warnings="-register-all"]
Inductive Element := Elem {
  tag : string;
  attrib : gmap string string;
  text : option string;
  children : list Element }.

Definition namespace : string := "{http://trimble.com/schema/fxl}".

Abbreviation layer_table := (gmap (option string) (gmap string (option string))).

(** The loop over the sub-elements of one [LayerDefinition]: the state is
    [(layers_ref, layer_values, name_value)]. *)
Definition get_layers_sub
    (st : layer_table * gmap string (option string) * option string)
    (sub_elem : Element)
    : result (layer_table * gmap string (option string) * option string) :=
  let '(layers_ref, layer_values, name_value) := st in
  rbind (second (split_on "}" (tag sub_elem))) (λ layer_property,
    if decide (layer_property = "Name")
    then Ok (setdefault (text sub_elem) ∅ layers_ref, layer_values, text sub_elem)
    else Ok (layers_ref, setdefault layer_property (text sub_elem) layer_values, name_value)).

Definition get_layers_layer (layers_ref : layer_table) (layer : Element)
    : result layer_table :=
  if contains (namespace +:+ "LayerDefinition") (tag layer) then
    rbind (rfold get_layers_sub (children layer) (layers_ref, ∅, Some "x"))
      (λ '(layers_ref, layer_values, name_value),
        match layers_ref !! name_value with
        | Some old => Ok (<[name_value := layer_values ∪ old]> layers_ref)
        | None => Raise (KeyError (default "None" name_value))
        end)
  else Ok layers_ref.

Definition get_layers_child (layers_ref : layer_table) (child : Element)
    : result layer_table :=
  if contains (namespace +:+ "LayerDefinitions") (tag child)
  then rfold get_layers_layer (children child) layers_ref
  else Ok layers_ref.

(** [get_layers] on the root of the parsed document. *)
Definition get_layers_root (root : Element) : result layer_table :=
  rfold get_layers_child (children root) ∅.

Abbreviation code_table := (gmap (option string) (gmap string string)).
Abbreviation code_layer_table := (gmap (option string) (option string)).

Definition get_codes_gchild
    (st : code_table * code_table * code_layer_table) (gchild : Element)
    : code_table * code_table * code_layer_table :=
  let '(point_code_dict_ref, line_code_dict_ref, code_layer_map_ref) := st in
  let '(point_code_dict_ref, code_layer_map_ref) :=
    if contains (namespace +:+ "PointFeatureDefinition") (tag gchild) then
      let point_code := attrib gchild !! "Code" in
      (setdefault point_code (attrib gchild) point_code_dict_ref,
       setdefault point_code (attrib gchild !! "Layer") code_layer_map_ref)
    else (point_code_dict_ref, code_layer_map_ref) in
  let '(line_code_dict_ref, code_layer_map_ref) :=
    if contains (namespace +:+ "LineFeatureDefinition") (tag gchild) then
      let line_code := attrib gchild !! "Code" in
      (setdefault line_code (attrib gchild) line_code_dict_ref,
       setdefault line_code (attrib gchild !! "Layer") code_layer_map_ref)
    else (line_code_dict_ref, code_layer_map_ref) in
  (point_code_dict_ref, line_code_dict_ref, code_layer_map_ref).

Definition get_codes_child
    (st : code_table * code_table * code_layer_table) (child : Element)
    : code_table * code_table * code_layer_table :=
  if contains (namespace +:+ "FeatureDefinitions") (tag child)
  then fold_left get_codes_gchild (children child) st
  else st.

(** [get_codes] on the root of the parsed document. *)
Definition get_codes_root (root : Element)
    : code_table * code_table * code_layer_table :=
  fold_left get_codes_child (children root) (∅, ∅, ∅).

(** [list(d.keys())], used for membership only. *)
Definition keys {V} (d : gmap (option string) V) : list (option string) :=
  (map_to_list d).*1.

(** ** get_layer_from_pcode *)

Definition get_layer_from_pcode_step (code_layer_map : code_layer_table)
    (needed_layers : gset string) (pcode : string) : result (gset string) :=
  match code_layer_map !! Some pcode with
  | Some (Some layer) =>
      Ok (needed_layers ∪ {[layer]} ∪ {["attrib_" +:+ layer]} ∪ {["points_" +:+ layer]})
  | Some None => Raise (TypeError "can only concatenate str (not NoneType) to str")
  | None =>
      Ok (needed_layers ∪ {["Spare"]} ∪ {["attrib_Spare"]} ∪ {["points_Spare"]})
  end.

Definition get_layer_from_pcode (pcode_list : list string)
    (code_layer_map : code_layer_table) : result (gset string) :=
  rfold (get_layer_from_pcode_step code_layer_map) pcode_list {["Points"]}.

(** ** Floating point, the drawing and the state of the script *)

(** The operations on [float] that the script uses. [float_of_str] is
    [float(s)], [None] standing for [ValueError]. *)
Class FloatOps := {
  float : Type;
  float_of_str : string → option float;
  float_of_Z : Z → float;
  fadd : float → float → float;
  fsub : float → float → float;
  fdiv : float → float → float;
  fmin : float → float → float;
  fmax : float → float → float;
  fgtb : float → float → bool }.

(** A row of the survey as [get_survey] stores it: the string-valued
    entries ([PointNumber] ... [Point_code], [Sequence]) and the entry
    ["attrib"], when present. *)
Record row_dict := RowDict {
  cols : gmap string string;
  attrib_of : option (list (string * string)) }.

Definition seq_map := list (option Z * list row_dict).
Definition code_map := list (string * seq_map).

(** [all_pts_map]: the three entries ["Line"], ["Point"], ["Unknown"]. *)
Record all_pts := AllPts {
  line_pts : code_map;
  point_pts : code_map;
  unknown_pts : code_map }.

Definition pts_of (pt : point_type) (m : all_pts) : code_map :=
  match pt with
  | Line => line_pts m
  | Point => point_pts m
  | Unknown => unknown_pts m
  end.

Definition set_pts (pt : point_type) (c : code_map) (m : all_pts) : all_pts :=
  match pt with
  | Line => AllPts c (point_pts m) (unknown_pts m)
  | Point => AllPts (line_pts m) c (unknown_pts m)
  | Unknown => AllPts (line_pts m) (point_pts m) c
  end.

(** [m[pt][code][sequence]], empty when a key is missing. *)
Definition bucket (m : all_pts) (pt : point_type) (code : string)
    (sequence : option Z) : list row_dict :=
  default [] (OD.get code (pts_of pt m) ≫= OD.get sequence).

Inductive csv_open :=
| CsvNotFound
| CsvDenied
| CsvRows (rows : list (list string)).

Inductive xml_parse :=
| XmlFails (e : exn)
| XmlRoot (root : Element).

Section Pipeline.
Context {F : FloatOps}.

(** The calls into ezdxf. Text positions are given by the point and the
    index of the text line, from which the script derives them with
    fixed offsets. *)
Inductive draw_call :=
| SetHeader (key : string)
| SetLimits (key : string) (x y : float)
| SetVport (height cen_x cen_y : float)
| AddStyle (name : string)
| CreateBlock (block_name block_text : string)
| MLeaderStyle (name : string)
| AddLayer (name : string) (color : Z)
| AddMText (text : string) (x y : float) (line : Z)
| AddPoint (x y z : float) (layer : string)
| AddText (text : string) (x y : float) (line : Z) (layer : string)
| AddPolyline3d (vertex_list : list (float * float * float)) (layer : string)
| AddMultiLeader (text : string) (x y : float)
| AddBlockRef (block_name : string) (location : float * float * float)
| SaveAs (path : string).

Record world := World {
  csv_files : string → csv_open;
  xml_files : string → xml_parse;
  needed_pcodes : list string;
  stdout : list msg;
  doc : list draw_call }.

(** State passing with exceptions; the state reached is kept when an
    exception is raised. *)
Definition M (A : Type) : Type := world → result A * world.

Definition ret {A} (a : A) : M A := λ w, (Ok a, w).
Definition raise {A} (e : exn) : M A := λ w, (Raise e, w).
Definition bind {A B} (m : M A) (f : A → M B) : M B :=
  λ w, match m w with
       | (Ok a, w') => f a w'
       | (Raise e, w') => (Raise e, w')
       end.
Definition lift {A} (r : result A) : M A := λ w, (r, w).

Definition print (m : msg) : M unit :=
  λ w, (Ok tt, World (csv_files w) (xml_files w) (needed_pcodes w)
                     (stdout w ++ [m]) (doc w)).
Definition emit (d : draw_call) : M unit :=
  λ w, (Ok tt, World (csv_files w) (xml_files w) (needed_pcodes w)
                     (stdout w) (doc w ++ [d])).
Definition get_needed : M (list string) := λ w, (Ok (needed_pcodes w), w).
Definition set_needed (l : list string) : M unit :=
  λ w, (Ok tt, World (csv_files w) (xml_files w) l (stdout w) (doc w)).

Fixpoint foldM {A B} (f : B → A → M B) (l : list A) (b : B) : M B :=
  match l with
  | [] => ret b
  | a :: l' => bind (f b a) (foldM f l')
  end.

Definition forM {A} (l : list A) (f : A → M unit) : M unit :=
  foldM (λ _ a, f a) l tt.
End Pipeline.

Arguments draw_call : clear implicits.
Arguments world : clear implicits.

Declare Scope M_scope.
Delimit Scope M_scope with M.
Notation "x <- m ;; k" := (bind m (λ x, k))
  (at level 20, m at level 99, k at level 200, only parsing) : M_scope.
Notation "' p <- m ;; k" := (bind m (λ p, k))
  (at level 20, p pattern, m at level 99, k at level 200, only parsing) : M_scope.
Notation "m ;; k" := (bind m (λ _, k))
  (at level 100, k at level 200, right associativity, only parsing) : M_scope.

(** ** Tables of the script *)

(** Trimble library colours to AutoCAD colour indices; the values are the
    integers that [int(layer_color)] yields. *)
Definition MAP_RGB_TO_CAD : gmap string Z :=
  list_to_map
    [("FF804000", 36); ("FFD3D3D3", 254); ("FFFFFF00", 2); ("FF008000", 96);
     ("FF0080FF", 150); ("FFFF7F00", 30); ("FFFF003F", 240); ("FF000040", 178);
     ("FFFFA500", 40); ("FFADADAD", 253); ("FFFF00FF", 6); ("FF3F00FF", 180);
     ("FF800080", 216); ("FF0000A0", 174); ("FF0000FF", 5); ("FF003FFF", 160);
     ("FF009926", 104); ("FF00FF00", 3); ("FFFF0000", 1); ("FFFFFFFF", 7)].

Definition POINTCODE_TO_TEXT : gmap string string :=
  list_to_map
    [("wmf_av", "A.V."); ("wmf_bb", "BB"); ("wmf_bm", "B.M.");
     ("wmf_conn", "Connection" +:+ nl +:+ "Easting: ###" +:+ nl +:+ "Northing: ###");
     ("wmf_dc", "D.C"); ("wmf_fh", "F.H."); ("wmf_fm", "FM"); ("wmf_sv", "S.V");
     ("wmf_marker", "MarkerPlate"); ("wmf_sc", "S.C."); ("wmf_scv", "Sc.V");
     ("wmf_scmh", "Sc.MH"); ("wmf_rd", "RD"); ("wmf_sd", "S.D."); ("wmf_tp", "Tee")].

Definition fixed_columns : list string :=
  ["PointNumber"; "Easting"; "Northing"; "Height"; "Point_code"].

(** ** get_survey *)

(** [range(0, n, 2)] *)
Definition range2 (n : nat) : list nat :=
  (λ i, 2 * i)%nat <$> seq 0 ((n + 1) / 2).

(** The loop that reads the attribute columns [row[5:]]. *)
Definition parse_attributes (attributes : list string) : list (string * string) :=
  fold_left
    (λ attributes_dict j,
       match attributes !! j with
       | Some key =>
           let value :=
             if decide (j + 1 < length attributes)%nat
             then default "" (attributes !! (j + 1)%nat)
             else "" in
           OD.set key value attributes_dict
       | None => attributes_dict
       end)
    (range2 (length attributes)) [].

(** [f"{sequence}"] *)
Definition fmt_sequence (sequence : option Z) : string :=
  match sequence with
  | Some z => pretty z
  | None => "None"
  end.

(** The dictionary appended to the index for a row whose code classified
    as [pcode] with differentiator [sequence]. *)
Definition make_row_dict (row : list string) (pcode : string)
    (sequence : option Z) : row_dict :=
  let row_dict : gmap string string := list_to_map (zip fixed_columns row) in
  let row_dict := <["Point_code" := pcode]> row_dict in
  let row_dict := <["Sequence" := fmt_sequence sequence]> row_dict in
  RowDict row_dict
    (if decide (5 < length row)%nat then Some (parse_attributes (drop 5 row)) else None).

(** [row_dict.get("Point_code", False)] when it is truthy. *)
Definition row_code (row : list string) : option string :=
  match (list_to_map (zip fixed_columns row) : gmap string string) !! "Point_code" with
  | Some point_code => if decide (point_code = "") then None else Some point_code
  | None => None
  end.

(** [all_pts_map[point_type].setdefault(pcode, {}).setdefault(sequence, []).append(r)] *)
Definition index_append (point_type : point_type) (pcode : string)
    (sequence : option Z) (r : row_dict) (all_pts_map : all_pts) : all_pts :=
  set_pts point_type
    (OD.upd pcode (OD.upd sequence (λ l, l ++ [r]) []) [] (pts_of point_type all_pts_map))
    all_pts_map.

Section Survey.
Context {F : FloatOps}.
Local Open Scope M_scope.

(** The body of [for row in reader]. *)
Definition get_survey_row (point_codes_ref line_codes_ref : list (option string))
    (all_pts_map : all_pts) (row : list string) : M all_pts :=
  match row_code row with
  | Some point_code =>
      ' (out, (success, pcode, sequence, point_type)) <-
        lift (process_code point_code line_codes_ref point_codes_ref) ;;
      forM out print ;;
      needed <- get_needed ;;
      (if decide (pcode ∈ needed) then ret tt else set_needed (needed ++ [pcode])) ;;
      ret (index_append point_type pcode sequence
             (make_row_dict row pcode sequence) all_pts_map)
  | None => ret all_pts_map
  end.

Definition get_survey (file_path : string)
    (point_codes_ref line_codes_ref : list (option string)) : M (option all_pts) :=
  λ w, match csv_files w file_path with
       | CsvRows rows =>
           (all_pts_map <- foldM (get_survey_row point_codes_ref line_codes_ref)
                                 rows (AllPts [] [] []) ;;
            ret (Some all_pts_map)) w
       | CsvNotFound => (print (MsgSurveyNotFound file_path) ;; ret None) w
       | CsvDenied => (print (MsgSurveyDenied file_path) ;; ret None) w
       end.

(** ** The feature library, read from a file *)

(** [tree.parse(file_path); tree.getroot()] *)
Definition parse (file_path : string) : M Element :=
  λ w, match xml_files w file_path with
       | XmlRoot root => (Ok root, w)
       | XmlFails e => (Raise e, w)
       end.

Definition get_layers (file_path : string) : M layer_table :=
  root <- parse file_path ;; lift (get_layers_root root).

Definition get_codes (file_path : string)
    : M (code_table * code_table * code_layer_table) :=
  root <- parse file_path ;; ret (get_codes_root root).

(** ** Drawing *)

(** [float(point.get(key, 0))] *)
Definition get_float (point : row_dict) (key : string) : M float :=
  match cols point !! key with
  | Some s =>
      match float_of_str s with
      | Some x => ret x
      | None => raise (ValueError s)
      end
  | None => ret (float_of_Z 0)
  end.

(** [point[key]] *)
Definition get_col (point : row_dict) (key : string) : M string :=
  match cols point !! key with
  | Some s => ret s
  | None => raise (KeyError key)
  end.

Definition add_attrib_text (point : row_dict) (point_code layer_name : string)
    : M unit :=
  x <- get_float point "Easting" ;;
  y <- get_float point "Northing" ;;
  z <- get_float point "Height" ;;
  match attrib_of point with
  | Some attrib =>
      foldM (λ count '(attrib_key, attrib_value),
               label <- lift (second (split_on ":" attrib_key)) ;;
               emit (AddMText ("\H0.5x;" +:+ label +:+ ": \H1x;" +:+ attrib_value)
                              x y count) ;;
               ret (count + 1))
            attrib 0 ;;
      print (MsgAttrib attrib)
  | None => ret tt
  end ;;
  emit (AddPoint x y z ("points_" +:+ layer_name)) ;;
  let sequence_text := default "" (cols point !! "Sequence") in
  let sequence_text :=
    if decide (sequence_text = "None" ∨ sequence_text = "-1") then "" else sequence_text in
  emit (AddText ("Code: " +:+ point_code +:+ sequence_text) x y 1 "Point Code") ;;
  height <- get_col point "Height" ;;
  emit (AddText ("Z = " +:+ height) x y 2 "Point Height") ;;
  point_number <- get_col point "PointNumber" ;;
  emit (AddText ("PtNum: " +:+ point_number) x y 3 "Point Number").

Definition create_blocks : M unit :=
  needed <- get_needed ;;
  forM needed (λ needed_pcode,
    match POINTCODE_TO_TEXT !! needed_pcode with
    | Some block_text => emit (CreateBlock (block_text +:+ "_Block") block_text)
    | None => ret tt
    end).

(** [survey[key]] for [key] one of ["Line"], ["Point"], ["Unknown"]. *)
Definition subscript (survey : option all_pts) (key : point_type) : M code_map :=
  match survey with
  | Some m => ret (pts_of key m)
  | None => raise (TypeError "'NoneType' object is not subscriptable")
  end.

(** [codes_dict[point_code]['Layer']] *)
Definition layer_of (codes_dict : code_table) (point_code : string) : result string :=
  match codes_dict !! Some point_code with
  | Some attribs =>
      match attribs !! "Layer" with
      | Some layer => Ok layer
      | None => Raise (KeyError "Layer")
      end
  | None => Raise (KeyError point_code)
  end.

Definition vertex (point : row_dict) : M (float * float * float) :=
  x <- get_float point "Easting" ;;
  y <- get_float point "Northing" ;;
  z <- get_float point "Height" ;;
  ret (x, y, z).

(** The loops over [survey['Line']] and over [survey['Unknown']], which
    differ in the line printed; both look the layer up in
    [line_codes_dict]. *)
Definition draw_chains (announce : string → msg) (line_codes_dict : code_table)
    (group : code_map) : M unit :=
  forM group (λ '(point_code, seqs),
    print (announce point_code) ;;
    layer_name <- lift (layer_of line_codes_dict point_code) ;;
    forM seqs (λ '(sequence, pts),
      vertex_list <-
        foldM (λ vertex_list point,
                 add_attrib_text point point_code layer_name ;;
                 v <- vertex point ;;
                 ret (vertex_list ++ [v]))
              pts [] ;;
      emit (AddPolyline3d vertex_list layer_name))).

(** The loop over [survey['Point']]. *)
Definition draw_points (point_codes_dict : code_table) (group : code_map) : M unit :=
  forM group (λ '(point_code, seqs),
    let needs_block := bool_decide (is_Some (POINTCODE_TO_TEXT !! point_code)) in
    let block_name := default "" (POINTCODE_TO_TEXT !! point_code) +:+ "_Block" in
    print (MsgPointCode point_code) ;;
    layer_name <- lift (layer_of point_codes_dict point_code) ;;
    _ <- foldM (λ locations '(key, value),
           foldM (λ locations point,
                    locations <-
                      (if needs_block then
                         v <- vertex point ;;
                         x <- get_float point "Easting" ;;
                         y <- get_float point "Northing" ;;
                         emit (AddMultiLeader
                                 (default "" (POINTCODE_TO_TEXT !! point_code)) x y) ;;
                         ret (locations ++ [v])
                       else ret locations) ;;
                    add_attrib_text point point_code layer_name ;;
                    (if needs_block
                     then forM locations (λ location, emit (AddBlockRef block_name location))
                     else ret tt) ;;
                    ret locations)
                 value locations)
         seqs [] ;;
    ret tt).

(** Everything [create_dxf] does before it reads the survey: the header,
    the text style (the document is new, so [OpenSans] is not in it yet),
    the blocks, the leader style and the layers. The elements of the set
    [needed_layers] are visited in the order of [elements]. *)
Definition create_dxf_setup (layers : layer_table) (needed_layers : gset string)
    : M unit :=
  emit (SetHeader "$PDMODE") ;;
  emit (SetHeader "$PDSIZE") ;;
  emit (AddStyle "OpenSans") ;;
  create_blocks ;;
  emit (MLeaderStyle "EZDXF") ;;
  emit (AddLayer "Point Code" 1) ;;
  emit (AddLayer "Point Height" 5) ;;
  emit (AddLayer "Point Number" 3) ;;
  _ <- foldM (λ layer_color layer,
         layer_color <-
           match layers !! Some layer with
           | Some props =>
               if decide (layer ∈ ["0"; "Points"]) then ret layer_color
               else match props !! "Color" with
                    | Some color => ret (default 7 (color ≫= (MAP_RGB_TO_CAD !!.)))
                    | None => raise (KeyError "Color")
                    end
           | None => ret 7
           end ;;
         emit (AddLayer layer layer_color) ;;
         ret layer_color)
       (elements needed_layers) 7 ;;
  ret tt.

Definition create_dxf (output_dxf_path : string) (layers : layer_table)
    (survey : option all_pts) (point_codes_dict line_codes_dict : code_table)
    (needed_layers : gset string) : M unit :=
  create_dxf_setup layers needed_layers ;;
  lines <- subscript survey Line ;;
  draw_chains MsgPointCode line_codes_dict lines ;;
  unknowns <- subscript survey Unknown ;;
  draw_chains MsgUnknownCode line_codes_dict unknowns ;;
  points <- subscript survey Point ;;
  draw_points point_codes_dict points ;;
  emit (SaveAs output_dxf_path).

(** The part of [create_dxf] that precedes the loop over
    [survey['Unknown']]. *)
Definition before_unknown (layers : layer_table) (survey : option all_pts)
    (line_codes_dict : code_table) (needed_layers : gset string) : M unit :=
  create_dxf_setup layers needed_layers ;;
  lines <- subscript survey Line ;;
  draw_chains MsgPointCode line_codes_dict lines.

Definition set_dxf_view (survey_ref : option all_pts) : M unit :=
  lines <- subscript survey_ref Line ;;
  let zero := float_of_Z 0 in
  ' (count, min_x, min_y, max_x, max_y) <-
    foldM (λ st '(point_code, seqs),
      foldM (λ st '(sequence, pts),
        foldM (λ '(count, min_x, min_y, max_x, max_y) point,
                 x <- get_float point "Easting" ;;
                 y <- get_float point "Northing" ;;
                 let '(min_x, min_y, max_x, max_y) :=
                   if decide (count = 0) then (x, y, x, y)
                   else (min_x, min_y, max_x, max_y) in
                 ret (count + 1, fmin min_x x, fmin min_y y, fmax max_x x, fmax max_y y))
              pts st)
        seqs st)
      lines (0, zero, zero, zero, zero) ;;
  let twenty := float_of_Z 20 in
  emit (SetLimits "$LIMMIN" (fsub min_x twenty) (fsub min_y twenty)) ;;
  emit (SetLimits "$LIMMAX" (fadd max_x twenty) (fadd max_y twenty)) ;;
  let vp_height := fadd (fsub max_y min_y) twenty in
  let vp_width := fadd (fsub max_x min_x) twenty in
  let cen_x := fdiv (fadd max_x min_x) (float_of_Z 2) in
  let cen_y := fdiv (fadd max_y min_y) (float_of_Z 2) in
  let zoom_all := float_of_Z 2 in
  let survey_aspect := fdiv vp_width vp_height in
  let vp_heightrect :=
    if fgtb survey_aspect zoom_all then fdiv vp_width zoom_all else vp_height in
  emit (SetVport vp_heightrect cen_x cen_y).

(** ** The script body, once the three paths are chosen *)
Definition main (library_file_path survey_file_path output_dxf_path : string)
    : M unit :=
  set_needed [] ;;
  layers <- get_layers library_file_path ;;
  ' (point_code_dict, line_code_dict, code_layer_map) <- get_codes library_file_path ;;
  let point_codes := keys point_code_dict in
  let line_codes := keys line_code_dict in
  survey <- get_survey survey_file_path point_codes line_codes ;;
  set_dxf_view survey ;;
  needed <- get_needed ;;
  needed_layers <- lift (get_layer_from_pcode needed code_layer_map) ;;
  create_dxf output_dxf_path layers survey point_code_dict line_code_dict needed_layers.
End Survey.

(** ** An instance for examples

    Coordinates written as integer literals, with exact arithmetic. *)

Definition int_literal (s : string) : option Z :=
  let all_digits (t : string) :=
    (negb (String.eqb t "") && forallb (Re.mem digits) (list_ascii_of_string t))%bool in
  match s with
  | String "-" t => if all_digits t then Some (- int_of_digits t) else None
  | _ => if all_digits s then Some (int_of_digits s) else None
  end.

Definition ZCoords : FloatOps := {|
  float := Z;
  float_of_str := int_literal;
  float_of_Z := id;
  fadd := Z.add;
  fsub := Z.sub;
  fdiv := Z.div;
  fmin := Z.min;
  fmax := Z.max;
  fgtb := Z.gtb |}.

Definition elem (name : string) (attrs : list (string * string))
    (txt : option string) (kids : list Element) : Element :=
  Elem (namespace +:+ name) (list_to_map attrs) txt kids.

(** A library with the layers [Kerb] and [BenchMarks], the line code [kb]
    and the point code [bm]. *)
Definition library_example : Element :=
  elem "FXL" [] None
    [elem "LayerDefinitions" [] None
       [elem "LayerDefinition" [] None
          [elem "Name" [] (Some "Kerb") []; elem "Color" [] (Some "FF0000FF") []];
        elem "LayerDefinition" [] None
          [elem "Name" [] (Some "BenchMarks") []; elem "Color" [] (Some "FFFF0000") []]];
     elem "FeatureDefinitions" [] None
       [elem "LineFeatureDefinition" [("Code", "kb"); ("Layer", "Kerb")] None [];
        elem "PointFeatureDefinition" [("Code", "bm"); ("Layer", "BenchMarks")] None []]].

(** A world in which the library is [library.fxl] and the survey file
    [survey.csv] holds [survey]. *)
Definition world_example (survey : csv_open) : world ZCoords :=
  World
    (λ path, if decide (path = "survey.csv") then survey else CsvNotFound)
    (λ path, if decide (path = "library.fxl") then XmlRoot library_example
             else XmlFails (OSError path))
    [] [] [].

(** A survey with two [kb1] rows around a [bm] row and a header. *)
Definition survey_rows_example : list (list string) :=
  [["header"];
   ["1"; "100"; "200"; "10"; "kb1"];
   ["2"; "5"; "6"; "7"; "bm"];
   ["3"; "101"; "201"; "10"; "kb1"; "Diameter:"; "150"; "Material:"]].

(** A survey whose first row carries an attribute key without a colon and
    whose second row has a code that is in no table. *)
Definition survey_rows_no_colon : list (list string) :=
  [["1"; "100"; "200"; "10"; "kb1"; "Diameter"; "150"];
   ["2"; "101"; "201"; "10"; "xyz123"]].

(** A survey with a line row and a row whose code is in no table. *)
Definition survey_rows_unknown : list (list string) :=
  [["1"; "100"; "200"; "10"; "kb1"];
   ["2"; "101"; "201"; "10"; "xyz123"]].

(** A library that declares the code [x] twice, as a line on the layer [L]
    and then as a point on the layer [P]. *)
Definition library_twice : Element :=
  elem "FXL" [] None
    [elem "FeatureDefinitions" [] None
       [elem "LineFeatureDefinition" [("Code", "x"); ("Layer", "L")] None [];
        elem "PointFeatureDefinition" [("Code", "x"); ("Layer", "P")] None []]].

(** What [get_codes] maintains: the merged map has the keys of the two
    tables, and each of its values is the [Layer] attribute kept for that
    code in one of them. *)
Definition tables_agree (st : code_table * code_table * code_layer_table) : Prop :=
  let '(pt, ln, m) := st in
  (∀ c, is_Some (m !! c) ↔ is_Some (pt !! c) ∨ is_Some (ln !! c)) ∧
  (∀ c l, m !! c = Some l →
     (∃ a, pt !! c = Some a ∧ a !! "Layer" = l) ∨
     (∃ a, ln !! c = Some a ∧ a !! "Layer" = l)).

(** The line that [get_survey] prints when the survey file cannot be
    opened. *)
Definition survey_diagnostic (status : csv_open) (file_path : string) : msg :=
  match status with
  | CsvDenied => MsgSurveyDenied file_path
  | _ => MsgSurveyNotFound file_path
  end.

(** ** Whether an output file has been written *)

(** [doc.saveas] has been called. *)
Definition saves {F : FloatOps} (w : world F) : Prop :=
  ∃ path, SaveAs path ∈ doc w.

(** A computation that does not call [doc.saveas], whether it returns or
    raises. *)
Definition no_save {F : FloatOps} {A} (m : M A) : Prop :=
  ∀ w r w', m w = (r, w') → saves w' → saves w.

(** ** The shape of the tokens that [pattern] accepts *)

Definition is_letter (c : ascii) : bool := Re.mem letters c.
Definition is_word (c : ascii) : bool := Re.mem word_chars c.
Definition is_digit (c : ascii) : bool := Re.mem digits c.

(** A base code: at least two characters, all of them letters, digits or
    underscores, the first and the last a letter. *)
Definition is_base (base : string) : bool :=
  let l := list_ascii_of_string base in
  match l, last l with
  | a :: _ :: _, Some z => (is_letter a && is_letter z && forallb is_word l)%bool
  | _, _ => false
  end.

Definition is_digits (s : string) : bool :=
  forallb is_digit (list_ascii_of_string s).

(** [tok] is the base code [base], then the digits [digs] (possibly none),
    then nothing or one newline. *)
Definition token_parts (tok base digs : string) : Prop :=
  ∃ tail, tok = base +:+ digs +:+ tail ∧ is_base base = true ∧
          is_digits digs = true ∧ (tail = "" ∨ tail = nl).

(** The characters that may follow a base code: digits and the newline. *)
Definition after_base (c : ascii) : bool := (is_digit c || Ascii.eqb c "010")%bool.

(** What [m.group(2)] is for a token with the digits [digs]. *)
Definition group2_of (digs : string) : option string :=
  if decide (digs = "") then None else Some digs.

(** The grammar in the words of the specification: a run of letters,
    optionally followed by letters and digits ending in a letter, then an
    optional run of digits at the very end. *)
Definition is_alnum (c : ascii) : bool := (is_letter c || is_digit c)%bool.

Definition spec_grammar (tok : string) : Prop :=
  ∃ run more digs : list ascii,
    list_ascii_of_string tok = run ++ more ++ digs ∧
    run ≠ [] ∧ forallb is_letter run = true ∧
    (more = [] ∨ (forallb is_alnum more = true ∧ ∃ z, last more = Some z ∧ is_letter z = true)) ∧
    forallb is_digit digs = true.

(** The attribute columns taken two at a time, a missing value being the
    empty string. *)
Fixpoint pairs (attributes : list string) : list (string * string) :=
  match attributes with
  | key :: value :: rest => (key, value) :: pairs rest
  | [key] => [(key, "")]
  | [] => []
  end.

Definition dict_of_pairs (l : list (string * string)) : list (string * string) :=
  fold_left (λ d kv, OD.set kv.1 kv.2 d) l [].

(** The layer that [get_layer_from_pcode] chooses for a needed code. *)
Definition chosen_layer (code_layer_map : code_layer_table) (pcode : string) : string :=
  match code_layer_map !! Some pcode with
  | Some (Some layer) => layer
  | _ => "Spare"
  end.

(** The bucket of the index that a row of the survey goes to, if it is a
    data row that [process_code] classifies. *)
Definition row_key (point_codes_ref line_codes_ref : list (option string))
    (row : list string) : option (point_type * string * option Z) :=
  match row_code row with
  | Some point_code =>
      match process_code point_code line_codes_ref point_codes_ref with
      | Ok (_, (_, pcode, sequence, point_type)) => Some (point_type, pcode, sequence)
      | Raise _ => None
      end
  | None => None
  end.

(** A row on which [process_code] is not called, or is called and
    returns: its code, if it has one, carries no more trailing digits
    than [int] converts. *)
Definition within_int_limit (row : list string) : Prop :=
  ∀ tok base digs,
    row_code row = Some tok → token_parts tok base digs →
    (String.length digs ≤ max_str_digits)%nat.

(** ** Notions used to state further properties *)

(** The point records of a group of the index, in the order in which the
    loops of [set_dxf_view] and [create_dxf] visit them. *)
Definition points_of_group (group : code_map) : list row_dict :=
  concat ((λ kv : string * seq_map, concat (snd <$> kv.2)) <$> group).

(** [float(point.get(key, 0))] does not raise. *)
Definition coordinate_ok {F : FloatOps} (point : row_dict) (key : string) : Prop :=
  match cols point !! key with
  | Some s => is_Some (float_of_str s)
  | None => True
  end.

(** The declarations that [get_codes] records for one element, in the
    order of its two tests: [true] for a point feature, [false] for a line
    feature. *)
Definition declared_by (gchild : Element) : list (bool * Element) :=
  (if contains (namespace +:+ "PointFeatureDefinition") (tag gchild)
   then [(true, gchild)] else []) ++
  (if contains (namespace +:+ "LineFeatureDefinition") (tag gchild)
   then [(false, gchild)] else []).

(** The declarations of a library in document order. *)
Definition declared (root : Element) : list (bool * Element) :=
  child ← children root;
  if contains (namespace +:+ "FeatureDefinitions") (tag child)
  then children child ≫= declared_by
  else [].

(** The [Code] attribute of a declaration. *)
Definition code_attr (d : bool * Element) : option string := attrib d.2 !! "Code".

(** The pairs that the declarations of a kind contribute to its table. *)
Definition table_pairs (point : bool) (ds : list (bool * Element))
    : list (option string * gmap string string) :=
  omap (λ d : bool * Element,
          if decide (d.1 = point) then Some (code_attr d, attrib d.2) else None) ds.

(** The pairs that the declarations contribute to the code-to-layer map. *)
Definition layer_pairs (ds : list (bool * Element))
    : list (option string * option string) :=
  (λ d : bool * Element, (code_attr d, attrib d.2 !! "Layer")) <$> ds.

(** The layer definitions that [get_layers] visits, in document order. *)
Definition layer_definitions (root : Element) : list Element :=
  concat ((λ child,
             if contains (namespace +:+ "LayerDefinitions") (tag child)
             then filter (λ layer, contains (namespace +:+ "LayerDefinition") (tag layer) = true)
                         (children child)
             else []) <$> children root).

(** What follows a sequence in the code label that [add_attrib_text]
    writes. *)
Definition sequence_label (sequence : option Z) : string :=
  match sequence with
  | None => ""
  | Some z => if decide (z = -1) then "" else pretty z
  end.

(** A string that does not start with the letter N. *)
Definition not_N (s : string) : Prop :=
  match s with
  | String c _ => c ≠ "N"%char
  | EmptyString => True
  end.

(** The record that [get_survey] stores for a row, if it is a data row. *)
Definition stored_row (point_codes_ref line_codes_ref : list (option string))
    (row : list string) : option row_dict :=
  match row_key point_codes_ref line_codes_ref row with
  | Some (_, pcode, sequence) => Some (make_row_dict row pcode sequence)
  | None => None
  end.

(** All the records of an index. *)
Definition all_points (m : all_pts) : list row_dict :=
  points_of_group (line_pts m) ++ points_of_group (point_pts m) ++
  points_of_group (unknown_pts m).

(** A computation that calls [doc.saveas] on [path] as its last step when
    it returns, and not at all when it raises. *)
Definition saves_last {F : FloatOps} (path : string) (m : M unit) : Prop :=
  ∀ w r w', m w = (r, w') → ¬ saves w →
    match r with
    | Ok _ => ∃ calls, doc w' = calls ++ [SaveAs path] ∧ ∀ p, SaveAs p ∉ calls
    | Raise _ => ¬ saves w'
    end.

(** An attribute key in which no colon occurs. *)
Definition no_colon (kv : string * string) : Prop :=
  ":"%char ∉ list_ascii_of_string kv.1.

(** ** What the drawing loops put on the document *)

(** [float(point.get(key, 0))] when it does not raise. *)
Definition coordinate {F : FloatOps} (point : row_dict) (key : string) : float :=
  match cols point !! key with
  | Some s => default (float_of_Z 0) (float_of_str s)
  | None => float_of_Z 0
  end.

(** The vertex of a point. *)
Definition location {F : FloatOps} (point : row_dict) : float * float * float :=
  (coordinate point "Easting", coordinate point "Northing", coordinate point "Height").

(** A point record that [add_attrib_text] can draw: its coordinates are
    numbers, its attribute keys have a colon, and it has the entries
    [Height] and [PointNumber]. *)
Definition drawable {F : FloatOps} (point : row_dict) : Prop :=
  coordinate_ok point "Easting" ∧ coordinate_ok point "Northing" ∧
  coordinate_ok point "Height" ∧
  match attrib_of point with
  | Some attribs => ¬ Exists no_colon attribs
  | None => True
  end ∧
  is_Some (cols point !! "Height") ∧ is_Some (cols point !! "PointNumber").

(** The calls that [add_attrib_text] makes. *)
Definition is_label {F : FloatOps} (d : draw_call F) : bool :=
  match d with
  | AddMText _ _ _ _ | AddPoint _ _ _ _ | AddText _ _ _ _ _ => true
  | _ => false
  end.

(** The block reference that a call inserts, if it is one. *)
Definition block_ref {F : FloatOps} (d : draw_call F)
    : option (string * (float * float * float)) :=
  match d with
  | AddBlockRef block_name location => Some (block_name, location)
  | _ => None
  end.

(** The polyline that a call adds, if it is one. *)
Definition polyline {F : FloatOps} (d : draw_call F)
    : option (list (float * float * float) * string) :=
  match d with
  | AddPolyline3d vertex_list layer => Some (vertex_list, layer)
  | _ => None
  end.

(** [m] returns [r] from [w] after calls on the document of which [proj]
    keeps [out]. *)
Definition returns_with {F : FloatOps} {A B} (proj : draw_call F → option B)
    (m : M A) (w : world F) (r : A) (out : list B) : Prop :=
  ∃ w' calls, m w = (Ok r, w') ∧ doc w' = doc w ++ calls ∧ omap proj calls = out.

(** The values that a list takes while the elements of [l] are appended
    to [acc] one by one. *)
Fixpoint growing {A} (acc l : list A) : list (list A) :=
  match l with
  | [] => []
  | a :: l' => (acc ++ [a]) :: growing (acc ++ [a]) l'
  end.

(** The [Layer] attribute of a code in a table. *)
Definition layer_name (codes_dict : code_table) (point_code : string) : option string :=
  codes_dict !! Some point_code ≫= (λ attribs, attribs !! "Layer").

(** The block references that the loop over [survey['Point']] inserts
    for a code: after each point, one for every location collected for
    the code so far. *)
Definition refs_of_code {F : FloatOps} (point_code : string) (seqs : seq_map)
    : list (string * (float * float * float)) :=
  match POINTCODE_TO_TEXT !! point_code with
  | Some block_text =>
      (λ loc, (block_text +:+ "_Block", loc)) <$>
        concat (growing [] (location <$> concat (snd <$> seqs)))
  | None => []
  end.

(** The polylines that the loops over [survey['Line']] and
    [survey['Unknown']] add for a code: one for each sequence. *)
Definition polylines_of_code {F : FloatOps} (codes_dict : code_table)
    (point_code : string) (seqs : seq_map)
    : list (list (float * float * float) * string) :=
  (λ sv : option Z * list row_dict,
     (location <$> sv.2, default "" (layer_name codes_dict point_code))) <$> seqs.

(** Two valves of the sequence 1 and one of the sequence 2, as
    [get_survey] stores them for the point code [wmf_av]; and the same
    rows stored for the line code [kb]. *)
Definition valves_example : seq_map :=
  [(Some 1, [make_row_dict ["1"; "100"; "200"; "10"; "wmf_av1"] "wmf_av" (Some 1);
             make_row_dict ["2"; "101"; "201"; "10"; "wmf_av1"] "wmf_av" (Some 1)]);
   (Some 2, [make_row_dict ["3"; "5"; "6"; "7"; "wmf_av2"] "wmf_av" (Some 2)])].

Definition kerbs_example : seq_map :=
  [(Some 1, [make_row_dict ["1"; "100"; "200"; "10"; "kb1"] "kb" (Some 1);
             make_row_dict ["2"; "101"; "201"; "10"; "kb1"] "kb" (Some 1)]);
   (Some 2, [make_row_dict ["3"; "5"; "6"; "7"; "kb2"] "kb" (Some 2)])].

(** Every needed layer that the library defines, apart from [0] and
    [Points], has a [Color]: the lookup [layers[layer]['Color']] of
    [create_dxf] finds its key. *)
Definition colours_known (layers : layer_table) (needed_layers : gset string) : Prop :=
  ∀ layer props,
    layer ∈ needed_layers → layers !! Some layer = Some props →
    layer ∈ ["0"; "Points"] ∨ is_Some (props !! "Color").

(** A survey index with the kerbs as lines and the valves as points. *)
Definition index_example : all_pts :=
  AllPts [("kb", kerbs_example)] [("wmf_av", valves_example)] [].

(** A run of digits one longer than [int] converts, and a survey whose
    third row carries it after the line code [kb]. *)
Definition long_digit_run : string :=
  string_of_list_ascii (replicate (S max_str_digits) "1"%char).



(** * Properties *)

(** ** Character classes *)

Lemma letter_is_word c : is_letter c = true → is_word c = true.
Proof. destruct c as [[] [] [] [] [] [] [] []]; vm_compute; congruence. Qed.

Lemma letter_not_digit c : is_letter c = true → is_digit c = false.
Proof. destruct c as [[] [] [] [] [] [] [] []]; vm_compute; congruence. Qed.

Lemma letter_not_newline c : is_letter c = true → Ascii.eqb c "010" = false.
Proof. destruct c as [[] [] [] [] [] [] [] []]; vm_compute; congruence. Qed.

Lemma digit_not_newline c : is_digit c = true → Ascii.eqb c "010" = false.
Proof. destruct c as [[] [] [] [] [] [] [] []]; vm_compute; congruence. Qed.

(** ** Strings as lists of characters *)

Lemma list_of_append (a b : string) :
  list_ascii_of_string (a +:+ b) = list_ascii_of_string a ++ list_ascii_of_string b.
Proof.
  induction a as [|c a IH]; [reflexivity|].
  change (String c a +:+ b) with (String c (a +:+ b)).
  simpl. by rewrite IH.
Qed.

Lemma string_of_app (u v : list ascii) :
  string_of_list_ascii (u ++ v) = string_of_list_ascii u +:+ string_of_list_ascii v.
Proof.
  induction u as [|c u IH]; [reflexivity|].
  simpl. rewrite IH. reflexivity.
Qed.

Lemma string_of_nil_inv (u : list ascii) : string_of_list_ascii u = "" → u = [].
Proof. by destruct u. Qed.

Lemma list_of_inj (a b : string) :
  list_ascii_of_string a = list_ascii_of_string b → a = b.
Proof.
  intros E. rewrite <- (string_of_list_ascii_of_string a), E.
  apply string_of_list_ascii_of_string.
Qed.

(** ** The matcher explores exactly what [Re.sem] allows *)

Lemma taken_app (u v : list ascii) : Re.taken (u ++ v) v = u.
Proof.
  unfold Re.taken. rewrite length_app.
  replace (length u + length v - length v)%nat with (length u) by lia.
  by rewrite take_app_length.
Qed.

Lemma star_sound cs s k g :
  Re.star cs s k = Some g →
  ∃ u v, s = u ++ v ∧ forallb (Re.mem cs) u = true ∧ k v = Some g.
Proof.
  induction s as [|c s IH]; simpl.
  - intros H. by exists [], [].
  - destruct (Re.mem cs c) eqn:Hc.
    + destruct (Re.star cs s k) as [g'|] eqn:Hs.
      * intros [= ->]. destruct (IH eq_refl) as (u & v & -> & Hu & Hk).
        exists (c :: u), v. simpl. by rewrite Hc, Hu.
      * intros Hk. by exists [], (c :: s).
    + intros Hk. by exists [], (c :: s).
Qed.

Lemma star_complete cs u v k :
  forallb (Re.mem cs) u = true → is_Some (k v) → is_Some (Re.star cs (u ++ v) k).
Proof.
  induction u as [|c u IH]; simpl.
  - intros _ Hk. destruct v as [|c v]; simpl; [done|].
    destruct (Re.mem cs c); [|done]. by destruct (Re.star cs v k).
  - intros [Hc Hu]%andb_true_iff Hk. rewrite Hc.
    by destruct (IH Hu Hk) as [g ->].
Qed.

Lemma sem_suffix r s g s' g' : Re.sem r s g s' g' → ∃ u, s = u ++ s'.
Proof.
  induction 1 as [cs c s g _|r1 r2 s g s1 g1 s2 g2 _ [u1 ->] _ [u2 ->]
                 |cs u s g _|cs c u s g _ _|r s g s' g' _ IH|r s g|n r s g s' g' _ IH|s g _].
  - by exists [c].
  - exists (u1 ++ u2). by rewrite <- app_assoc.
  - by exists u.
  - by exists (c :: u).
  - done.
  - by exists [].
  - done.
  - by exists [].
Qed.

Lemma run_sound r : ∀ s g k x,
  Re.run r s g k = Some x → ∃ s' g', Re.sem r s g s' g' ∧ k s' g' = Some x.
Proof.
  induction r as [cs|r1 IH1 r2 IH2|cs|cs|r IH|n r IH|]; intros s g k x; simpl.
  - destruct s as [|c s]; [done|]. destruct (Re.mem cs c) eqn:Hc; [|done].
    intros Hk. exists s, g. split; [by constructor|done].
  - intros H. apply IH1 in H as (s1 & g1 & H1 & H).
    apply IH2 in H as (s2 & g2 & H2 & H).
    exists s2, g2. split; [by econstructor|done].
  - intros H. apply star_sound in H as (u & v & -> & Hu & Hk).
    exists v, g. split; [by constructor|done].
  - destruct s as [|c s]; [done|]. destruct (Re.mem cs c) eqn:Hc; [|done].
    intros H. apply star_sound in H as (u & v & -> & Hu & Hk).
    exists v, g. split; [by constructor|done].
  - destruct (Re.run r s g k) as [g'|] eqn:Hr.
    + intros [= ->]. apply IH in Hr as (s' & g'' & Hs & Hk).
      exists s', g''. split; [by constructor|done].
    + intros Hk. exists s, g. split; [apply Re.sem_opt_none|done].
  - intros H. apply IH in H as (s' & g' & Hs & Hk).
    eexists _, _. split; [by constructor|done].
  - destruct (Re.at_end s) eqn:He; [|done].
    intros Hk. exists s, g. split; [by constructor|done].
Qed.

Lemma run_complete r s g s' g' :
  Re.sem r s g s' g' → ∀ k, is_Some (k s' g') → is_Some (Re.run r s g k).
Proof.
  induction 1 as [cs c s g Hc|r1 r2 s g s1 g1 s2 g2 _ IH1 _ IH2
                 |cs u s g Hu|cs c u s g Hc Hu|r s g s' g' _ IH|r s g
                 |n r s g s' g' _ IH|s g He]; intros k Hk; simpl.
  - by rewrite Hc.
  - apply IH1, IH2, Hk.
  - by apply star_complete.
  - rewrite Hc. by apply star_complete.
  - by destruct (IH k Hk) as [x ->].
  - by destruct (Re.run r s g k).
  - by apply IH.
  - by rewrite He.
Qed.

(** ** What [pattern] matches *)

(** [is_base] spelled out: a first letter, a middle part, a last letter. *)
Lemma is_base_parts (base : string) :
  is_base base = true ↔
  ∃ a mid z, list_ascii_of_string base = a :: mid ++ [z] ∧ is_letter a = true ∧
             forallb is_word mid = true ∧ is_letter z = true.
Proof.
  unfold is_base. split.
  - destruct (list_ascii_of_string base) as [|a [|c l]] eqn:E; [done..|].
    destruct (last (a :: c :: l)) as [z|] eqn:Hl; [|done].
    rewrite last_cons_cons in Hl. apply last_Some in Hl as [mid Hmid].
    rewrite Hmid. intros [[Ha Hz]%andb_true_iff Hw]%andb_true_iff.
    exists a, mid, z. repeat split; try done.
    simpl in Hw. apply andb_true_iff in Hw as [_ Hw].
    rewrite forallb_app in Hw. by apply andb_true_iff in Hw as [Hw _].
  - intros (a & mid & z & -> & Ha & Hmid & Hz). cbv zeta.
    destruct (mid ++ [z]) as [|c l] eqn:E; [by destruct mid|].
    rewrite last_cons_cons, <- E, last_snoc, Ha, Hz. simpl.
    rewrite (letter_is_word a Ha), forallb_app, Hmid. simpl.
    by rewrite (letter_is_word z Hz).
Qed.

Lemma word_run_of_letters (u : list ascii) :
  forallb (Re.mem letters) u = true → forallb is_word u = true.
Proof.
  induction u as [|c u IH]; simpl; [done|].
  intros [Hc Hu]%andb_true_iff. by rewrite (letter_is_word c Hc), IH.
Qed.

(** Inversion of [Re.sem], one lemma per construct. *)
Lemma sem_cls_inv cs s g s' g' :
  Re.sem (Re.Cls cs) s g s' g' → ∃ c, s = c :: s' ∧ Re.mem cs c = true ∧ g' = g.
Proof. inversion 1; eauto. Qed.

Lemma sem_cat_inv r1 r2 s g s2 g2 :
  Re.sem (Re.Cat r1 r2) s g s2 g2 →
  ∃ s1 g1, Re.sem r1 s g s1 g1 ∧ Re.sem r2 s1 g1 s2 g2.
Proof. inversion 1; eauto. Qed.

Lemma sem_star_inv cs s g s' g' :
  Re.sem (Re.Star cs) s g s' g' →
  ∃ u, s = u ++ s' ∧ forallb (Re.mem cs) u = true ∧ g' = g.
Proof. inversion 1; eauto. Qed.

Lemma sem_plus_inv cs s g s' g' :
  Re.sem (Re.Plus cs) s g s' g' →
  ∃ c u, s = c :: u ++ s' ∧ Re.mem cs c = true ∧ forallb (Re.mem cs) u = true ∧ g' = g.
Proof. inversion 1; subst; eauto 10. Qed.

Lemma sem_opt_inv r s g s' g' :
  Re.sem (Re.Opt r) s g s' g' → Re.sem r s g s' g' ∨ (s' = s ∧ g' = g).
Proof. inversion 1; eauto. Qed.

Lemma sem_group_inv n r s g s' g' :
  Re.sem (Re.Group n r) s g s' g' →
  ∃ g0, Re.sem r s g s' g0 ∧ g' = <[n := Re.taken s s']> g0.
Proof. inversion 1; eauto. Qed.

Lemma sem_dollar_inv s g s' g' :
  Re.sem Re.Dollar s g s' g' → s' = s ∧ g' = g ∧ Re.at_end s = true.
Proof. inversion 1; eauto. Qed.

(** A match of [pattern] splits the input into a base, digits and the end. *)
Lemma pattern_sem_inv (s s' : list ascii) (g' : Re.captures) :
  Re.sem pattern s ∅ s' g' →
  ∃ a mid z d,
    s = (a :: mid ++ [z]) ++ d ++ s' ∧
    is_letter a = true ∧ forallb is_word mid = true ∧ is_letter z = true ∧
    forallb is_digit d = true ∧ Re.at_end s' = true ∧
    g' !! 1%nat = Some (a :: mid ++ [z]) ∧
    g' !! 2%nat = (if decide (d = []) then None else Some d).
Proof.
  unfold pattern. intros H.
  apply sem_cat_inv in H as (s1 & g1 & H1 & H2).
  apply sem_group_inv in H1 as (g0 & H1 & ->).
  apply sem_cat_inv in H1 as (sa & ga & Ha & Hb).
  apply sem_plus_inv in Ha as (a & u & -> & Hla & Hu & ->).
  apply sem_cat_inv in Hb as (sb & gb & Hc & Hd).
  apply sem_star_inv in Hc as (w & -> & Hw & ->).
  apply sem_cls_inv in Hd as (z & -> & Hz & ->).
  apply sem_cat_inv in H2 as (s2 & g2 & H4 & H5).
  apply sem_dollar_inv in H5 as (-> & -> & He).
  assert (Re.taken (a :: u ++ w ++ z :: s1) s1 = a :: (u ++ w) ++ [z]) as Ht.
  { replace (a :: u ++ w ++ z :: s1) with ((a :: (u ++ w) ++ [z]) ++ s1)
      by (simpl; by rewrite <- !app_assoc).
    apply taken_app. }
  rewrite Ht in *.
  assert (forallb is_word (u ++ w) = true) as Hmid.
  { rewrite forallb_app, (word_run_of_letters u Hu). exact Hw. }
  apply sem_opt_inv in H4 as [H6|[-> ->]].
  - apply sem_group_inv in H6 as (gd & H7 & ->).
    apply sem_plus_inv in H7 as (c & d & -> & Hc & Hd & ->).
    exists a, (u ++ w), z, (c :: d).
    change (c :: d ++ s2) with ((c :: d) ++ s2). rewrite taken_app.
    repeat split; try done.
    + simpl. by rewrite <- !app_assoc.
    + simpl. unfold is_digit at 1. by rewrite Hc.
  - exists a, (u ++ w), z, []. repeat split; try done.
    simpl. by rewrite <- !app_assoc.
Qed.

(** Conversely a base, digits and an end can be matched that way. *)
Lemma pattern_sem_intro (a : ascii) (mid : list ascii) (z : ascii) (d t : list ascii) :
  is_letter a = true → forallb is_word mid = true → is_letter z = true →
  forallb is_digit d = true → Re.at_end t = true →
  ∃ g', Re.sem pattern ((a :: mid ++ [z]) ++ d ++ t) ∅ t g'.
Proof.
  intros Ha Hmid Hz Hd Ht. unfold pattern.
  assert ((a :: mid ++ [z]) ++ d ++ t = a :: [] ++ mid ++ z :: d ++ t) as ->.
  { simpl. by rewrite <- app_assoc. }
  assert (∃ g1, Re.sem (Re.Group 1 (Re.Cat (Re.Plus letters)
            (Re.Cat (Re.Star word_chars) (Re.Cls letters))))
            (a :: [] ++ mid ++ z :: d ++ t) ∅ (d ++ t) g1) as [g1 H1].
  { eexists. apply Re.sem_group. eapply Re.sem_cat.
    - apply (Re.sem_plus letters a [] _ _ Ha eq_refl).
    - eapply Re.sem_cat.
      + apply (Re.sem_star word_chars mid). exact Hmid.
      + apply Re.sem_cls. exact Hz. }
  destruct d as [|c d].
  - eexists. eapply Re.sem_cat; [exact H1|].
    eapply Re.sem_cat; [apply Re.sem_opt_none|]. by apply Re.sem_dollar.
  - simpl in Hd. apply andb_true_iff in Hd as [Hc Hd].
    eexists. eapply Re.sem_cat; [exact H1|].
    eapply Re.sem_cat; [|by apply Re.sem_dollar].
    apply Re.sem_opt_some, Re.sem_group.
    apply (Re.sem_plus digits c d t _ Hc Hd).
Qed.

(** ** A token has one decomposition only *)

Lemma split_unique (Q : ascii → bool) (p1 : list ascii) : ∀ z1 q1 p2 z2 q2,
  p1 ++ z1 :: q1 = p2 ++ z2 :: q2 →
  Q z1 = false → Q z2 = false → forallb Q q1 = true → forallb Q q2 = true →
  p1 = p2 ∧ z1 = z2 ∧ q1 = q2.
Proof.
  induction p1 as [|c p1 IH]; intros z1 q1 [|c2 p2] z2 q2; simpl.
  - by intros [= -> ->].
  - intros [= -> ->] Hz1 Hz2 Hq1 _. rewrite forallb_app in Hq1. simpl in Hq1.
    rewrite Hz2, andb_false_r in Hq1. done.
  - intros [= -> <-] Hz1 Hz2 _ Hq2. rewrite forallb_app in Hq2. simpl in Hq2.
    rewrite Hz1, andb_false_r in Hq2. done.
  - intros [= -> E] Hz1 Hz2 Hq1 Hq2.
    destruct (IH _ _ _ _ _ E Hz1 Hz2 Hq1 Hq2) as (-> & -> & ->). done.
Qed.

Lemma at_end_cases (t : list ascii) :
  Re.at_end t = true ↔ t = [] ∨ t = list_ascii_of_string nl.
Proof.
  destruct t as [|c [|c' t]]; simpl.
  - naive_solver.
  - split.
    + intros ->%Ascii.eqb_eq. by right.
    + by intros [?|[= ->]].
  - split; [done|by intros [?|?]].
Qed.

Lemma tail_unique (d1 t1 d2 t2 : list ascii) :
  d1 ++ t1 = d2 ++ t2 →
  forallb is_digit d1 = true → forallb is_digit d2 = true →
  Re.at_end t1 = true → Re.at_end t2 = true →
  d1 = d2 ∧ t1 = t2.
Proof.
  intros E H1 H2 [-> | ->]%at_end_cases [-> | ->]%at_end_cases.
  - rewrite !app_nil_r in E. done.
  - rewrite app_nil_r in E. subst d1. rewrite forallb_app in H1.
    by apply andb_true_iff in H1 as [_ ?].
  - rewrite app_nil_r in E. subst d2. rewrite forallb_app in H2.
    by apply andb_true_iff in H2 as [_ ?].
  - by apply app_inj_tail in E as [-> _].
Qed.

Lemma after_base_letter c : is_letter c = true → after_base c = false.
Proof.
  intros H. unfold after_base. by rewrite letter_not_digit, letter_not_newline.
Qed.

Lemma after_base_tail (d t : list ascii) :
  forallb is_digit d = true → Re.at_end t = true → forallb after_base (d ++ t) = true.
Proof.
  intros Hd Ht. rewrite forallb_app. apply andb_true_iff. split.
  - clear Ht. induction d as [|c d IH]; simpl in *; [done|].
    apply andb_true_iff in Hd as [Hc Hd]. unfold after_base at 1.
    by rewrite Hc, IH.
  - apply at_end_cases in Ht as [-> | ->]; done.
Qed.

Lemma parts_unique (a1 : ascii) (m1 : list ascii) (z1 : ascii) (d1 t1 : list ascii)
    (a2 : ascii) (m2 : list ascii) (z2 : ascii) (d2 t2 : list ascii) :
  (a1 :: m1 ++ [z1]) ++ d1 ++ t1 = (a2 :: m2 ++ [z2]) ++ d2 ++ t2 →
  is_letter z1 = true → is_letter z2 = true →
  forallb is_digit d1 = true → forallb is_digit d2 = true →
  Re.at_end t1 = true → Re.at_end t2 = true →
  a1 :: m1 ++ [z1] = a2 :: m2 ++ [z2] ∧ d1 = d2 ∧ t1 = t2.
Proof.
  intros E Hz1 Hz2 Hd1 Hd2 Ht1 Ht2.
  assert ((a1 :: m1) ++ z1 :: d1 ++ t1 = (a2 :: m2) ++ z2 :: d2 ++ t2) as E'.
  { simpl in *. by rewrite <- !app_assoc in E. }
  apply (split_unique after_base) in E' as (E1 & -> & E2);
    auto using after_base_letter, after_base_tail.
  apply tail_unique in E2 as [-> ->]; auto.
  split; [|done]. simpl in *. congruence.
Qed.

(** ** [re.match(pattern, tok)] in terms of the token's parts *)

Lemma group2_of_list (d : list ascii) :
  string_of_list_ascii <$> (if decide (d = []) then None else Some d)
  = group2_of (string_of_list_ascii d).
Proof.
  unfold group2_of. destruct d as [|c d]; [done|].
  rewrite decide_False by done. by rewrite decide_False.
Qed.

Lemma match_pattern_inv (tok : string) (m : Re.captures) :
  Re.match_ pattern tok = Some m →
  ∃ base digs, token_parts tok base digs ∧
               Re.group m 1 = Some base ∧ Re.group m 2 = group2_of digs.
Proof.
  unfold Re.match_. intros H.
  apply run_sound in H as (s' & g' & Hsem & [= ->]).
  apply pattern_sem_inv in Hsem as (a & mid & z & d & E & Ha & Hmid & Hz & Hd & He & G1 & G2).
  exists (string_of_list_ascii (a :: mid ++ [z])), (string_of_list_ascii d).
  split; [exists (string_of_list_ascii s'); split_and!|split].
  - apply list_of_inj.
    by rewrite !list_of_append, !list_ascii_of_string_of_list_ascii.
  - apply is_base_parts. exists a, mid, z.
    by rewrite list_ascii_of_string_of_list_ascii.
  - unfold is_digits. by rewrite list_ascii_of_string_of_list_ascii.
  - apply at_end_cases in He as [-> | ->]; [by left|right].
    apply string_of_list_ascii_of_string.
  - unfold Re.group. by rewrite G1.
  - unfold Re.group. rewrite G2. apply group2_of_list.
Qed.

Lemma token_parts_unique (tok base digs base' digs' : string) :
  token_parts tok base digs → token_parts tok base' digs' →
  base = base' ∧ digs = digs'.
Proof.
  intros (t & -> & (a & mid & z & Eb & _ & _ & Hz)%is_base_parts & Hd & Ht)
         (t' & E & (a' & mid' & z' & Eb' & _ & _ & Hz')%is_base_parts & Hd' & Ht').
  apply (f_equal list_ascii_of_string) in E.
  rewrite !list_of_append, Eb, Eb' in E.
  apply parts_unique in E as (E1 & E2 & _); try done.
  - rewrite <- Eb, <- Eb' in E1. by split; apply list_of_inj.
  - apply at_end_cases. destruct Ht as [-> | ->]; auto.
  - apply at_end_cases. destruct Ht' as [-> | ->]; auto.
Qed.

Lemma match_pattern_intro (tok base digs : string) :
  token_parts tok base digs →
  ∃ m, Re.match_ pattern tok = Some m ∧
       Re.group m 1 = Some base ∧ Re.group m 2 = group2_of digs.
Proof.
  intros Hparts.
  assert (is_Some (Re.match_ pattern tok)) as [m Hm].
  { destruct Hparts as (t & -> & (a & mid & z & Eb & Ha & Hmid & Hz)%is_base_parts & Hd & Ht).
    destruct (pattern_sem_intro a mid z (list_ascii_of_string digs)
                (list_ascii_of_string t) Ha Hmid Hz Hd) as [g' Hsem].
    { apply at_end_cases. destruct Ht as [-> | ->]; auto. }
    unfold Re.match_. rewrite !list_of_append, Eb.
    by apply (run_complete _ _ _ _ _ Hsem). }
  exists m. split; [done|].
  destruct (match_pattern_inv _ _ Hm) as (base' & digs' & Hparts' & G1 & G2).
  destruct (token_parts_unique _ _ _ _ _ Hparts Hparts') as [-> ->]. done.
Qed.

Lemma no_match_iff (tok : string) :
  Re.match_ pattern tok = None ↔ ¬ ∃ base digs, token_parts tok base digs.
Proof.
  split.
  - intros Hn (base & digs & (m & Hm & _)%match_pattern_intro). congruence.
  - intros Hn. destruct (Re.match_ pattern tok) as [m|] eqn:Hm; [|done].
    destruct Hn. apply match_pattern_inv in Hm as (base & digs & ? & _). eauto.
Qed.

Lemma is_base_nonempty (base : string) : is_base base = true → base ≠ "".
Proof. by intros H ->. Qed.

(** The result of [process_code] on a token that matches: the tuple, or
    the [ValueError] of [int] when the digits are more than it converts. *)
Lemma process_code_parts (tok base digs : string) (lc pc : list (option string)) :
  token_parts tok base digs →
  process_code tok lc pc =
    if decide (String.length digs ≤ max_str_digits)%nat then
      Ok (let in_line := bool_decide (Some base ∈ lc) in
          let in_point := bool_decide (Some base ∈ pc) in
          let pt := if in_point then Point else if in_line then Line else Unknown in
          let d := match group2_of digs with
                   | Some ds => Some (int_of_digits ds)
                   | None => if in_line then Some (-1) else None
                   end in
          if (in_line || in_point)%bool
          then ([MsgCode base d pt], (true, base, d, pt))
          else ([], (false, "sprl", Some 1, pt)))
    else Raise (ValueError digs).
Proof.
  intros Hparts.
  assert (base ≠ "") as Hne.
  { destruct Hparts as (? & _ & ? & _). by apply is_base_nonempty. }
  destruct (match_pattern_intro _ _ _ Hparts) as (m & Hm & G1 & G2).
  unfold process_code. rewrite Hm, G1, G2. cbn [default]. unfold id, group2_of, int_of_str.
  destruct (decide (digs = "")) as [->|Hd].
  - destruct (decide (String.length "" ≤ max_str_digits)%nat) as [_|Hn];
      [|destruct Hn; apply Nat.le_0_l].
    destruct (decide (Some base ∈ lc)) as [Hl|Hl], (decide (Some base ∈ pc)) as [Hp|Hp];
      cbn [rbind];
      rewrite (bool_decide_eq_true_2 _ Hne),
              ?(bool_decide_eq_true_2 _ Hl), ?(bool_decide_eq_false_2 _ Hl),
              ?(bool_decide_eq_true_2 _ Hp), ?(bool_decide_eq_false_2 _ Hp);
      reflexivity.
  - destruct (decide (String.length digs ≤ max_str_digits)%nat) as [Hlen|Hlen].
    + destruct (decide (Some base ∈ lc)) as [Hl|Hl], (decide (Some base ∈ pc)) as [Hp|Hp];
        cbn [rbind];
        rewrite (bool_decide_eq_true_2 _ Hne),
                ?(bool_decide_eq_true_2 _ Hl), ?(bool_decide_eq_false_2 _ Hl),
                ?(bool_decide_eq_true_2 _ Hp), ?(bool_decide_eq_false_2 _ Hp);
        reflexivity.
    + by destruct (decide (Some base ∈ lc)), (decide (Some base ∈ pc)).
Qed.

(** [process_code] on a token that the pattern rejects. *)
Lemma process_code_no_match (tok : string) (lc pc : list (option string)) :
  Re.match_ pattern tok = None →
  process_code tok lc pc = Ok ([MsgNoMatch], (false, "sprl", Some 1, Unknown)).
Proof. intros Hm. unfold process_code. by rewrite Hm. Qed.


Lemma process_code_raises (tok : string) (lc pc : list (option string)) (e : exn) :
  process_code tok lc pc = Raise e →
  ∃ base digs, token_parts tok base digs ∧ (max_str_digits < String.length digs)%nat ∧
               e = ValueError digs.
Proof.
  destruct (Re.match_ pattern tok) as [m|] eqn:Hm.
  - apply match_pattern_inv in Hm as (base & digs & Hparts & _).
    rewrite (process_code_parts _ _ _ _ _ Hparts).
    destruct (decide (String.length digs ≤ max_str_digits)%nat); [done|].
    intros [= <-]. exists base, digs. split_and!; [done|lia|done].
  - by rewrite process_code_no_match.
Qed.

(** ** Insertion-ordered dictionaries *)

Section ODFacts.
Context {K V : Type} `{EqDecision K}.
Implicit Types (d : list (K * V)) (k : K).

Lemma od_get_upd_eq k (f : V → V) dflt d :
  OD.get k (OD.upd k f dflt d) = Some (f (default dflt (OD.get k d))).
Proof.
  induction d as [|[k' v'] d IH]; simpl.
  - by rewrite decide_True.
  - destruct (decide (k = k')) as [->|Hne]; simpl.
    + by rewrite decide_True.
    + by rewrite decide_False.
Qed.

Lemma od_get_upd_ne k k' (f : V → V) dflt d :
  k ≠ k' → OD.get k' (OD.upd k f dflt d) = OD.get k' d.
Proof.
  intros Hne. induction d as [|[k0 v0] d IH]; simpl.
  - by rewrite decide_False.
  - destruct (decide (k = k0)) as [->|Hne0]; simpl.
    + by rewrite !decide_False.
    + destruct (decide (k' = k0)); [done|apply IH].
Qed.

Lemma od_get_set_eq k (v : V) d : OD.get k (OD.set k v d) = Some v.
Proof.
  induction d as [|[k' v'] d IH]; simpl.
  - by rewrite decide_True.
  - destruct (decide (k = k')) as [->|Hne]; simpl.
    + by rewrite decide_True.
    + by rewrite decide_False.
Qed.

Lemma od_get_set_ne k k' (v : V) d :
  k ≠ k' → OD.get k' (OD.set k v d) = OD.get k' d.
Proof.
  intros Hne. induction d as [|[k0 v0] d IH]; simpl.
  - by rewrite decide_False.
  - destruct (decide (k = k0)) as [->|Hne0]; simpl.
    + by rewrite !decide_False.
    + destruct (decide (k' = k0)); [done|apply IH].
Qed.
End ODFacts.

(** ** The survey index *)

Lemma pts_of_set_pts_eq pt c m : pts_of pt (set_pts pt c m) = c.
Proof. by destruct pt. Qed.

Lemma pts_of_set_pts_ne pt pt' c m : pt ≠ pt' → pts_of pt' (set_pts pt c m) = pts_of pt' m.
Proof. by destruct pt, pt'. Qed.

(** Appending a row changes its own bucket only, at the end. *)
Lemma bucket_index_append pt code sequence r m pt' code' sequence' :
  bucket (index_append pt code sequence r m) pt' code' sequence' =
    if decide ((pt, code, sequence) = (pt', code', sequence'))
    then bucket m pt code sequence ++ [r]
    else bucket m pt' code' sequence'.
Proof.
  unfold bucket, index_append.
  destruct (decide (pt = pt')) as [<-|Hpt].
  - rewrite pts_of_set_pts_eq.
    destruct (decide (code = code')) as [<-|Hcode].
    + rewrite od_get_upd_eq. simpl.
      destruct (decide (sequence = sequence')) as [<-|Hseq].
      * rewrite decide_True by done. rewrite od_get_upd_eq. simpl.
        by destruct (OD.get code (pts_of pt m)).
      * rewrite decide_False by congruence. rewrite od_get_upd_ne by done.
        by destruct (OD.get code (pts_of pt m)).
    + rewrite decide_False by congruence. by rewrite od_get_upd_ne.
  - rewrite decide_False by congruence. by rewrite pts_of_set_pts_ne.
Qed.

(** ** Running the ingester *)

Section SurveyFacts.
Context {F : FloatOps}.
Implicit Types (w : world F).

Lemma forM_print_run (out : list msg) w :
  forM out print w =
    (Ok tt, World (csv_files w) (xml_files w) (needed_pcodes w)
                  (stdout w ++ out) (doc w)).
Proof.
  revert w. induction out as [|m out IH]; intros w.
  - destruct w. unfold forM, foldM, ret. simpl. by rewrite app_nil_r.
  - unfold forM in *. simpl. unfold bind at 1. simpl. rewrite IH. simpl.
    by rewrite <- app_assoc.
Qed.

(** One row of the survey: a data row is classified, registered in
    [needed_pcodes] and appended to its bucket. *)
Lemma get_survey_row_run pc lc (m : all_pts) (row : list string) w :
  get_survey_row pc lc m row w =
    match row_code row with
    | Some tok =>
        match process_code tok lc pc with
        | Ok (out, (_, pcode, sequence, pt)) =>
            (Ok (index_append pt pcode sequence (make_row_dict row pcode sequence) m),
             World (csv_files w) (xml_files w)
                   (if decide (pcode ∈ needed_pcodes w) then needed_pcodes w
                    else needed_pcodes w ++ [pcode])
                   (stdout w ++ out) (doc w))
        | Raise e => (Raise e, w)
        end
    | None => (Ok m, w)
    end.
Proof.
  unfold get_survey_row. destruct (row_code row) as [tok|]; [|done].
  destruct (process_code tok lc pc) as [[out [[[success pcode] sequence] pt]]|e]; [|done].
  unfold bind, lift. rewrite forM_print_run. unfold get_needed. simpl.
  destruct (decide (pcode ∈ needed_pcodes w)); done.
Qed.

(** The loop over the rows does not touch the document, whether it
    returns or raises; when it returns, each bucket has received, in
    input order, the rows that classify to it. *)
Lemma get_survey_rows_run pc lc (rows : list (list string)) :
  ∀ (m : all_pts) w (r : result all_pts) w',
    foldM (get_survey_row pc lc) rows m w = (r, w') →
    doc w' = doc w ∧
    ∀ m', r = Ok m' →
      ∀ pt code sequence,
        bucket m' pt code sequence =
          bucket m pt code sequence ++
          ((λ row, make_row_dict row code sequence) <$>
             filter (λ row, row_key pc lc row = Some (pt, code, sequence)) rows).
Proof.
  induction rows as [|row rows IH]; intros m w r w'.
  - intros [= <- <-]. split; [done|]. intros m' [= <-] pt code sequence.
    by rewrite app_nil_r.
  - simpl. unfold bind. rewrite get_survey_row_run.
    destruct (row_code row) as [tok|] eqn:Hrow.
    + destruct (process_code tok lc pc) as [[out [[[success pcode] sequence] pt]]|e] eqn:Hpc.
      * assert (row_key pc lc row = Some (pt, pcode, sequence)) as Hk.
        { unfold row_key. by rewrite Hrow, Hpc. }
        intros Hrun. destruct (IH _ _ _ _ Hrun) as [Hdoc Hb].
        split; [by rewrite Hdoc|].
        intros m' Hr pt' code' sequence'.
        rewrite (Hb m' Hr), bucket_index_append, filter_cons, Hk.
        destruct (decide ((pt, pcode, sequence) = (pt', code', sequence')))
          as [[= <- <- <-]|Hne].
        -- rewrite decide_True by done. simpl. by rewrite <- app_assoc.
        -- rewrite decide_False by congruence. done.
      * by intros [= <- <-].
    + assert (row_key pc lc row = None) as Hk.
      { unfold row_key. by rewrite Hrow. }
      intros Hrun. destruct (IH _ _ _ _ Hrun) as [Hdoc Hb]. split; [done|].
      intros m' Hr pt' code' sequence'. rewrite (Hb m' Hr), filter_cons, Hk.
      by rewrite decide_False.
Qed.


(** The loop over the rows raises at the first row whose code carries
    more digits than [int] converts, and then it is [ValueError]. *)
Lemma get_survey_rows_raise pc lc (rows : list (list string)) :
  ∀ (m : all_pts) w (e : exn) w',
    foldM (get_survey_row pc lc) rows m w = (Raise e, w') →
    (∃ digs, e = ValueError digs) ∧ ¬ Forall within_int_limit rows.
Proof.
  induction rows as [|row rows IH]; intros m w e w'; [done|].
  simpl. unfold bind. rewrite get_survey_row_run.
  destruct (row_code row) as [tok|] eqn:Htok.
  - destruct (process_code tok lc pc) as [[out [[[success pcode] sequence] pt]]|e'] eqn:Hpc.
    + intros [He Hrows]%IH. split; [done|]. by intros [_ ?]%Forall_cons.
    + intros [= <- <-].
      apply process_code_raises in Hpc as (base & digs & Hparts & Hlen & ->).
      split; [by exists digs|]. intros [Hrow _]%Forall_cons.
      specialize (Hrow tok base digs Htok Hparts). lia.
  - intros [He Hrows]%IH. split; [done|]. by intros [_ ?]%Forall_cons.
Qed.
End SurveyFacts.

(** ** The classifier *)

Example process_code_kb3 :
  process_code "kb3" [Some "kb"] [] =
    Ok ([MsgCode "kb" (Some 3) Line], (true, "kb", Some 3, Line)).
Proof. reflexivity. Qed.

Example process_code_bb :
  process_code "bb" [] [Some "bb"] = Ok ([MsgCode "bb" None Point], (true, "bb", None, Point)).
Proof. reflexivity. Qed.

Example process_code_underscore :
  process_code "wmf_av7" [] [Some "wmf_av"] =
    Ok ([MsgCode "wmf_av" (Some 7) Point], (true, "wmf_av", Some 7, Point)).
Proof. reflexivity. Qed.

Example process_code_inner_digit :
  process_code "a1b2" [] [Some "a1b"] =
    Ok ([MsgCode "a1b" (Some 2) Point], (true, "a1b", Some 2, Point)).
Proof. reflexivity. Qed.

Example process_code_newline :
  process_code ("kb" +:+ nl) [Some "kb"] [Some "kb"] =
    Ok ([MsgCode "kb" (Some (-1)) Point], (true, "kb", Some (-1), Point)).
Proof. reflexivity. Qed.

Example process_code_digits_only :
  process_code "123" [Some "kb"] [] = Ok ([MsgNoMatch], (false, "sprl", Some 1, Unknown)).
Proof. reflexivity. Qed.

Example process_code_overlong :
  process_code ("kb" +:+ long_digit_run) [Some "kb"] [] = Raise (ValueError long_digit_run).
Proof. vm_compute. reflexivity. Qed.

Lemma token_parts_xyz123 : token_parts "xyz123" "xyz" "123".
Proof. exists "". split_and!; [reflexivity..|by left]. Qed.

Lemma token_parts_overlong : token_parts ("kb" +:+ long_digit_run) "kb" long_digit_run.
Proof.
  exists "". split_and!; [vm_compute; reflexivity|reflexivity|vm_compute; reflexivity|by left].
Qed.



(** C1, as stated, fails: for the token [xyz123], whose base code [xyz] is
    in neither table, the classifier returns the code [sprl], not [xyz];
    the row is stored under [Unknown]/[sprl] and [sprl] is what is added to
    the needed codes, while nothing is stored or registered under [xyz]. *)
Lemma C1_raw_base_code_is_discarded :
  token_parts "xyz123" "xyz" "123" ∧
  (Some "xyz" ∉ [Some "kb"]) ∧ (Some "xyz" ∉ [Some "bm"]) ∧
  process_code "xyz123" [Some "kb"] [Some "bm"] = Ok ([], (false, "sprl", Some 1, Unknown)) ∧
  code_of ([], (false, "sprl", Some 1, Unknown)) ≠ "xyz" ∧
  ∃ m w', get_survey_row (F := ZCoords) [Some "bm"] [Some "kb"] (AllPts [] [] [])
            ["2"; "101"; "201"; "10"; "xyz123"] (world_example CsvNotFound) = (Ok m, w') ∧
          OD.get "xyz" (unknown_pts m) = None ∧
          length (bucket m Unknown "sprl" (Some 1)) = 1%nat ∧
          needed_pcodes w' = ["sprl"].
Proof.
  split_and!; [exact token_parts_xyz123|compute_done|compute_done|reflexivity|compute_done|].
  eexists _, _. split_and!; reflexivity.
Qed.

(** C1, amended: a token of code points below 256 that matches the
    grammar, whose base code is in neither table and whose trailing digits
    are at most the 4300 that [int] converts, is classified [Unknown] with
    success flag false, the fixed code [sprl] and differentiator 1; the
    ingester appends the row, its [Point_code] overwritten with [sprl], to
    the bucket [Unknown]/[sprl]/1 and registers [sprl] in the needed codes
    unless it is there already. With more digits [process_code] raises the
    [ValueError] of [int], which the ingester does not catch: the row is
    not stored. *)
Theorem unknown_code_is_bucketed_as_sprl {F : FloatOps}
    (tok base digs : string) (lc pc : list (option string))
    (row : list string) (m : all_pts) (w : world F) :
  token_parts tok base digs → Some base ∉ lc → Some base ∉ pc →
  row_code row = Some tok →
  ((String.length digs ≤ max_str_digits)%nat →
   process_code tok lc pc = Ok ([], (false, "sprl", Some 1, Unknown)) ∧
   ∃ m' w',
     get_survey_row pc lc m row w = (Ok m', w') ∧
     bucket m' Unknown "sprl" (Some 1) =
       bucket m Unknown "sprl" (Some 1) ++ [make_row_dict row "sprl" (Some 1)] ∧
     cols (make_row_dict row "sprl" (Some 1)) !! "Point_code" = Some "sprl" ∧
     needed_pcodes w' =
       (if decide ("sprl" ∈ needed_pcodes w) then needed_pcodes w
        else needed_pcodes w ++ ["sprl"])) ∧
  ((max_str_digits < String.length digs)%nat →
   process_code tok lc pc = Raise (ValueError digs) ∧
   get_survey_row pc lc m row w = (Raise (ValueError digs), w)).
Proof.
  intros Hparts Hl Hp Hrow. split.
  - intros Hlen.
    assert (process_code tok lc pc = Ok ([], (false, "sprl", Some 1, Unknown))) as Hpc.
    { rewrite (process_code_parts _ _ _ _ _ Hparts), decide_True by done. simpl.
      by rewrite !bool_decide_eq_false_2. }
    split; [done|].
    eexists _, _. rewrite get_survey_row_run, Hrow, Hpc. split_and!; [reflexivity| | |done].
    + rewrite bucket_index_append. by rewrite decide_True.
    + unfold make_row_dict. simpl. rewrite lookup_insert_ne by done. apply lookup_insert_eq.
  - intros Hlen.
    assert (process_code tok lc pc = Raise (ValueError digs)) as Hpc.
    { rewrite (process_code_parts _ _ _ _ _ Hparts), decide_False by lia. done. }
    split; [done|]. by rewrite get_survey_row_run, Hrow, Hpc.
Qed.

Lemma unknown_code_is_bucketed_as_sprl_witness :
  process_code "xyz123" [Some "kb"] [Some "bm"] = Ok ([], (false, "sprl", Some 1, Unknown)).
Proof.
  apply (unknown_code_is_bucketed_as_sprl (F := ZCoords) "xyz123" "xyz" "123"
           [Some "kb"] [Some "bm"] ["2"; "101"; "201"; "10"; "xyz123"]
           (AllPts [] [] []) (world_example CsvNotFound)).
  - exists "". split_and!; [reflexivity..|by left].
  - compute_done.
  - compute_done.
  - reflexivity.
  - apply Nat.leb_le. reflexivity.
Defined.

(** C3, as stated, fails: [xyz123] carries the digits 123 and [xyz] none,
    yet with [xyz] in neither table the differentiator returned is 1 in
    both cases, neither 123 nor unset. *)
Lemma C3_unknown_differentiator_is_one :
  token_parts "xyz123" "xyz" "123" ∧ int_of_digits "123" = 123 ∧
  (∃ r, process_code "xyz123" [Some "kb"] [Some "bm"] = Ok r ∧
        type_of r = Unknown ∧ differentiator_of r = Some 1 ∧
        differentiator_of r ≠ Some 123) ∧
  token_parts "xyz" "xyz" "" ∧
  (∃ r, process_code "xyz" [Some "kb"] [Some "bm"] = Ok r ∧
        type_of r = Unknown ∧ differentiator_of r ≠ None).
Proof.
  split_and!.
  - exact token_parts_xyz123.
  - reflexivity.
  - eexists. split_and!; [reflexivity..|done].
  - exists "". split_and!; [reflexivity..|by left].
  - eexists. split_and!; [reflexivity..|done].
Qed.

(** C3, amended: for a token of code points below 256 that matches the
    grammar, with base code [base] and trailing digits [digs], at most the
    4300 that [int] converts:
    if the base code is in a table and there are digits, the differentiator
    is their integer value; without digits it is -1 when the token
    classifies as [Line], and unset when the base code is in the point
    table and not in the line table; if the base code is in neither table
    the token classifies as [Unknown] and the differentiator is 1, whatever
    the digits. With more than 4300 digits no differentiator is returned:
    [process_code] raises the [ValueError] of [int], whatever the tables. *)
Theorem differentiator_of_token (tok base digs : string) (lc pc : list (option string)) :
  token_parts tok base digs →
  ((String.length digs ≤ max_str_digits)%nat →
   ∃ r, process_code tok lc pc = Ok r ∧
     (Some base ∈ lc ∨ Some base ∈ pc → digs ≠ "" →
        differentiator_of r = Some (int_of_digits digs)) ∧
     (digs = "" → type_of r = Line → differentiator_of r = Some (-1)) ∧
     (digs = "" → Some base ∈ pc → Some base ∉ lc →
        type_of r = Point ∧ differentiator_of r = None) ∧
     (Some base ∉ lc → Some base ∉ pc →
        type_of r = Unknown ∧ differentiator_of r = Some 1)) ∧
  ((max_str_digits < String.length digs)%nat →
   process_code tok lc pc = Raise (ValueError digs)).
Proof.
  intros Hparts. rewrite (process_code_parts _ _ _ _ _ Hparts). split.
  - intros Hlen. rewrite decide_True by done. eexists. split; [reflexivity|].
    unfold differentiator_of, type_of, group2_of. split_and!.
    + intros Hin Hd. rewrite decide_False by done.
      destruct Hin as [Hin|Hin]; rewrite (bool_decide_eq_true_2 _ Hin); simpl.
      * done.
      * by rewrite orb_true_r.
    + intros -> Ht. simpl in *.
      destruct (bool_decide (Some base ∈ lc)), (bool_decide (Some base ∈ pc));
        simpl in *; done.
    + intros -> Hp Hl. simpl.
      by rewrite (bool_decide_eq_true_2 _ Hp), (bool_decide_eq_false_2 _ Hl).
    + intros Hl Hp. simpl.
      by rewrite (bool_decide_eq_false_2 _ Hp), (bool_decide_eq_false_2 _ Hl).
  - intros Hlen. by rewrite decide_False by lia.
Qed.

Lemma differentiator_of_token_witness :
  (∃ r, process_code "kb3" [Some "kb"] [Some "bm"] = Ok r ∧ differentiator_of r = Some 3) ∧
  (∃ r, process_code "xyz123" [Some "kb"] [Some "bm"] = Ok r ∧ differentiator_of r = Some 1) ∧
  process_code ("kb" +:+ long_digit_run) [Some "kb"] [Some "bm"]
    = Raise (ValueError long_digit_run).
Proof.
  split_and!.
  - destruct (proj1 (differentiator_of_token "kb3" "kb" "3" [Some "kb"] [Some "bm"]
                       (ex_intro _ "" (conj eq_refl (conj eq_refl (conj eq_refl
                          (or_introl eq_refl)))))))
      as (r & Hr & Hdigits & _).
    { apply Nat.leb_le. reflexivity. }
    exists r. split; [exact Hr|]. apply Hdigits; [left; compute_done|done].
  - destruct (proj1 (differentiator_of_token "xyz123" "xyz" "123" [Some "kb"] [Some "bm"]
                       token_parts_xyz123)) as (r & Hr & _ & _ & _ & Hunknown).
    { apply Nat.leb_le. reflexivity. }
    exists r. split; [exact Hr|]. apply Hunknown; compute_done.
  - apply (differentiator_of_token ("kb" +:+ long_digit_run) "kb" long_digit_run
             [Some "kb"] [Some "bm"] token_parts_overlong).
    apply Nat.ltb_lt. vm_compute. reflexivity.
Defined.

(** What the specification's grammar admits contains letters and digits
    only. *)
Lemma spec_grammar_alnum (tok : string) :
  spec_grammar tok → forallb is_alnum (list_ascii_of_string tok) = true.
Proof.
  intros (run & more & digs & -> & _ & Hrun & Hmore & Hdigs).
  rewrite !forallb_app. apply andb_true_iff. split; [|apply andb_true_iff; split].
  - clear -Hrun. induction run as [|c run IH]; simpl in *; [done|].
    apply andb_true_iff in Hrun as [Hc Hrun]. unfold is_alnum at 1.
    by rewrite Hc, IH.
  - by destruct Hmore as [->|[? _]].
  - clear -Hdigs. induction digs as [|c digs IH]; simpl in *; [done|].
    apply andb_true_iff in Hdigs as [Hc Hdigs]. unfold is_alnum at 1.
    by rewrite Hc, orb_true_r, IH.
Qed.

(** C5, as stated, fails in both directions: the single letter [a] is a run
    of letters, which the specification's grammar admits, and the pattern
    rejects it, since it asks for two characters at least; [a_b] is not
    made of letters and digits, and the pattern accepts it, since it allows
    underscores inside the base code. *)
Lemma C5_grammar_differs_from_pattern :
  (spec_grammar "a" ∧ Re.match_ pattern "a" = None) ∧
  (¬ spec_grammar "a_b" ∧
   process_code "a_b" [Some "a_b"] [] =
     Ok ([MsgCode "a_b" (Some (-1)) Line], (true, "a_b", Some (-1), Line))).
Proof.
  split_and!.
  - exists ["a"%char], [], []. split_and!; [reflexivity|done|reflexivity|by left|reflexivity].
  - reflexivity.
  - intros H%spec_grammar_alnum. vm_compute in H. done.
  - reflexivity.
Qed.

(** C5, amended: among the tokens of code points below 256, where [\d] is
    [0-9], a token is accepted by the classifier's pattern exactly when it
    is a base code of at least two characters that starts and ends with a
    letter and has letters, digits and underscores in between, followed by
    an optional run of digits and then by the end of the string or by one
    newline that ends it; every other such token is a miss:
    [process_code] prints a diagnostic and returns the success flag false
    with [sprl], 1 and [Unknown], and raises nothing. *)
Theorem pattern_accepts_token_parts (tok : string) (lc pc : list (option string)) :
  (is_Some (Re.match_ pattern tok) ↔ ∃ base digs, token_parts tok base digs) ∧
  ((¬ ∃ base digs, token_parts tok base digs) →
   process_code tok lc pc = Ok ([MsgNoMatch], (false, "sprl", Some 1, Unknown))).
Proof.
  split; [split|].
  - intros [m Hm]. apply match_pattern_inv in Hm as (base & digs & ? & _). eauto.
  - intros (base & digs & (m & Hm & _)%match_pattern_intro). eauto.
  - intros Hn%no_match_iff. by apply process_code_no_match.
Qed.

Lemma pattern_accepts_token_parts_witness :
  process_code "12" [Some "kb"] [Some "bm"]
    = Ok ([MsgNoMatch], (false, "sprl", Some 1, Unknown)) ∧
  is_Some (Re.match_ pattern "kb3").
Proof.
  split.
  - apply (pattern_accepts_token_parts "12" [Some "kb"] [Some "bm"]).
    apply no_match_iff. reflexivity.
  - apply (pattern_accepts_token_parts "kb3" [] []).
    exists "kb", "3", "". split_and!; [reflexivity..|by left].
Defined.

(** C6, as stated, fails: the code [a] is in both tables, yet the tokens
    [a] and [a3] classify as [Unknown], not as [Point], because the
    pattern asks for a base code of two characters at least; and the code
    [kb] is in both tables, yet for [kb] followed by 4301 digits no kind is
    returned, because [int] raises [ValueError] before the tables are
    consulted for the result. *)
Lemma C6_point_does_not_always_override :
  Some "a" ∈ [Some "a"] ∧
  process_code "a" [Some "a"] [Some "a"]
    = Ok ([MsgNoMatch], (false, "sprl", Some 1, Unknown)) ∧
  process_code "a3" [Some "a"] [Some "a"]
    = Ok ([MsgNoMatch], (false, "sprl", Some 1, Unknown)) ∧
  Some "kb" ∈ [Some "kb"] ∧
  process_code ("kb" +:+ long_digit_run) [Some "kb"] [Some "kb"]
    = Raise (ValueError long_digit_run).
Proof.
  split_and!; [compute_done|reflexivity|reflexivity|compute_done|vm_compute; reflexivity].
Qed.

(** C6, amended: a token of code points below 256 that has the shape the
    pattern accepts, whose base code is in the line-code table and in the
    point-code table and whose trailing digits are at most the 4300 that
    [int] converts, classifies as [Point] with that base code and success
    flag true, the membership test in [point_codes] being the later of the
    two. *)
Theorem point_overrides_line (tok base digs : string) (lc pc : list (option string)) :
  token_parts tok base digs → (String.length digs ≤ max_str_digits)%nat →
  Some base ∈ lc → Some base ∈ pc →
  ∃ r, process_code tok lc pc = Ok r ∧
       success_of r = true ∧ code_of r = base ∧ type_of r = Point.
Proof.
  intros Hparts Hlen Hl Hp.
  rewrite (process_code_parts _ _ _ _ _ Hparts), decide_True by done.
  eexists. split; [reflexivity|]. simpl.
  by rewrite (bool_decide_eq_true_2 _ Hl), (bool_decide_eq_true_2 _ Hp).
Qed.

Lemma point_overrides_line_witness :
  ∃ r, process_code "kb3" [Some "bm"; Some "kb"] [Some "kb"] = Ok r ∧
       success_of r = true ∧ code_of r = "kb" ∧ type_of r = Point.
Proof.
  apply (point_overrides_line "kb3" "kb" "3" [Some "bm"; Some "kb"] [Some "kb"]).
  - exists "". split_and!; [reflexivity..|by left].
  - apply Nat.leb_le. reflexivity.
  - compute_done.
  - compute_done.
Defined.

(** ** The ingester *)




(** ** Attribute columns *)

(** Induction two elements at a time, as [pairs] recurses. *)
Lemma pairs_ind (P : list string → Prop) :
  P [] → (∀ key, P [key]) → (∀ key value rest, P rest → P (key :: value :: rest)) →
  ∀ l, P l.
Proof.
  intros H0 H1 H2 l.
  assert (P l ∧ ∀ x, P (x :: l)) as [? _]; [|done].
  induction l as [|y l [IH1 IH2]]; split; auto.
Qed.

Lemma range2_cons (n : nat) (p : nat) :
  (λ i, 2 * i)%nat <$> seq p ((S (S n) + 1) / 2) =
  (2 * p)%nat :: ((λ i, 2 * i)%nat <$> seq (S p) ((n + 1) / 2)).
Proof.
  replace (S (S n) + 1)%nat with ((n + 1) + 1 * 2)%nat by lia.
  rewrite Nat.div_add by lia. rewrite Nat.add_1_r. reflexivity.
Qed.

(** The index loop of [get_survey], started after an even number of
    columns, reads the remaining columns in pairs. *)
Lemma attribute_loop (rest : list string) : ∀ (pre : list string) (p : nat) acc,
  length pre = (2 * p)%nat →
  fold_left
    (λ attributes_dict j,
       match (pre ++ rest) !! j with
       | Some key =>
           let value :=
             if decide (j + 1 < length (pre ++ rest))%nat
             then default "" ((pre ++ rest) !! (j + 1)%nat)
             else "" in
           OD.set key value attributes_dict
       | None => attributes_dict
       end)
    ((λ i, 2 * i)%nat <$> seq p ((length rest + 1) / 2)) acc =
  fold_left (λ d kv, OD.set kv.1 kv.2 d) (pairs rest) acc.
Proof.
  induction rest as [|key|key value rest IH] using pairs_ind; intros pre p acc Hpre.
  - reflexivity.
  - simpl. replace (p + (p + 0))%nat with (length pre) by lia.
    rewrite lookup_app_r, Nat.sub_diag by lia. simpl.
    rewrite decide_False; [done|]. rewrite length_app. simpl. lia.
  - simpl length. rewrite range2_cons. simpl fold_left.
    replace (p + (p + 0))%nat with (length pre) by lia.
    rewrite lookup_app_r, Nat.sub_diag by lia. simpl.
    rewrite decide_True by (rewrite length_app; simpl; lia).
    rewrite lookup_app_r by lia.
    replace (length pre + 1 - length pre)%nat with 1%nat by lia. simpl.
    specialize (IH (pre ++ [key; value]) (S p) (OD.set key value acc)).
    rewrite <- app_assoc in IH. simpl in IH. rewrite IH; [done|].
    rewrite length_app. simpl. lia.
Qed.

Lemma parse_attributes_pairs (attributes : list string) :
  parse_attributes attributes = dict_of_pairs (pairs attributes).
Proof. apply (attribute_loop attributes [] 0%nat []). reflexivity. Qed.

Lemma pairs_odd (attributes : list string) : ∀ key,
  Nat.Odd (length attributes) → last attributes = Some key →
  ∃ front, pairs attributes = front ++ [(key, "")].
Proof.
  induction attributes as [|k|k v rest IH] using pairs_ind; intros key Hodd Hlast.
  - done.
  - simplify_eq/=. by exists [].
  - simpl in Hodd. rewrite !last_cons in Hlast.
    destruct (last rest) as [z|] eqn:Hrest.
    + simplify_eq/=. destruct (IH key) as [front ->]; [|done|by exists ((k, v) :: front)].
      destruct Hodd as [n Hn]. exists (n - 1)%nat. lia.
    + apply last_None in Hrest as ->. destruct Hodd as [n Hn]. simpl in Hn. lia.
Qed.

(** C8: the dictionary stored for a data row holds an attribute mapping
    exactly when the row has more than five columns, and that mapping is
    the one obtained by reading the columns after the fifth two at a time,
    key then value; when their number is odd the last column is a key
    mapped to the empty string. *)
Theorem attributes_read_in_pairs (row : list string) (pcode : string)
    (sequence : option Z) :
  attrib_of (make_row_dict row pcode sequence) =
    (if decide (length row ≤ 5)%nat then None
     else Some (dict_of_pairs (pairs (drop 5 row)))) ∧
  (∀ key, Nat.Odd (length (drop 5 row)) → last (drop 5 row) = Some key →
     ∃ attrib, attrib_of (make_row_dict row pcode sequence) = Some attrib ∧
               OD.get key attrib = Some "").
Proof.
  unfold make_row_dict. simpl. split.
  - destruct (decide (5 < length row)%nat).
    + rewrite decide_False by lia. by rewrite parse_attributes_pairs.
    + by rewrite decide_True by lia.
  - intros key Hodd Hlast. rewrite decide_True.
    + eexists. split; [done|]. rewrite parse_attributes_pairs.
      destruct (pairs_odd _ _ Hodd Hlast) as [front ->].
      unfold dict_of_pairs. rewrite fold_left_app. simpl. apply od_get_set_eq.
    + destruct (drop 5 row) eqn:E; [done|].
      apply (f_equal length) in E. rewrite length_drop in E. simpl in E. lia.
Qed.

Lemma attributes_read_in_pairs_witness :
  ∃ attrib,
    attrib_of (make_row_dict
                 ["3"; "101"; "201"; "10"; "kb1"; "Diameter:"; "150"; "Material:"]
                 "kb" (Some 1)) = Some attrib ∧
    OD.get "Material:" attrib = Some "".
Proof.
  apply (attributes_read_in_pairs
           ["3"; "101"; "201"; "10"; "kb1"; "Diameter:"; "150"; "Material:"]
           "kb" (Some 1)).
  - exists 1%nat. reflexivity.
  - reflexivity.
Defined.

Example attributes_odd_count :
  parse_attributes ["Diameter:"; "150"; "Material:"]
  = [("Diameter:", "150"); ("Material:", "")].
Proof. reflexivity. Qed.

(** ** Layer resolution *)

Lemma get_layer_from_pcode_from (code_layer_map : code_layer_table)
    (pcode_list : list string) : ∀ start : gset string,
  (∀ pcode, pcode ∈ pcode_list → code_layer_map !! Some pcode ≠ Some None) →
  ∃ needed_layers,
    rfold (get_layer_from_pcode_step code_layer_map) pcode_list start = Ok needed_layers ∧
    ∀ layer, layer ∈ needed_layers ↔
      layer ∈ start ∨
      ∃ pcode, pcode ∈ pcode_list ∧
        (layer = chosen_layer code_layer_map pcode ∨
         layer = "attrib_" +:+ chosen_layer code_layer_map pcode ∨
         layer = "points_" +:+ chosen_layer code_layer_map pcode).
Proof.
  induction pcode_list as [|pcode l IH]; intros start Hmap.
  - exists start. split; [done|]. intros layer. split; [by left|].
    intros [?|(? & []%elem_of_nil & _)]. done.
  - assert (∃ next, get_layer_from_pcode_step code_layer_map start pcode = Ok next ∧
              ∀ layer, layer ∈ next ↔ layer ∈ start ∨
                layer = chosen_layer code_layer_map pcode ∨
                layer = "attrib_" +:+ chosen_layer code_layer_map pcode ∨
                layer = "points_" +:+ chosen_layer code_layer_map pcode)
      as (next & Hstep & Hnext).
    { unfold get_layer_from_pcode_step, chosen_layer.
      destruct (code_layer_map !! Some pcode) as [[layer'|]|] eqn:E.
      - eexists. split; [done|]. set_solver.
      - destruct (Hmap pcode); [by left|done].
      - eexists. split; [done|]. set_solver. }
    destruct (IH next) as (needed_layers & Hrun & Hin).
    { intros ? ?. apply Hmap. by right. }
    exists needed_layers. simpl. rewrite Hstep. simpl. split; [done|].
    intros layer. rewrite Hin, Hnext. split.
    + intros [[?|?]|(p & ? & ?)]; [by left| |].
      * right. exists pcode. split; [by left|done].
      * right. exists p. split; [by right|done].
    + intros [?|(p & [->|?]%elem_of_cons & ?)]; [by left; left|by left; right|].
      right. by exists p.
Qed.

(** C4, as stated, fails: with the needed codes [kb], mapped to [Kerb], and
    [xyz], not mapped, the resolved set contains both [Kerb] and [Spare],
    so for [kb] it does not contain exactly one of its mapped layer and
    [Spare]. *)
Lemma C4_mapped_layer_and_spare_together :
  ∃ needed_layers,
    get_layer_from_pcode ["kb"; "xyz"] {[Some "kb" := Some "Kerb"]} = Ok needed_layers ∧
    "Kerb" ∈ needed_layers ∧ "Spare" ∈ needed_layers.
Proof. eexists. split_and!; [reflexivity|compute_done..]. Qed.

(** C4, amended: for every list of needed codes and every code-to-layer map
    that gives a layer name to each needed code it has as a key, layer
    resolution returns a set without failing, unmapped codes included; the
    set consists of [Points] and, for each needed code, of the layer
    chosen for it - its mapped layer when the code is a key of the map,
    [Spare] otherwise - and of the two companions named by prefixing
    [attrib_] and [points_] to the chosen layer. The choice is one layer
    per code; [Spare] can be in the set next to a mapped code's layer
    because of another code. *)
Theorem needed_layers_resolved (pcode_list : list string)
    (code_layer_map : code_layer_table) :
  (∀ pcode, pcode ∈ pcode_list → code_layer_map !! Some pcode ≠ Some None) →
  ∃ needed_layers,
    get_layer_from_pcode pcode_list code_layer_map = Ok needed_layers ∧
    "Points" ∈ needed_layers ∧
    (∀ pcode, pcode ∈ pcode_list →
       (chosen_layer code_layer_map pcode =
          match code_layer_map !! Some pcode with
          | Some (Some layer) => layer
          | _ => "Spare"
          end) ∧
       chosen_layer code_layer_map pcode ∈ needed_layers ∧
       "attrib_" +:+ chosen_layer code_layer_map pcode ∈ needed_layers ∧
       "points_" +:+ chosen_layer code_layer_map pcode ∈ needed_layers) ∧
    (∀ layer, layer ∈ needed_layers →
       layer = "Points" ∨
       ∃ pcode, pcode ∈ pcode_list ∧
         (layer = chosen_layer code_layer_map pcode ∨
          layer = "attrib_" +:+ chosen_layer code_layer_map pcode ∨
          layer = "points_" +:+ chosen_layer code_layer_map pcode)).
Proof.
  intros Hmap. unfold get_layer_from_pcode.
  destruct (get_layer_from_pcode_from code_layer_map pcode_list {["Points"]} Hmap)
    as (needed_layers & Hrun & Hin).
  exists needed_layers. split_and!; [done| | |].
  - apply Hin. left. set_solver.
  - intros pcode Hp. split_and!; [done|apply Hin; right; exists pcode; auto..].
  - intros layer [?|?]%Hin; [left; set_solver|by right].
Qed.

Lemma needed_layers_resolved_witness :
  ∃ needed_layers,
    get_layer_from_pcode ["kb"; "xyz"] {[Some "kb" := Some "Kerb"]} = Ok needed_layers ∧
    "Points" ∈ needed_layers.
Proof.
  destruct (needed_layers_resolved ["kb"; "xyz"] {[Some "kb" := Some "Kerb"]})
    as (needed_layers & Hrun & Hpoints & _).
  - intros pcode Hp. apply (bool_decide_unpack _).
    apply elem_of_cons in Hp as [->|Hp]; [vm_compute; exact I|].
    apply elem_of_cons in Hp as [->|Hp]; [vm_compute; exact I|].
    by apply elem_of_nil in Hp.
  - exists needed_layers. split; [exact Hrun|exact Hpoints].
Defined.

(** ** The code tables *)

Lemma lookup_setdefault `{Countable K} {V} (k k' : K) (v : V) (d : gmap K V) :
  setdefault k v d !! k' =
    match d !! k' with
    | Some x => Some x
    | None => if decide (k = k') then Some v else None
    end.
Proof.
  unfold setdefault. destruct (d !! k) as [x|] eqn:E.
  - destruct (d !! k') eqn:E'; [done|].
    destruct (decide (k = k')) as [->|]; [congruence|done].
  - destruct (decide (k = k')) as [->|Hne].
    + by rewrite lookup_insert_eq, E.
    + rewrite lookup_insert_ne by done. by destruct (d !! k').
Qed.

(** Recording a point definition keeps the tables and the map in step. *)
Lemma tables_agree_point (c : option string) (a : gmap string string) pt ln m :
  tables_agree (pt, ln, m) →
  tables_agree (setdefault c a pt, ln, setdefault c (a !! "Layer") m).
Proof.
  intros [Hdom Hval]. split.
  - intros c'. rewrite !lookup_setdefault. specialize (Hdom c').
    destruct (m !! c') eqn:Em, (pt !! c') eqn:Ep, (decide (c = c'));
      rewrite ?is_Some_alt in *; naive_solver.
  - intros c' l. rewrite !lookup_setdefault. specialize (Hval c'). specialize (Hdom c').
    destruct (m !! c') as [l'|] eqn:Em.
    + intros [= ->]. destruct (Hval l eq_refl) as [(a' & Ha' & ?)|?]; [|by right].
      left. exists a'. by rewrite Ha'.
    + destruct (decide (c = c')) as [->|]; [|done]. intros [= <-].
      left. exists a. split; [|done].
      destruct (pt !! c') eqn:Ep; [|done].
      rewrite is_Some_alt in Hdom. naive_solver.
Qed.

Lemma tables_agree_line (c : option string) (a : gmap string string) pt ln m :
  tables_agree (pt, ln, m) →
  tables_agree (pt, setdefault c a ln, setdefault c (a !! "Layer") m).
Proof.
  intros [Hdom Hval]. split.
  - intros c'. rewrite !lookup_setdefault. specialize (Hdom c').
    destruct (m !! c') eqn:Em, (ln !! c') eqn:Ep, (decide (c = c'));
      rewrite ?is_Some_alt in *; naive_solver.
  - intros c' l. rewrite !lookup_setdefault. specialize (Hval c'). specialize (Hdom c').
    destruct (m !! c') as [l'|] eqn:Em.
    + intros [= ->]. destruct (Hval l eq_refl) as [?|(a' & Ha' & ?)]; [by left|].
      right. exists a'. by rewrite Ha'.
    + destruct (decide (c = c')) as [->|]; [|done]. intros [= <-].
      right. exists a. split; [|done].
      destruct (ln !! c') eqn:Ep; [|done].
      rewrite is_Some_alt in Hdom. naive_solver.
Qed.

Lemma tables_agree_gchild st gchild :
  tables_agree st → tables_agree (get_codes_gchild st gchild).
Proof.
  destruct st as [[pt ln] m]. intros H. unfold get_codes_gchild.
  destruct (contains _ (tag gchild)).
  - apply (tables_agree_point (attrib gchild !! "Code") (attrib gchild)) in H.
    destruct (contains _ (tag gchild)); [|done].
    by apply tables_agree_line.
  - destruct (contains _ (tag gchild)); [|done].
    by apply tables_agree_line.
Qed.

Lemma tables_agree_fold {A} (f : code_table * code_table * code_layer_table → A → _)
    (l : list A) :
  (∀ st x, tables_agree st → tables_agree (f st x)) →
  ∀ st, tables_agree st → tables_agree (fold_left f l st).
Proof. intros Hf. induction l as [|x l IH]; simpl; auto. Qed.

Lemma tables_agree_root (root : Element) : tables_agree (get_codes_root root).
Proof.
  unfold get_codes_root. apply tables_agree_fold.
  - intros st child Hst. unfold get_codes_child.
    destruct (contains _ (tag child)); [|done].
    by apply tables_agree_fold; [apply tables_agree_gchild|].
  - split.
    + intros c. rewrite !lookup_empty, !is_Some_alt. naive_solver.
    + intros c l. by rewrite lookup_empty.
Qed.

(** C9, as stated, fails: when [x] is declared as a line on the layer [L]
    and then as a point on the layer [P], the point table keeps [P] for
    [x], and the merged map keeps [L]. *)
Lemma C9_second_declaration_not_mapped :
  ∃ a,
    (get_codes_root library_twice).1.1 !! Some "x" = Some a ∧
    a !! "Layer" = Some "P" ∧
    (get_codes_root library_twice).2 !! Some "x" = Some (Some "L").
Proof. eexists. split_and!; [reflexivity|compute_done..]. Qed.

(** C9, amended: after [get_codes] returns, the keys of the merged map are
    the keys of the point table and of the line table; the value mapped to
    a code is the [Layer] attribute kept for it in the table that holds it
    when only one does, and one of the two when both hold it (the map keeps
    the first written, so the two can differ). *)
Theorem code_layer_map_of_tables {F : FloatOps} (w w' : world F) (file_path : string)
    (pt ln : code_table) (m : code_layer_table) :
  get_codes file_path w = (Ok (pt, ln, m), w') →
  ∀ code,
    (is_Some (m !! code) ↔ is_Some (pt !! code) ∨ is_Some (ln !! code)) ∧
    (∀ a, pt !! code = Some a → ln !! code = None → m !! code = Some (a !! "Layer")) ∧
    (∀ a, ln !! code = Some a → pt !! code = None → m !! code = Some (a !! "Layer")) ∧
    (∀ a b, pt !! code = Some a → ln !! code = Some b →
       m !! code = Some (a !! "Layer") ∨ m !! code = Some (b !! "Layer")).
Proof.
  unfold get_codes, bind, parse, ret.
  destruct (xml_files w file_path) as [e|root]; [done|].
  intros [= Hroot _]. pose proof (tables_agree_root root) as Hagree.
  rewrite Hroot in Hagree. destruct Hagree as [Hdom Hval].
  intros code. split_and!; [apply Hdom|..].
  - intros a Hp Hl. destruct (proj2 (Hdom code)) as [l Hm]; [left; eauto|].
    rewrite Hm. destruct (Hval _ _ Hm) as [(a' & ? & <-)|(a' & ? & _)]; congruence.
  - intros a Hl Hp. destruct (proj2 (Hdom code)) as [l Hm]; [right; eauto|].
    rewrite Hm. destruct (Hval _ _ Hm) as [(a' & ? & _)|(a' & ? & <-)]; congruence.
  - intros a b Hp Hl. destruct (proj2 (Hdom code)) as [l Hm]; [left; eauto|].
    rewrite Hm. destruct (Hval _ _ Hm) as [(a' & ? & <-)|(a' & ? & <-)].
    + left. congruence.
    + right. congruence.
Qed.

Lemma code_layer_map_of_tables_witness :
  ∃ m, (get_codes_root library_example).2 = m ∧ m !! Some "kb" = Some (Some "Kerb").
Proof.
  destruct (get_codes_root library_example) as [[pt ln] m] eqn:E.
  exists m. split; [reflexivity|].
  assert (ln !! Some "kb" = Some (list_to_map [("Code", "kb"); ("Layer", "Kerb")])) as Hl.
  { by injection E as <- <- <-. }
  assert (pt !! Some "kb" = None) as Hp.
  { by injection E as <- <- <-. }
  refine (proj1 (proj2 (proj2
    (code_layer_map_of_tables (world_example CsvNotFound) (world_example CsvNotFound)
       "library.fxl" pt ln m _ (Some "kb")))) _ Hl Hp).
  unfold get_codes, bind, parse, ret. simpl. by rewrite E.
Defined.

(** ** Computations that do not save *)

Create HintDb nosave.

Section NoSave.
Context {F : FloatOps}.
Local Open Scope M_scope.

Lemma no_save_ret {A} (a : A) : no_save (ret a).
Proof. by intros w r w' [= _ <-]. Qed.

Lemma no_save_raise {A} (e : exn) : no_save (raise (A := A) e).
Proof. by intros w r w' [= _ <-]. Qed.

Lemma no_save_lift {A} (x : result A) : no_save (lift x).
Proof. by intros w r w' [= _ <-]. Qed.

Lemma no_save_print (m : msg) : no_save (print m).
Proof. by intros w r w' [= _ <-]. Qed.

Lemma no_save_get_needed : no_save get_needed.
Proof. by intros w r w' [= _ <-]. Qed.

Lemma no_save_set_needed l : no_save (set_needed l).
Proof. by intros w r w' [= _ <-]. Qed.

Lemma no_save_emit (d : draw_call F) : (∀ path, d ≠ SaveAs path) → no_save (emit d).
Proof.
  intros Hd w r w' [= _ <-] [path Hin]. simpl in Hin.
  apply elem_of_app in Hin as [Hin|Hin%list_elem_of_singleton]; [by exists path|].
  by destruct (Hd path).
Qed.

Lemma no_save_bind {A B} (m : M A) (f : A → M B) :
  no_save m → (∀ a, no_save (f a)) → no_save (bind m f).
Proof.
  intros Hm Hf w r w'. unfold bind.
  destruct (m w) as [[a|e] w1] eqn:E.
  - intros Hfa Hs. eapply Hm; [exact E|]. eapply Hf; eauto.
  - intros [= <- <-] Hs. eapply Hm; eauto.
Qed.

Lemma no_save_foldM {A B} (f : B → A → M B) (l : list A) :
  (∀ b a, no_save (f b a)) → ∀ b, no_save (foldM f l b).
Proof.
  intros Hf. induction l as [|a l IH]; intros b; simpl.
  - apply no_save_ret.
  - apply no_save_bind; auto.
Qed.

Lemma no_save_forM {A} (l : list A) (f : A → M unit) :
  (∀ a, no_save (f a)) → no_save (forM l f).
Proof. intros Hf. apply no_save_foldM. auto. Qed.
End NoSave.

#[global] Hint Resolve no_save_ret no_save_raise no_save_lift no_save_print
  no_save_get_needed no_save_set_needed : nosave.
#[global] Hint Extern 1 (no_save (emit _)) =>
  (apply no_save_emit; intros ?; discriminate) : nosave.

(** Splits a sequence of steps and closes the steps that the hints know. *)
Ltac no_save_steps :=
  repeat first
    [ progress auto with nosave
    | apply no_save_bind; [|intros ?]
    | apply no_save_foldM; intros ? ?
    | apply no_save_forM; intros ?
    | match goal with
      | |- no_save (match ?x with _ => _ end) => destruct x
      | |- no_save (let '(_, _) := ?x in _) => destruct x
      end ].

Section NoSaveDrawing.
Context {F : FloatOps}.

Lemma no_save_get_float (point : row_dict) (key : string) : no_save (get_float point key).
Proof. unfold get_float. no_save_steps. Qed.

Lemma no_save_get_col (point : row_dict) (key : string) : no_save (get_col point key).
Proof. unfold get_col. no_save_steps. Qed.

Hint Resolve no_save_get_float no_save_get_col : nosave.

Lemma no_save_vertex (point : row_dict) : no_save (vertex point).
Proof. unfold vertex. no_save_steps. Qed.

Lemma no_save_add_attrib_text (point : row_dict) (point_code layer_name : string) :
  no_save (add_attrib_text point point_code layer_name).
Proof. unfold add_attrib_text. no_save_steps. Qed.

Hint Resolve no_save_vertex no_save_add_attrib_text : nosave.

Lemma no_save_subscript (survey : option all_pts) (key : point_type) :
  no_save (subscript survey key).
Proof. unfold subscript. no_save_steps. Qed.

Lemma no_save_draw_chains (announce : string → msg) (line_codes_dict : code_table)
    (group : code_map) :
  no_save (draw_chains announce line_codes_dict group).
Proof. unfold draw_chains. no_save_steps. Qed.

Lemma no_save_create_blocks : no_save create_blocks.
Proof. unfold create_blocks. no_save_steps. Qed.

Hint Resolve no_save_create_blocks : nosave.

Lemma no_save_create_dxf_setup (layers : layer_table) (needed_layers : gset string) :
  no_save (create_dxf_setup layers needed_layers).
Proof. unfold create_dxf_setup. no_save_steps. Qed.

Lemma no_save_set_dxf_view (survey_ref : option all_pts) : no_save (set_dxf_view survey_ref).
Proof.
  unfold set_dxf_view. apply no_save_bind; [apply no_save_subscript|intros lines].
  cbv zeta. apply no_save_bind.
  - apply no_save_foldM. intros st [point_code seqs].
    apply no_save_foldM. intros st' [sequence pts].
    apply no_save_foldM. intros [[[[count min_x] min_y] max_x] max_y] point.
    apply no_save_bind; [auto with nosave|intros x].
    apply no_save_bind; [auto with nosave|intros y].
    destruct (decide (count = 0)); apply no_save_ret.
  - intros [[[[count min_x] min_y] max_x] max_y]. no_save_steps.
Qed.

Lemma no_save_get_survey file_path pc lc : no_save (get_survey file_path pc lc).
Proof.
  intros w r w'. unfold get_survey.
  destruct (csv_files w file_path) as [| |rows].
  - by intros [= _ <-].
  - by intros [= _ <-].
  - unfold bind.
    destruct (foldM (get_survey_row pc lc) rows (AllPts [] [] []) w) as [[m|e] w1] eqn:Hrun;
      destruct (get_survey_rows_run _ _ _ _ _ _ _ Hrun) as [Hdoc _];
      intros [= _ <-] [path Hin]; exists path; by rewrite <- Hdoc.
Qed.

Lemma no_save_get_layers file_path : no_save (get_layers file_path).
Proof.
  unfold get_layers. apply no_save_bind; [|auto with nosave].
  intros w r w'. unfold parse. by destruct (xml_files w file_path); intros [= _ <-].
Qed.

Lemma no_save_get_codes file_path : no_save (get_codes file_path).
Proof.
  unfold get_codes. apply no_save_bind; [|auto with nosave].
  intros w r w'. unfold parse. by destruct (xml_files w file_path); intros [= _ <-].
Qed.
End NoSaveDrawing.

(** ** A survey file that cannot be read *)

Section MissingSurvey.
Context {F : FloatOps}.
Implicit Types (w : world F).

(** [get_survey] on a file that is missing or not readable: the error is
    caught, a line is printed, [None] is returned. *)
Lemma get_survey_unreadable w (file_path : string) (pc lc : list (option string)) :
  csv_files w file_path = CsvNotFound ∨ csv_files w file_path = CsvDenied →
  get_survey file_path pc lc w =
    (Ok None, World (csv_files w) (xml_files w) (needed_pcodes w)
                    (stdout w ++ [survey_diagnostic (csv_files w file_path) file_path])
                    (doc w)).
Proof. intros [H|H]; unfold get_survey; rewrite H; reflexivity. Qed.

(** The script body does not test the index for [None]: the view setup
    is called on it and raises. *)
Lemma main_unreadable_survey w (library survey output : string)
    (root : Element) (layers : layer_table) :
  xml_files w library = XmlRoot root →
  get_layers_root root = Ok layers →
  csv_files w survey = CsvNotFound ∨ csv_files w survey = CsvDenied →
  main library survey output w =
    (Raise (TypeError "'NoneType' object is not subscriptable"),
     World (csv_files w) (xml_files w) []
           (stdout w ++ [survey_diagnostic (csv_files w survey) survey]) (doc w)).
Proof.
  intros Hxml Hlayers Hcsv.
  unfold main, get_layers, get_codes, parse, set_needed, lift, ret, bind.
  repeat (cbn [xml_files]; rewrite ?Hxml, ?Hlayers; cbv beta iota).
  destruct (get_codes_root root) as [[pt ln] m].
  rewrite get_survey_unreadable by done. reflexivity.
Qed.
End MissingSurvey.

(** C2: on a survey file that is missing or not readable, [get_survey]
    catches the error, prints a diagnostic and returns [None]; the script
    then passes [None] to [set_dxf_view], which raises [TypeError] on
    [survey_ref['Line']]. Layer resolution and [create_dxf] are not
    reached and nothing is drawn or saved, but the view setup is invoked
    and the exception is not caught. *)
Theorem missing_survey_reaches_view_setup {F : FloatOps} (w : world F)
    (library survey output : string) (root : Element) (layers : layer_table) :
  xml_files w library = XmlRoot root →
  get_layers_root root = Ok layers →
  csv_files w survey = CsvNotFound ∨ csv_files w survey = CsvDenied →
  (∀ pc lc, get_survey survey pc lc w =
              (Ok None, World (csv_files w) (xml_files w) (needed_pcodes w)
                              (stdout w ++ [survey_diagnostic (csv_files w survey) survey])
                              (doc w))) ∧
  set_dxf_view None w = (Raise (TypeError "'NoneType' object is not subscriptable"), w) ∧
  main library survey output w =
    (Raise (TypeError "'NoneType' object is not subscriptable"),
     World (csv_files w) (xml_files w) []
           (stdout w ++ [survey_diagnostic (csv_files w survey) survey]) (doc w)).
Proof.
  intros Hxml Hlayers Hcsv. split_and!.
  - intros pc lc. by apply get_survey_unreadable.
  - reflexivity.
  - by eapply main_unreadable_survey.
Qed.

Lemma missing_survey_reaches_view_setup_witness :
  main "library.fxl" "survey.csv" "out.dxf" (world_example CsvNotFound) =
    (Raise (TypeError "'NoneType' object is not subscriptable"),
     World (csv_files (world_example CsvNotFound)) (xml_files (world_example CsvNotFound))
           [] [MsgSurveyNotFound "survey.csv"] []).
Proof.
  eapply (missing_survey_reaches_view_setup (world_example CsvNotFound)
            "library.fxl" "survey.csv" "out.dxf" library_example).
  - reflexivity.
  - reflexivity.
  - left. reflexivity.
Defined.

(** ** The Unknown group *)

(** A miss is always returned as [sprl] with differentiator 1. *)
Lemma process_code_unknown (tok : string) (lc pc : list (option string))
    (r : list msg * (bool * string * option Z * point_type)) :
  process_code tok lc pc = Ok r →
  type_of r = Unknown →
  code_of r = "sprl" ∧ differentiator_of r = Some 1.
Proof.
  destruct (Re.match_ pattern tok) as [m|] eqn:Hm.
  - apply match_pattern_inv in Hm as (base & digs & Hparts & _).
    rewrite (process_code_parts _ _ _ _ _ Hparts).
    destruct (decide (String.length digs ≤ max_str_digits)%nat); [|done].
    intros [= <-]. unfold type_of, code_of, differentiator_of. simpl.
    by destruct (bool_decide (Some base ∈ lc)), (bool_decide (Some base ∈ pc)).
  - rewrite process_code_no_match by done. by intros [= <-].
Qed.

Lemma od_upd_keys {K V} `{EqDecision K} (P : K → Prop) (k : K) (f : V → V) (dflt : V)
    (d : list (K * V)) :
  P k → Forall (λ kv, P kv.1) d → Forall (λ kv, P kv.1) (OD.upd k f dflt d).
Proof.
  intros Hk. induction 1 as [|[k' v'] d Hk' Hd IH]; simpl.
  - by repeat constructor.
  - destruct (decide (k = k')); constructor; auto.
Qed.

Section UnknownGroup.
Context {F : FloatOps}.
Implicit Types (w : world F).
Local Open Scope M_scope.

(** Every key of the Unknown group of an index built by [get_survey] is
    [sprl]. *)
Lemma get_survey_rows_unknown_keys pc lc (rows : list (list string)) :
  ∀ (m m' : all_pts) w w',
    foldM (get_survey_row pc lc) rows m w = (Ok m', w') →
    Forall (λ kv, kv.1 = "sprl") (unknown_pts m) →
    Forall (λ kv, kv.1 = "sprl") (unknown_pts m').
Proof.
  induction rows as [|row rows IH]; intros m m' w w'; simpl.
  - by intros [= <- _].
  - unfold bind. rewrite get_survey_row_run.
    destruct (row_code row) as [tok|]; [|by apply IH].
    pose proof (process_code_unknown tok lc pc) as Hunk.
    destruct (process_code tok lc pc) as [[out [[[success pcode] sequence] pt]]|e];
      [|done].
    intros Hrun Hm. eapply IH; [exact Hrun|].
    unfold index_append. destruct pt; simpl; [done..|].
    apply (od_upd_keys (λ k, k = "sprl")); [|done]. by destruct (Hunk _ eq_refl eq_refl).
Qed.

Lemma get_survey_unknown_head (file_path : string) (pc lc : list (option string))
    w (m : all_pts) w' :
  get_survey file_path pc lc w = (Ok (Some m), w') →
  unknown_pts m ≠ [] →
  ∃ seqs rest, unknown_pts m = ("sprl", seqs) :: rest.
Proof.
  unfold get_survey. destruct (csv_files w file_path) as [| |rows]; [done..|].
  unfold bind. destruct (foldM _ rows _ w) as [[m1|e] w1] eqn:Hrun; [|done].
  intros [= -> _] Hne.
  apply get_survey_rows_unknown_keys in Hrun; [|constructor].
  destruct (unknown_pts m) as [|[key seqs] rest]; [done|].
  apply Forall_cons in Hrun as [Hkey _]. simpl in Hkey. subst key. eauto.
Qed.

Lemma before_unknown_no_save (layers : layer_table) (survey : option all_pts)
    (lcd : code_table) (needed_layers : gset string) :
  no_save (before_unknown layers survey lcd needed_layers).
Proof.
  unfold before_unknown.
  apply no_save_bind; [apply no_save_create_dxf_setup|intros _].
  apply no_save_bind; [apply no_save_subscript|intros lines].
  apply no_save_draw_chains.
Qed.

(** [create_dxf] is [before_unknown] followed by the rest. *)
Lemma create_dxf_split (output : string) (layers : layer_table)
    (survey : option all_pts) (pcd lcd : code_table) (needed_layers : gset string) w :
  create_dxf output layers survey pcd lcd needed_layers w =
    match before_unknown layers survey lcd needed_layers w with
    | (Ok _, w1) =>
        (unknowns <- subscript survey Unknown ;;
         draw_chains MsgUnknownCode lcd unknowns ;;
         points <- subscript survey Point ;;
         draw_points pcd points ;;
         emit (SaveAs output)) w1
    | (Raise e, w1) => (Raise e, w1)
    end.
Proof.
  unfold create_dxf, before_unknown, bind.
  destruct (create_dxf_setup layers needed_layers w) as [[[]|e] w1]; [|done].
  destruct (subscript survey Line w1) as [[lines|e] w2]; [|done].
  by destruct (draw_chains MsgPointCode lcd lines w2) as [[[]|e] w3].
Qed.

(** With a key of the Unknown group that is not a line code, the loop
    over the group stops at the first lookup: [create_dxf] raises and
    does not save; when the steps before the loop complete, the
    exception is the [KeyError] for that key and the loop has only
    printed its first line. *)
Lemma create_dxf_unknown_run (output : string) (layers : layer_table) (m : all_pts)
    (pcd lcd : code_table) (needed_layers : gset string) w
    (key : string) (seqs : seq_map) (rest : code_map) :
  unknown_pts m = (key, seqs) :: rest →
  lcd !! Some key = None →
  ∃ e w',
    create_dxf output layers (Some m) pcd lcd needed_layers w = (Raise e, w') ∧
    (saves w' → saves w) ∧
    (∀ w1, before_unknown layers (Some m) lcd needed_layers w = (Ok tt, w1) →
           e = KeyError key ∧
           w' = World (csv_files w1) (xml_files w1) (needed_pcodes w1)
                      (stdout w1 ++ [MsgUnknownCode key]) (doc w1)).
Proof.
  intros Hunk Hkey. rewrite create_dxf_split.
  pose proof (before_unknown_no_save layers (Some m) lcd needed_layers w) as Hquiet.
  destruct (before_unknown layers (Some m) lcd needed_layers w) as [[[]|e] w1] eqn:Hpre.
  - exists (KeyError key). eexists. split_and!.
    + unfold bind, subscript, ret. simpl. rewrite Hunk.
      unfold draw_chains, forM. simpl. unfold bind, print, lift, layer_of. simpl.
      rewrite Hkey. reflexivity.
    + intros [path Hs]. apply (Hquiet (Ok tt) w1 eq_refl). by exists path.
    + by intros ? [= <-].
  - exists e, w1. split_and!; [done|by apply (Hquiet (Raise e) w1 eq_refl)|done].
Qed.
End UnknownGroup.

Section UnknownRows.
Context {F : FloatOps}.
Implicit Types (w : world F).

(** A row that classifies as [Unknown] leaves the Unknown group of the
    index non-empty. *)
Lemma survey_unknown_nonempty (pc lc : list (option string))
    (rows : list (list string)) (m : all_pts) w w' :
  foldM (get_survey_row pc lc) rows (AllPts [] [] []) w = (Ok m, w') →
  (∃ row code sequence,
     row ∈ rows ∧ row_key pc lc row = Some (Unknown, code, sequence)) →
  unknown_pts m ≠ [].
Proof.
  intros Hrun (row & code & sequence & Hin & Hkey) Hnil.
  destruct (get_survey_rows_run _ _ _ _ _ _ _ Hrun) as [_ Hb].
  specialize (Hb m eq_refl Unknown code sequence).
  unfold bucket in Hb at 1. simpl in Hb. rewrite Hnil in Hb. simpl in Hb.
  assert (row ∈ filter (λ row, row_key pc lc row = Some (Unknown, code, sequence)) rows)
    as Hf by by apply list_elem_of_filter.
  destruct (filter _ rows); [by apply elem_of_nil in Hf|done].
Qed.

(** The script on a survey with a row that classifies as [Unknown], when
    the library has no line code [sprl]: it raises, and does not save. *)
Lemma main_unknown_row (w w' : world F) (library survey output : string)
    (root : Element) (rows : list (list string)) (r : result unit) :
  xml_files w library = XmlRoot root →
  csv_files w survey = CsvRows rows →
  (∃ row code sequence,
     row ∈ rows ∧
     row_key (keys (get_codes_root root).1.1) (keys (get_codes_root root).1.2) row
     = Some (Unknown, code, sequence)) →
  (get_codes_root root).1.2 !! Some "sprl" = None →
  main library survey output w = (r, w') →
  (∃ e, r = Raise e) ∧ (saves w' → saves w).
Proof.
  intros Hxml Hcsv Hrow Hsprl.
  unfold main, get_layers, get_codes, parse, set_needed, lift, ret, get_needed, bind.
  repeat (cbn [xml_files]; rewrite ?Hxml; cbv beta iota).
  destruct (get_layers_root root) as [layers|e].
  2:{ intros [= <- <-]. split; [eauto|]. by intros [path Hs]; exists path. }
  destruct (get_codes_root root) as [[pt ln] cm]. simpl in Hrow, Hsprl.
  set (w1 := World (csv_files w) (xml_files w) [] (stdout w) (doc w)).
  assert (saves w1 → saves w) as Hw1 by (by intros [path Hs]; exists path).
  destruct (get_survey survey (keys pt) (keys ln) w1) as [[survey_ref|e] w2] eqn:Hsurvey.
  2:{ intros [= <- <-]. split; [eauto|].
      intros Hs. by apply Hw1, (no_save_get_survey _ _ _ _ _ _ Hsurvey). }
  assert (saves w2 → saves w) as Hw2.
  { intros Hs. by apply Hw1, (no_save_get_survey _ _ _ _ _ _ Hsurvey). }
  assert (∃ m seqs rest, survey_ref = Some m ∧ unknown_pts m = ("sprl", seqs) :: rest)
    as (m & seqs & rest & -> & Hunk).
  { pose proof Hsurvey as Hs. unfold get_survey in Hs. simpl in Hs. rewrite Hcsv in Hs.
    unfold bind in Hs.
    destruct (foldM _ rows _ w1) as [[m|e] w3] eqn:Hfold; [|done].
    injection Hs as <- <-.
    destruct (get_survey_unknown_head _ _ _ _ _ _ Hsurvey) as (seqs & rest & Hunk).
    { by eapply survey_unknown_nonempty. }
    eauto. }
  destruct (set_dxf_view (Some m) w2) as [[[]|e] w3] eqn:Hview.
  2:{ intros [= <- <-]. split; [eauto|].
      intros Hs. by apply Hw2, (no_save_set_dxf_view _ _ _ _ Hview). }
  assert (saves w3 → saves w) as Hw3.
  { intros Hs. by apply Hw2, (no_save_set_dxf_view _ _ _ _ Hview). }
  destruct (get_layer_from_pcode (needed_pcodes w3) cm) as [needed_layers|e].
  2:{ intros [= <- <-]. split; [eauto|done]. }
  destruct (create_dxf_unknown_run output layers m pt ln needed_layers w3 _ _ _ Hunk Hsprl)
    as (e & w4 & -> & Hs & _).
  intros [= <- <-]. split; [eauto|]. auto.
Qed.
End UnknownRows.

(** C10, as stated, fails: this survey has a row in the Unknown group and
    the library has no line code [sprl], yet [create_dxf] does not raise
    the [KeyError] for [sprl]: the attribute key [Diameter] of the first
    row has no colon, and drawing the Line group raises [IndexError] before
    the Unknown group is reached. *)
Lemma C10_earlier_exception :
  ∃ m w1,
    get_survey (F := ZCoords) "survey.csv" [Some "bm"] [Some "kb"]
      (world_example (CsvRows survey_rows_no_colon)) = (Ok (Some m), w1) ∧
    unknown_pts m ≠ [] ∧
    (get_codes_root library_example).1.2 !! Some "sprl" = None ∧
    (create_dxf "out.dxf" ∅ (Some m) (get_codes_root library_example).1.1
       (get_codes_root library_example).1.2 {["Points"]} w1).1 = Raise IndexError ∧
    (main "library.fxl" "survey.csv" "out.dxf"
       (world_example (CsvRows survey_rows_no_colon))).1 = Raise IndexError.
Proof.
  eexists _, _.
  split_and!; [reflexivity|done|compute_done|vm_compute; reflexivity..].
Qed.

(** C10, amended: for a survey whose index, as built by [get_survey], has a
    non-empty Unknown group, and a line-code table without the key [sprl],
    [create_dxf] raises and never reaches [doc.saveas]; when the steps
    before the Unknown group (header, blocks, layers and the Line group)
    complete, the exception is the [KeyError] for [sprl], raised at the
    lookup in the line-code table after the group's first line has been
    printed and before anything is drawn for the group; otherwise it is the
    exception of the earlier step. Hence the script, run on a survey with a
    row that classifies as [Unknown] and a library without a line code
    [sprl], raises and writes no output file. *)
Theorem unknown_group_stops_create_dxf {F : FloatOps} :
  (∀ (w0 w1 w : world F) (file_path : string) (pc lc : list (option string))
     (m : all_pts) (output : string) (layers : layer_table) (pcd lcd : code_table)
     (needed_layers : gset string),
     get_survey file_path pc lc w0 = (Ok (Some m), w1) →
     unknown_pts m ≠ [] →
     lcd !! Some "sprl" = None →
     ∃ e w',
       create_dxf output layers (Some m) pcd lcd needed_layers w = (Raise e, w') ∧
       (saves w' → saves w) ∧
       (∀ w2, before_unknown layers (Some m) lcd needed_layers w = (Ok tt, w2) →
              e = KeyError "sprl" ∧
              doc w' = doc w2 ∧ stdout w' = stdout w2 ++ [MsgUnknownCode "sprl"])) ∧
  (∀ (w w' : world F) (library survey output : string) (root : Element)
     (rows : list (list string)) (r : result unit),
     xml_files w library = XmlRoot root →
     csv_files w survey = CsvRows rows →
     (∃ row code sequence,
        row ∈ rows ∧
        row_key (keys (get_codes_root root).1.1) (keys (get_codes_root root).1.2) row
        = Some (Unknown, code, sequence)) →
     (get_codes_root root).1.2 !! Some "sprl" = None →
     main library survey output w = (r, w') →
     (∃ e, r = Raise e) ∧ (saves w' → saves w)).
Proof.
  split.
  - intros w0 w1 w file_path pc lc m output layers pcd lcd needed_layers Hsurvey Hne Hsprl.
    destruct (get_survey_unknown_head _ _ _ _ _ _ Hsurvey Hne) as (seqs & rest & Hunk).
    destruct (create_dxf_unknown_run output layers m pcd lcd needed_layers w _ _ _ Hunk Hsprl)
      as (e & w' & Hrun & Hs & Hpre).
    exists e, w'. split_and!; [done..|].
    intros w2 [-> ->]%Hpre. done.
  - intros. by eapply main_unknown_row.
Qed.

Lemma unknown_group_stops_create_dxf_witness :
  (∃ m w1 e w',
     get_survey (F := ZCoords) "survey.csv" [Some "bm"] [Some "kb"]
       (world_example (CsvRows survey_rows_unknown)) = (Ok (Some m), w1) ∧
     create_dxf "out.dxf" ∅ (Some m) ∅ {[Some "kb" := {["Layer" := "Kerb"]}]}
       {["Points"]} w1 = (Raise e, w')) ∧
  (∃ e, (main "library.fxl" "survey.csv" "out.dxf"
           (world_example (CsvRows survey_rows_unknown))).1 = Raise e).
Proof.
  split.
  - assert (∃ m w1,
              get_survey (F := ZCoords) "survey.csv" [Some "bm"] [Some "kb"]
                (world_example (CsvRows survey_rows_unknown)) = (Ok (Some m), w1) ∧
              unknown_pts m ≠ []) as (m & w1 & Hsurvey & Hne).
    { eexists _, _. split; [reflexivity|done]. }
    destruct (proj1 (unknown_group_stops_create_dxf (F := ZCoords))
                (world_example (CsvRows survey_rows_unknown)) w1 w1 "survey.csv"
                [Some "bm"] [Some "kb"] m "out.dxf" ∅ ∅
                {[Some "kb" := {["Layer" := "Kerb"]}]} {["Points"]} Hsurvey Hne)
      as (e & w' & Hrun & _).
    { apply (bool_decide_unpack _). vm_compute. exact I. }
    exists m, w1, e, w'. split; [exact Hsurvey|exact Hrun].
  - destruct (main "library.fxl" "survey.csv" "out.dxf"
                (world_example (CsvRows survey_rows_unknown))) as [r w'] eqn:Hmain.
    refine (proj1 (proj2 (unknown_group_stops_create_dxf (F := ZCoords))
              (world_example (CsvRows survey_rows_unknown)) w'
              "library.fxl" "survey.csv" "out.dxf" library_example survey_rows_unknown r
              eq_refl eq_refl _ _ Hmain)).
    + exists ["2"; "101"; "201"; "10"; "xyz123"], "sprl", (Some 1).
      split; [|vm_compute; reflexivity].
      apply (bool_decide_unpack _). vm_compute. exact I.
    + apply (bool_decide_unpack _). vm_compute. exact I.
Defined.

(** * Further properties of the code *)

(** ** What [process_code] returns *)

(** X1: [process_code] has three outcomes. Either it succeeds: the flag
    is true, the kind is [Line] or [Point], the code returned is in one of
    the two tables and is the base code of the token; or it fails: the flag
    is false and the result is [sprl], 1 and [Unknown]; or the token has
    the shape that the pattern accepts with more digits than [int]
    converts, and [process_code] raises [ValueError], having printed
    nothing. *)
Theorem process_code_outcomes (tok : string) (lc pc : list (option string)) :
  (∃ r, process_code tok lc pc = Ok r ∧
        success_of r = true ∧ type_of r ≠ Unknown ∧
        (Some (code_of r) ∈ lc ∨ Some (code_of r) ∈ pc) ∧
        ∃ digs, token_parts tok (code_of r) digs) ∨
  (∃ out, process_code tok lc pc = Ok (out, (false, "sprl", Some 1, Unknown))) ∨
  (∃ base digs, token_parts tok base digs ∧
                (max_str_digits < String.length digs)%nat ∧
                process_code tok lc pc = Raise (ValueError digs)).
Proof.
  destruct (Re.match_ pattern tok) as [m|] eqn:Hm.
  - apply match_pattern_inv in Hm as (base & digs & Hparts & _).
    rewrite (process_code_parts _ _ _ _ _ Hparts).
    destruct (decide (String.length digs ≤ max_str_digits)%nat) as [Hlen|Hlen].
    + unfold success_of, type_of, code_of.
      destruct (decide (Some base ∈ lc)) as [Hl|Hl], (decide (Some base ∈ pc)) as [Hp|Hp];
        rewrite ?(bool_decide_eq_true_2 _ Hl), ?(bool_decide_eq_false_2 _ Hl),
                ?(bool_decide_eq_true_2 _ Hp), ?(bool_decide_eq_false_2 _ Hp); simpl;
        [left; eexists; split; [reflexivity|]; simpl; split_and!; eauto..|].
      right. left. eauto.
    + right. right. exists base, digs. split_and!; [done|lia|done].
  - right. left. rewrite process_code_no_match by done. eauto.
Qed.

Lemma digit_value_range (c : ascii) : is_digit c = true → 0 ≤ digit_value c ≤ 9.
Proof. destruct c as [[] [] [] [] [] [] [] []]; vm_compute; intuition congruence. Qed.

Lemma int_of_digits_from (l : list ascii) : ∀ acc,
  forallb is_digit l = true → 0 ≤ acc →
  0 ≤ fold_left (λ acc c, 10 * acc + digit_value c) l acc.
Proof.
  induction l as [|c l IH]; intros acc; simpl; [done|].
  intros [Hc Hl]%andb_true_iff Hacc. apply IH; [done|].
  pose proof (digit_value_range c Hc). lia.
Qed.

Lemma int_of_digits_nonneg (digs : string) : is_digits digs = true → 0 ≤ int_of_digits digs.
Proof. intros H. by apply int_of_digits_from. Qed.

(** X2: the differentiator that [process_code] returns is an integer not
    below -1, or it is unset, which happens for the kind [Point] only. *)
Theorem differentiator_range (tok : string) (lc pc : list (option string))
    (r : list msg * (bool * string * option Z * point_type)) :
  process_code tok lc pc = Ok r →
  match differentiator_of r with
  | Some z => -1 ≤ z
  | None => type_of r = Point
  end.
Proof.
  destruct (Re.match_ pattern tok) as [m|] eqn:Hm.
  - apply match_pattern_inv in Hm as (base & digs & Hparts & _).
    rewrite (process_code_parts _ _ _ _ _ Hparts).
    destruct (decide (String.length digs ≤ max_str_digits)%nat); [|done].
    intros [= <-].
    assert (0 ≤ int_of_digits digs) as Hd.
    { destruct Hparts as (? & _ & _ & ? & _). by apply int_of_digits_nonneg. }
    unfold differentiator_of, type_of, group2_of.
    destruct (decide (digs = "")), (bool_decide (Some base ∈ lc)),
             (bool_decide (Some base ∈ pc)); simpl; lia || done.
  - rewrite process_code_no_match by done. intros [= <-]. simpl. lia.
Qed.

Lemma differentiator_range_witness :
  process_code "kb3" [Some "kb"] [] =
    Ok ([MsgCode "kb" (Some 3) Line], (true, "kb", Some 3, Line)) ∧
  -1 ≤ 3.
Proof.
  split; [reflexivity|].
  exact (differentiator_range "kb3" [Some "kb"] []
           ([MsgCode "kb" (Some 3) Line], (true, "kb", Some 3, Line)) eq_refl).
Defined.

Lemma append_empty_r (s : string) : s +:+ "" = s.
Proof.
  induction s as [|c s IH]; [done|].
  change (String c s +:+ "") with (String c (s +:+ "")). by rewrite IH.
Qed.

(** X3: the kind of a token that matches, with no more digits than
    [int] converts, is decided by its base code alone: [Point] when the
    base code is in the point table, [Line] when it is in the line table
    and not in the point table, [Unknown] otherwise; the digits and a final
    newline play no part, so the token and its bare base code get the same
    kind and success flag. *)
Theorem kind_of_base_code (tok base digs : string) (lc pc : list (option string)) :
  token_parts tok base digs → (String.length digs ≤ max_str_digits)%nat →
  ∃ r r0,
    process_code tok lc pc = Ok r ∧ process_code base lc pc = Ok r0 ∧
    type_of r =
      (if decide (Some base ∈ pc) then Point
       else if decide (Some base ∈ lc) then Line else Unknown) ∧
    type_of r = type_of r0 ∧ success_of r = success_of r0.
Proof.
  intros Hparts Hlen.
  assert (token_parts base base "") as Hbase.
  { destruct Hparts as (? & _ & Hb & _). exists "". rewrite !append_empty_r. auto. }
  rewrite (process_code_parts _ _ _ _ _ Hparts), (process_code_parts _ _ _ _ _ Hbase).
  rewrite decide_True by done.
  destruct (decide (String.length "" ≤ max_str_digits)%nat) as [_|Hn];
    [|destruct Hn; apply Nat.le_0_l].
  eexists _, _. split; [reflexivity|]. split; [reflexivity|].
  unfold type_of, success_of.
  destruct (decide (Some base ∈ lc)) as [Hl|Hl], (decide (Some base ∈ pc)) as [Hp|Hp];
    rewrite ?(bool_decide_eq_true_2 _ Hl), ?(bool_decide_eq_false_2 _ Hl),
            ?(bool_decide_eq_true_2 _ Hp), ?(bool_decide_eq_false_2 _ Hp); done.
Qed.

Lemma kind_of_base_code_witness :
  ∃ r r0,
    process_code "kb12" [Some "kb"] [Some "bm"] = Ok r ∧
    process_code "kb" [Some "kb"] [Some "bm"] = Ok r0 ∧
    type_of r = Line ∧ type_of r = type_of r0 ∧ success_of r = success_of r0.
Proof.
  apply (kind_of_base_code "kb12" "kb" "12" [Some "kb"] [Some "bm"]).
  - exists "". split_and!; [reflexivity..|by left].
  - apply Nat.leb_le. reflexivity.
Defined.

(** ** Rows of the survey *)

Lemma row_code_fifth (row : list string) (c : string) :
  row_code row = Some c ↔ row !! 4%nat = Some c ∧ c ≠ "".
Proof.
  unfold row_code.
  destruct row as [|c0 [|c1 [|c2 [|c3 [|c4 rest]]]]]; simpl;
    rewrite ?lookup_insert_ne by done;
    rewrite ?lookup_insert_eq, ?lookup_empty; try (by split; [|intros [? _]]).
  destruct (decide (c4 = "")) as [->|Hne]; split.
  - done.
  - by intros [[= <-] ?].
  - by intros [= <-].
  - by intros [[= <-] _].
Qed.

(** X4: a row with fewer than five columns or with an empty fifth column
    is not a data row: [get_survey] skips it, leaving the index, the
    needed codes and the output untouched. *)
Theorem rows_without_code_are_skipped {F : FloatOps} (pc lc : list (option string))
    (m : all_pts) (row : list string) (w : world F) :
  (length row < 5)%nat ∨ row !! 4%nat = Some "" →
  get_survey_row pc lc m row w = (Ok m, w).
Proof.
  intros Hrow. rewrite get_survey_row_run.
  destruct (row_code row) as [c|] eqn:Hc; [|done].
  apply row_code_fifth in Hc as [Hc Hne].
  destruct Hrow as [Hlen|Hempty].
  - apply lookup_lt_Some in Hc. lia.
  - congruence.
Qed.

Lemma rows_without_code_are_skipped_witness :
  get_survey_row (F := ZCoords) [Some "bm"] [Some "kb"] (AllPts [] [] [])
    ["PointNumber"; "Easting"; "Northing"; "Height"; ""] (world_example CsvNotFound)
  = (Ok (AllPts [] [] []), world_example CsvNotFound).
Proof.
  apply (rows_without_code_are_skipped (F := ZCoords)).
  right. reflexivity.
Defined.


(** What the kind returned by [process_code] says about the code and the
    differentiator returned with it. *)
Lemma process_code_kind_facts (tok : string) (lc pc : list (option string))
    (r : list msg * (bool * string * option Z * point_type)) :
  process_code tok lc pc = Ok r →
  match type_of r with
  | Line => Some (code_of r) ∈ lc ∧ (Some (code_of r) ∉ pc) ∧
            ∃ z, differentiator_of r = Some z ∧ -1 ≤ z
  | Point => Some (code_of r) ∈ pc
  | Unknown => code_of r = "sprl" ∧ differentiator_of r = Some 1
  end.
Proof.
  destruct (Re.match_ pattern tok) as [m|] eqn:Hm.
  - apply match_pattern_inv in Hm as (base & digs & Hparts & _).
    rewrite (process_code_parts _ _ _ _ _ Hparts).
    destruct (decide (String.length digs ≤ max_str_digits)%nat); [|done].
    intros [= <-].
    assert (0 ≤ int_of_digits digs) as Hd.
    { destruct Hparts as (? & _ & _ & ? & _). by apply int_of_digits_nonneg. }
    unfold differentiator_of, type_of, code_of, group2_of.
    destruct (decide (Some base ∈ lc)) as [Hl|Hl], (decide (Some base ∈ pc)) as [Hp|Hp];
      rewrite ?(bool_decide_eq_true_2 _ Hl), ?(bool_decide_eq_false_2 _ Hl),
              ?(bool_decide_eq_true_2 _ Hp), ?(bool_decide_eq_false_2 _ Hp); simpl;
      try done.
    split_and!; [done..|]. destruct (decide (digs = "")); eexists; split; done || lia.
  - rewrite process_code_no_match by done. by intros [= <-].
Qed.

Lemma row_key_process_code (pc lc : list (option string)) (row : list string)
    (pt : point_type) (code : string) (sequence : option Z) :
  row_key pc lc row = Some (pt, code, sequence) →
  ∃ tok r, row_code row = Some tok ∧ process_code tok lc pc = Ok r ∧
           type_of r = pt ∧ code_of r = code ∧ differentiator_of r = sequence.
Proof.
  unfold row_key. destruct (row_code row) as [tok|]; [|done].
  destruct (process_code tok lc pc) as [[out [[[success pcode] sequence'] pt']]|e] eqn:E;
    [|done].
  intros [= <- <- <-]. exists tok. eexists. by split.
Qed.

Section IndexFacts.
Context {F : FloatOps}.
Implicit Types (w : world F).

(** A bucket of the index returned by [get_survey] is not empty exactly
    when some row of the file classifies to it. *)
Lemma get_survey_bucket_rows (file_path : string) (pc lc : list (option string))
    (rows : list (list string)) w (m : all_pts) w' :
  csv_files w file_path = CsvRows rows →
  get_survey file_path pc lc w = (Ok (Some m), w') →
  ∀ pt code sequence,
    bucket m pt code sequence ≠ [] ↔
    ∃ row, row ∈ rows ∧ row_key pc lc row = Some (pt, code, sequence).
Proof.
  intros Hfile. unfold get_survey. rewrite Hfile. unfold bind.
  destruct (foldM _ rows _ w) as [[m1|e] w1] eqn:Hrun; [|done].
  destruct (get_survey_rows_run _ _ _ _ _ _ _ Hrun) as [_ Hb].
  intros [= <- _] pt code sequence. rewrite (Hb m1 eq_refl).
  assert (bucket (AllPts [] [] []) pt code sequence = []) as -> by by destruct pt.
  simpl. split.
  - intros Hne.
    destruct (filter _ rows) as [|row l] eqn:Hf; [done|].
    assert (row ∈ filter (λ row, row_key pc lc row = Some (pt, code, sequence)) rows) as Hin.
    { rewrite Hf. by left. }
    apply list_elem_of_filter in Hin as [? ?]. eauto.
  - intros (row & Hin & Hkey) Hnil.
    assert (row ∈ filter (λ row, row_key pc lc row = Some (pt, code, sequence)) rows) as Hf.
    { by apply list_elem_of_filter. }
    destruct (filter _ rows); [by apply elem_of_nil in Hf|done].
Qed.
End IndexFacts.

(** X6: in the index that [get_survey] returns, a non-empty bucket of the
    Line group has a code of the line table that is not in the point table
    and an integer sequence not below -1; one of the Point group has a
    code of the point table; one of the Unknown group is the bucket
    [sprl]/1. *)
Theorem buckets_agree_with_tables {F : FloatOps} (w w' : world F) (file_path : string)
    (pc lc : list (option string)) (m : all_pts)
    (pt : point_type) (code : string) (sequence : option Z) :
  get_survey file_path pc lc w = (Ok (Some m), w') →
  bucket m pt code sequence ≠ [] →
  match pt with
  | Line => Some code ∈ lc ∧ (Some code ∉ pc) ∧ ∃ z, sequence = Some z ∧ -1 ≤ z
  | Point => Some code ∈ pc
  | Unknown => code = "sprl" ∧ sequence = Some 1
  end.
Proof.
  intros Hsurvey Hne.
  destruct (csv_files w file_path) as [| |rows] eqn:Hfile;
    [unfold get_survey in Hsurvey; by rewrite Hfile in Hsurvey..|].
  destruct (proj1 (get_survey_bucket_rows _ _ _ _ _ _ _ Hfile Hsurvey pt code sequence) Hne)
    as (row & _ & Hkey).
  apply row_key_process_code in Hkey as (tok & r & _ & Hr & <- & <- & <-).
  by eapply process_code_kind_facts.
Qed.

Lemma buckets_agree_with_tables_witness :
  Some "kb" ∈ [Some "kb"] ∧ (Some "kb" ∉ [Some "bm"]) ∧ ∃ z, Some 1 = Some z ∧ -1 ≤ z.
Proof.
  assert (∃ m w', get_survey (F := ZCoords) "survey.csv" [Some "bm"] [Some "kb"]
                    (world_example (CsvRows survey_rows_example)) = (Ok (Some m), w') ∧
                  bucket m Line "kb" (Some 1) ≠ []) as (m & w' & Hsurvey & Hne).
  { eexists _, _. split; [reflexivity|done]. }
  exact (buckets_agree_with_tables _ _ _ _ _ _ Line "kb" (Some 1) Hsurvey Hne).
Defined.

(** ** The needed codes and the keys of the index *)

Section NeededCodes.
Context {F : FloatOps}.
Implicit Types (w : world F).

Lemma get_survey_rows_needed (pc lc : list (option string)) (rows : list (list string)) :
  ∀ (m m' : all_pts) w w',
    foldM (get_survey_row pc lc) rows m w = (Ok m', w') →
    (∃ added, needed_pcodes w' = needed_pcodes w ++ added) ∧
    (NoDup (needed_pcodes w) → NoDup (needed_pcodes w')) ∧
    (∀ code, code ∈ needed_pcodes w' ↔
       code ∈ needed_pcodes w ∨
       ∃ row pt sequence, row ∈ rows ∧ row_key pc lc row = Some (pt, code, sequence)).
Proof.
  induction rows as [|row rows IH]; intros m m' w w'; simpl.
  - intros [= _ <-]. split_and!; [by exists []; rewrite app_nil_r|done|].
    intros code. split; [by left|]. intros [?|(? & ? & ? & Hnil & _)]; [done|].
    by apply elem_of_nil in Hnil.
  - unfold bind. rewrite get_survey_row_run.
    destruct (row_code row) as [tok|] eqn:Hrow.
    + destruct (process_code tok lc pc) as [[out [[[success pcode] sequence] pt]]|e] eqn:Hpc;
        [|done].
      assert (row_key pc lc row = Some (pt, pcode, sequence)) as Hk.
      { unfold row_key. by rewrite Hrow, Hpc. }
      intros Hrun. apply IH in Hrun as ([added Hadd] & Hnd & Hin). simpl in *.
      split_and!.
      * destruct (decide (pcode ∈ needed_pcodes w)); [by exists added|].
        exists (pcode :: added). rewrite Hadd. by rewrite <- app_assoc.
      * intros Hw. apply Hnd. destruct (decide (pcode ∈ needed_pcodes w)); [done|].
        apply NoDup_app. split_and!; [done| |apply NoDup_singleton].
        intros x Hx ->%list_elem_of_singleton. done.
      * intros code. rewrite Hin. split.
        -- intros [Hc|(r & pt' & s' & Hr & Hkey)].
           ++ destruct (decide (pcode ∈ needed_pcodes w)); [by left|].
              apply elem_of_app in Hc as [?| ->%list_elem_of_singleton]; [by left|].
              right. exists row, pt, sequence. split; [by left|done].
           ++ right. exists r, pt', s'. split; [by right|done].
        -- intros [Hc|(r & pt' & s' & [-> |Hr]%elem_of_cons & Hkey)].
           ++ left. destruct (decide (pcode ∈ needed_pcodes w)); [done|].
              apply elem_of_app. by left.
           ++ left. rewrite Hk in Hkey. injection Hkey as <- <- <-.
              destruct (decide (pcode ∈ needed_pcodes w)); [done|].
              apply elem_of_app. right. by left.
           ++ right. eauto.
    + assert (row_key pc lc row = None) as Hk.
      { unfold row_key. by rewrite Hrow. }
      intros Hrun. apply IH in Hrun as (Hadd & Hnd & Hin).
      split_and!; [done..|]. intros code. rewrite Hin. split.
      * intros [?|(r & pt' & s' & Hr & Hkey)]; [by left|].
        right. exists r, pt', s'. split; [by right|done].
      * intros [?|(r & pt' & s' & [-> |Hr]%elem_of_cons & Hkey)]; [by left|congruence|].
        right. eauto.
Qed.

(** The keys of each group of the index satisfy whatever holds of every
    code that [process_code] returns with that kind. *)
Lemma get_survey_rows_group_keys (P : point_type → string → Prop)
    (pc lc : list (option string)) (rows : list (list string)) :
  (∀ tok r, process_code tok lc pc = Ok r → P (type_of r) (code_of r)) →
  ∀ (m m' : all_pts) w w',
    foldM (get_survey_row pc lc) rows m w = (Ok m', w') →
    (∀ pt, Forall (λ kv, P pt kv.1) (pts_of pt m)) →
    ∀ pt, Forall (λ kv, P pt kv.1) (pts_of pt m').
Proof.
  intros HP. induction rows as [|row rows IH]; intros m m' w w'; simpl.
  - by intros [= <- _].
  - unfold bind. rewrite get_survey_row_run.
    destruct (row_code row) as [tok|]; [|by apply IH].
    pose proof (HP tok) as Htok.
    destruct (process_code tok lc pc) as [[out [[[success pcode] sequence] pt]]|e];
      [|done].
    specialize (Htok _ eq_refl).
    intros Hrun Hm. eapply IH; [exact Hrun|].
    intros pt'. unfold index_append.
    destruct (decide (pt = pt')) as [<-|Hne].
    + rewrite pts_of_set_pts_eq. by apply (od_upd_keys (P pt)).
    + by rewrite pts_of_set_pts_ne.
Qed.
End NeededCodes.

Lemma elem_of_keys {V} (d : gmap (option string) V) (c : option string) :
  c ∈ keys d ↔ is_Some (d !! c).
Proof.
  unfold keys. rewrite list_elem_of_fmap. split.
  - intros ([k v] & -> & Hin%elem_of_map_to_list). eauto.
  - intros [v Hv]. exists (c, v). split; [done|]. by apply elem_of_map_to_list.
Qed.

(** X7: after [get_survey] the needed codes are the ones registered before
    followed by new ones, without duplicates if there were none, and a
    code is registered exactly when it was already or has a non-empty
    bucket in the index. *)
Theorem needed_codes_are_bucket_codes {F : FloatOps} (w w' : world F)
    (file_path : string) (pc lc : list (option string)) (m : all_pts) :
  get_survey file_path pc lc w = (Ok (Some m), w') →
  (∃ added, needed_pcodes w' = needed_pcodes w ++ added) ∧
  (NoDup (needed_pcodes w) → NoDup (needed_pcodes w')) ∧
  (∀ code, code ∈ needed_pcodes w' ↔
     code ∈ needed_pcodes w ∨ ∃ pt sequence, bucket m pt code sequence ≠ []).
Proof.
  intros Hsurvey.
  destruct (csv_files w file_path) as [| |rows] eqn:Hfile;
    [unfold get_survey in Hsurvey; by rewrite Hfile in Hsurvey..|].
  pose proof (get_survey_bucket_rows _ _ _ _ _ _ _ Hfile Hsurvey) as Hb.
  unfold get_survey in Hsurvey. rewrite Hfile in Hsurvey. unfold bind in Hsurvey.
  destruct (foldM _ rows _ w) as [[m1|e] w1] eqn:Hrun; [|done].
  injection Hsurvey as <- <-.
  apply get_survey_rows_needed in Hrun as (Hadd & Hnd & Hin).
  split_and!; [done..|]. intros code. rewrite Hin. split.
  - intros [?|(row & pt & s & Hr & Hk)]; [by left|].
    right. exists pt, s. apply Hb. eauto.
  - intros [?|(pt & s & (row & Hr & Hk)%Hb)]; [by left|]. right. eauto.
Qed.

Lemma needed_codes_are_bucket_codes_witness :
  ∃ w', (get_survey (F := ZCoords) "survey.csv" [Some "bm"] [Some "kb"]
           (world_example (CsvRows survey_rows_unknown))).2 = w' ∧
        NoDup (needed_pcodes w').
Proof.
  destruct (get_survey (F := ZCoords) "survey.csv" [Some "bm"] [Some "kb"]
              (world_example (CsvRows survey_rows_unknown))) as [r w'] eqn:Hsurvey.
  exists w'. split; [reflexivity|].
  assert (∃ m, r = Ok (Some m)) as [m ->].
  { change r with (r, w').1. rewrite <- Hsurvey. eexists. vm_compute. reflexivity. }
  apply (needed_codes_are_bucket_codes _ _ _ _ _ _ Hsurvey). constructor.
Defined.

(** X8: when the index is built with the key lists of the two code tables,
    as the script does, every key of its Line group is a key of the line
    table and every key of its Point group is a key of the point table, so
    the lookups [line_codes_dict[point_code]] and
    [point_codes_dict[point_code]] of [create_dxf] cannot miss the code for
    these two groups. *)
Theorem group_keys_are_table_keys {F : FloatOps} (w w' : world F) (file_path : string)
    (pcd lcd : code_table) (m : all_pts) :
  get_survey file_path (keys pcd) (keys lcd) w = (Ok (Some m), w') →
  (∀ code seqs, (code, seqs) ∈ line_pts m → is_Some (lcd !! Some code)) ∧
  (∀ code seqs, (code, seqs) ∈ point_pts m → is_Some (pcd !! Some code)).
Proof.
  intros Hsurvey. unfold get_survey in Hsurvey.
  destruct (csv_files w file_path) as [| |rows]; [done..|].
  unfold bind in Hsurvey.
  destruct (foldM _ rows _ w) as [[m1|e] w1] eqn:Hrun; [|done].
  injection Hsurvey as <- <-.
  pose proof (get_survey_rows_group_keys
    (λ pt code, match pt with
                | Line => is_Some (lcd !! Some code)
                | Point => is_Some (pcd !! Some code)
                | Unknown => True
                end) (keys pcd) (keys lcd) rows) as Hkeys.
  specialize (Hkeys (λ tok r Hr, ltac:(
    pose proof (process_code_kind_facts tok (keys lcd) (keys pcd) r Hr) as Hf;
    destruct (type_of r); [apply elem_of_keys, Hf|by apply elem_of_keys|done]))).
  specialize (Hkeys _ _ _ _ Hrun).
  assert (∀ pt, Forall (λ kv : string * seq_map,
            match pt with
            | Line => is_Some (lcd !! Some kv.1)
            | Point => is_Some (pcd !! Some kv.1)
            | Unknown => True
            end) (pts_of pt (AllPts [] [] []))) as H0 by (by intros []; constructor).
  specialize (Hkeys H0). split.
  - intros code seqs Hin. pose proof (Hkeys Line) as HL. simpl in HL.
    rewrite Forall_forall in HL. apply (HL _ Hin).
  - intros code seqs Hin. pose proof (Hkeys Point) as HP. simpl in HP.
    rewrite Forall_forall in HP. apply (HP _ Hin).
Qed.

Lemma group_keys_are_table_keys_witness :
  ∃ m w', get_survey (F := ZCoords) "survey.csv"
            (keys (get_codes_root library_example).1.1)
            (keys (get_codes_root library_example).1.2)
            (world_example (CsvRows survey_rows_example)) = (Ok (Some m), w') ∧
          ∀ code seqs, (code, seqs) ∈ line_pts m →
            is_Some ((get_codes_root library_example).1.2 !! Some code).
Proof.
  destruct (get_survey (F := ZCoords) "survey.csv"
              (keys (get_codes_root library_example).1.1)
              (keys (get_codes_root library_example).1.2)
              (world_example (CsvRows survey_rows_example))) as [r w'] eqn:Hsurvey.
  assert (∃ m, r = Ok (Some m)) as [m ->].
  { change r with (r, w').1. rewrite <- Hsurvey. eexists. vm_compute. reflexivity. }
  exists m, w'. split; [reflexivity|].
  apply (group_keys_are_table_keys _ _ _ _ _ _ Hsurvey).
Defined.

(** ** Every data row is stored once *)

Lemma seq_map_upd_points (sequence : option Z) (r : row_dict) (sm : seq_map) :
  concat (snd <$> OD.upd sequence (λ l, l ++ [r]) [] sm) ≡ₚ r :: concat (snd <$> sm).
Proof.
  induction sm as [|[k v] sm IH]; simpl; [done|].
  destruct (decide (sequence = k)); simpl.
  - rewrite <- app_assoc. simpl. symmetry. apply Permutation_middle.
  - rewrite IH. symmetry. apply Permutation_middle.
Qed.

Lemma points_of_group_upd (code : string) (sequence : option Z) (r : row_dict)
    (g : code_map) :
  points_of_group (OD.upd code (OD.upd sequence (λ l, l ++ [r]) []) [] g)
  ≡ₚ r :: points_of_group g.
Proof.
  unfold points_of_group. induction g as [|[k sm] g IH]; simpl; [done|].
  destruct (decide (code = k)); simpl.
  - rewrite seq_map_upd_points. done.
  - rewrite IH. symmetry. apply Permutation_middle.
Qed.

Lemma all_points_index_append (pt : point_type) (code : string) (sequence : option Z)
    (r : row_dict) (m : all_pts) :
  all_points (index_append pt code sequence r m) ≡ₚ r :: all_points m.
Proof.
  unfold all_points, index_append.
  destruct pt; simpl; rewrite points_of_group_upd; simpl.
  - done.
  - by rewrite <- Permutation_middle.
  - rewrite (app_assoc _ _ (r :: _)). rewrite <- Permutation_middle.
    by rewrite <- app_assoc.
Qed.

Lemma length_omap_filter {A B} (f : A → option B) (P : A → Prop) `{∀ x, Decision (P x)}
    (l : list A) :
  Forall (λ x, is_Some (f x) ↔ P x) l → length (omap f l) = length (filter P l).
Proof.
  induction 1 as [|x l Hf Hl IH]; [done|].
  rewrite filter_cons. simpl. destruct (f x) as [y|] eqn:Hx.
  - rewrite decide_True by (apply Hf; eauto). simpl. f_equal. apply IH.
  - rewrite decide_False; [apply IH|]. intros [y Hy]%Hf. congruence.
Qed.

Section StoredRows.
Context {F : FloatOps}.
Implicit Types (w : world F).

Lemma get_survey_rows_points (pc lc : list (option string)) (rows : list (list string)) :
  ∀ (m m' : all_pts) w w',
    foldM (get_survey_row pc lc) rows m w = (Ok m', w') →
    all_points m' ≡ₚ all_points m ++ omap (stored_row pc lc) rows ∧
    Forall (λ row, is_Some (stored_row pc lc row) ↔ is_Some (row_code row)) rows.
Proof.
  induction rows as [|row rows IH]; intros m m' w w'; simpl.
  - intros [= <- _]. by rewrite app_nil_r.
  - unfold bind. rewrite get_survey_row_run.
    destruct (row_code row) as [tok|] eqn:Hrow.
    + destruct (process_code tok lc pc) as [[out [[[success pcode] sequence] pt]]|e] eqn:Hpc;
        [|done].
      assert (stored_row pc lc row = Some (make_row_dict row pcode sequence)) as Hs.
      { unfold stored_row, row_key. by rewrite Hrow, Hpc. }
      intros [Hrun Hrows]%IH. rewrite Hs. split.
      * rewrite Hrun, all_points_index_append. simpl.
        by rewrite <- Permutation_middle.
      * constructor; [|done]. rewrite Hs. split; eauto.
    + assert (stored_row pc lc row = None) as Hs.
      { unfold stored_row, row_key. by rewrite Hrow. }
      intros [Hrun Hrows]%IH. rewrite Hs. split; [done|].
      constructor; [|done]. rewrite Hs, Hrow. split; by intros [? ?].
Qed.
End StoredRows.

(** X9: the records of the index that [get_survey] returns are, up to
    order, the records of the data rows of the file, each one once: no row
    with a code is lost or stored twice, and rows without a code add
    nothing. *)
Theorem every_data_row_stored_once {F : FloatOps} (w w' : world F) (file_path : string)
    (pc lc : list (option string)) (rows : list (list string)) (m : all_pts) :
  csv_files w file_path = CsvRows rows →
  get_survey file_path pc lc w = (Ok (Some m), w') →
  all_points m ≡ₚ omap (stored_row pc lc) rows ∧
  length (all_points m) = length (filter (λ row, is_Some (row_code row)) rows).
Proof.
  intros Hfile Hsurvey. unfold get_survey in Hsurvey. rewrite Hfile in Hsurvey.
  unfold bind in Hsurvey.
  destruct (foldM _ rows _ w) as [[m1|e] w1] eqn:Hrun; [|done].
  injection Hsurvey as <- <-.
  apply get_survey_rows_points in Hrun as [Hrun Hrows]. simpl in Hrun.
  split; [done|]. rewrite Hrun. simpl. by apply length_omap_filter.
Qed.

Lemma every_data_row_stored_once_witness :
  ∃ m w', get_survey (F := ZCoords) "survey.csv" [Some "bm"] [Some "kb"]
            (world_example (CsvRows survey_rows_example)) = (Ok (Some m), w') ∧
          length (all_points m) = 3%nat.
Proof.
  destruct (get_survey (F := ZCoords) "survey.csv" [Some "bm"] [Some "kb"]
              (world_example (CsvRows survey_rows_example))) as [r w'] eqn:Hsurvey.
  assert (∃ m, r = Ok (Some m)) as [m ->].
  { change r with (r, w').1. rewrite <- Hsurvey. eexists. vm_compute. reflexivity. }
  exists m, w'. split; [reflexivity|].
  destruct (every_data_row_stored_once (world_example (CsvRows survey_rows_example)) w'
              "survey.csv" [Some "bm"] [Some "kb"] survey_rows_example m eq_refl Hsurvey)
    as [_ ->].
  reflexivity.
Defined.

(** ** The first declaration of a code wins *)

Lemma setdefault_union `{Countable K} {V} (k : K) (v : V) (d : gmap K V) :
  setdefault k v d = d ∪ {[k := v]}.
Proof.
  apply map_eq. intros i. rewrite lookup_setdefault, lookup_union.
  destruct (d !! i) as [x|] eqn:E; simpl.
  - by destruct ({[k := v]} !! i).
  - destruct (decide (k = i)) as [->|Hne].
    + by rewrite lookup_singleton_eq.
    + by rewrite lookup_singleton_ne.
Qed.

Lemma union_singleton_twice `{Countable K} {V} (k : K) (v : V) (d : gmap K V) :
  d ∪ {[k := v]} ∪ {[k := v]} = d ∪ {[k := v]}.
Proof.
  rewrite <- (assoc_L (∪)). f_equal. apply map_eq. intros i.
  rewrite lookup_union. by destruct ({[k := v]} !! i).
Qed.

(** One element: its declarations are added, those already there stay. *)
Lemma get_codes_gchild_declared (pt ln : code_table) (m : code_layer_table)
    (gchild : Element) :
  get_codes_gchild (pt, ln, m) gchild =
    (pt ∪ list_to_map (table_pairs true (declared_by gchild)),
     ln ∪ list_to_map (table_pairs false (declared_by gchild)),
     m ∪ list_to_map (layer_pairs (declared_by gchild))).
Proof.
  unfold get_codes_gchild, declared_by, table_pairs, layer_pairs, code_attr.
  destruct (contains _ (tag gchild)), (contains _ (tag gchild)); simpl;
    rewrite ?setdefault_union, ?insert_empty, ?(right_id_L ∅ (∪)); try done.
  f_equal. rewrite union_singleton_twice.
  by rewrite insert_singleton_eq.
Qed.

Lemma table_pairs_app (point : bool) (a b : list (bool * Element)) :
  table_pairs point (a ++ b) = table_pairs point a ++ table_pairs point b.
Proof. apply omap_app. Qed.

Lemma layer_pairs_app (a b : list (bool * Element)) :
  layer_pairs (a ++ b) = layer_pairs a ++ layer_pairs b.
Proof. apply fmap_app. Qed.

Lemma union_list_to_map_app `{Countable K} {V} (d : gmap K V) (a b : list (K * V)) :
  d ∪ list_to_map a ∪ list_to_map b = d ∪ list_to_map (a ++ b).
Proof.
  rewrite <- (assoc_L (∪)). f_equal. induction a as [|[k v] a IH]; simpl.
  - by rewrite (left_id_L ∅ (∪)).
  - by rewrite <- insert_union_l, IH.
Qed.

Lemma get_codes_gchildren_declared (gs : list Element) :
  ∀ (pt ln : code_table) (m : code_layer_table),
    fold_left get_codes_gchild gs (pt, ln, m) =
      (pt ∪ list_to_map (table_pairs true (gs ≫= declared_by)),
       ln ∪ list_to_map (table_pairs false (gs ≫= declared_by)),
       m ∪ list_to_map (layer_pairs (gs ≫= declared_by))).
Proof.
  induction gs as [|g gs IH]; intros pt ln m.
  - simpl. by rewrite !(right_id_L ∅ (∪)).
  - cbn [fold_left]. rewrite get_codes_gchild_declared, IH, bind_cons.
    by rewrite !table_pairs_app, layer_pairs_app, !union_list_to_map_app.
Qed.

Lemma get_codes_children_declared (cs : list Element) :
  ∀ (pt ln : code_table) (m : code_layer_table),
    fold_left get_codes_child cs (pt, ln, m) =
      (pt ∪ list_to_map (table_pairs true (declared (Elem "" ∅ None cs))),
       ln ∪ list_to_map (table_pairs false (declared (Elem "" ∅ None cs))),
       m ∪ list_to_map (layer_pairs (declared (Elem "" ∅ None cs)))).
Proof.
  unfold declared. cbn [children].
  induction cs as [|c cs IH]; intros pt ln m.
  - simpl. by rewrite !(right_id_L ∅ (∪)).
  - cbn [fold_left]. rewrite bind_cons. unfold get_codes_child at 2.
    destruct (contains _ (tag c)).
    + rewrite get_codes_gchildren_declared, IH.
      by rewrite !table_pairs_app, layer_pairs_app, !union_list_to_map_app.
    + apply IH.
Qed.

(** The three tables as maps built from the declarations. *)
Lemma get_codes_root_declared (root : Element) :
  get_codes_root root =
    (list_to_map (table_pairs true (declared root)),
     list_to_map (table_pairs false (declared root)),
     list_to_map (layer_pairs (declared root))).
Proof.
  unfold get_codes_root. rewrite get_codes_children_declared.
  rewrite !(left_id_L ∅ (∪)). by destruct root.
Qed.

(** In a map built from a list of pairs, a key gets the value of its first
    pair. *)
Lemma list_to_map_first `{Countable K} {V} (pre post : list (K * V)) (k : K) (v : V) :
  k ∉ pre.*1 → (list_to_map (pre ++ (k, v) :: post) : gmap K V) !! k = Some v.
Proof.
  induction pre as [|[k' v'] pre IH]; simpl; intros Hk.
  - apply lookup_insert_eq.
  - apply not_elem_of_cons in Hk as [Hne Hk].
    rewrite lookup_insert_ne by done. by apply IH.
Qed.

(** X10: the code-to-layer map gives a code the [Layer] attribute of the
    first feature definition, point or line, that declares it in document
    order; later definitions of the same code do not change it. *)
Theorem first_declaration_sets_layer (root : Element)
    (pre post : list (bool * Element)) (d : bool * Element) :
  declared root = pre ++ d :: post →
  (∀ d', d' ∈ pre → code_attr d' ≠ code_attr d) →
  (get_codes_root root).2 !! code_attr d = Some (attrib d.2 !! "Layer").
Proof.
  intros Hdecl Hfirst. rewrite get_codes_root_declared. simpl.
  rewrite Hdecl, layer_pairs_app. simpl. apply list_to_map_first.
  intros ([c l] & Hc & (d' & [= -> ->] & Hin)%list_elem_of_fmap)%list_elem_of_fmap.
  simpl in Hc. by apply (Hfirst d' Hin).
Qed.

Lemma first_declaration_sets_layer_witness :
  (get_codes_root library_twice).2 !! Some "x" = Some (Some "L").
Proof.
  refine (first_declaration_sets_layer library_twice []
            [(true, elem "PointFeatureDefinition" [("Code", "x"); ("Layer", "P")] None [])]
            (false, elem "LineFeatureDefinition" [("Code", "x"); ("Layer", "L")] None [])
            eq_refl _).
  intros d' Hin. by apply elem_of_nil in Hin.
Defined.

(** X11: a code table holds, for a code, the attributes of the first
    feature definition of that kind that declares it; a code is a key of
    the point table exactly when some point feature definition declares
    it, and likewise for the line table. *)
Theorem table_keeps_first_definition (root : Element) (point : bool) :
  let table := if point then (get_codes_root root).1.1 else (get_codes_root root).1.2 in
  (∀ pre post g,
     declared root = pre ++ (point, g) :: post →
     (∀ g', (point, g') ∈ pre → attrib g' !! "Code" ≠ attrib g !! "Code") →
     table !! (attrib g !! "Code") = Some (attrib g)) ∧
  (∀ code, is_Some (table !! code) ↔
           ∃ g, (point, g) ∈ declared root ∧ attrib g !! "Code" = code).
Proof.
  assert ((if point then (get_codes_root root).1.1 else (get_codes_root root).1.2)
          = list_to_map (table_pairs point (declared root))) as ->.
  { rewrite get_codes_root_declared. by destruct point. }
  cbv zeta. split.
  - intros pre post g Hdecl Hfirst. rewrite Hdecl, table_pairs_app. simpl.
    rewrite decide_True by done. apply list_to_map_first.
    intros ([c a] & Hc & Hin)%list_elem_of_fmap. simpl in Hc.
    unfold table_pairs in Hin. apply list_elem_of_omap in Hin as ([k g'] & Hin & Hsome).
    simpl in Hsome. destruct (decide (k = point)) as [->|]; [|done].
    injection Hsome as <- <-. by apply (Hfirst g' Hin).
  - intros code. rewrite <- elem_of_dom, dom_list_to_map_L, elem_of_list_to_set.
    rewrite list_elem_of_fmap. split.
    + intros ([c a] & -> & Hin). unfold table_pairs in Hin.
      apply list_elem_of_omap in Hin as ([k g] & Hin & Hsome). simpl in Hsome.
      destruct (decide (k = point)) as [->|]; [|done].
      injection Hsome as <- <-. eauto.
    + intros (g & Hin & <-). exists (attrib g !! "Code", attrib g). split; [done|].
      unfold table_pairs. apply list_elem_of_omap. exists (point, g). split; [done|].
      simpl. by rewrite decide_True.
Qed.

Lemma table_keeps_first_definition_witness :
  is_Some ((get_codes_root library_example).1.1 !! Some "bm").
Proof.
  apply (table_keeps_first_definition library_example true).
  exists (elem "PointFeatureDefinition" [("Code", "bm"); ("Layer", "BenchMarks")] None []).
  split; [|reflexivity].
  assert (declared library_example =
            [(false, elem "LineFeatureDefinition" [("Code", "kb"); ("Layer", "Kerb")] None []);
             (true, elem "PointFeatureDefinition" [("Code", "bm"); ("Layer", "BenchMarks")]
                      None [])]) as -> by reflexivity.
  right. left.
Defined.

(** ** Splitting at a separator *)

Lemma split_on_nonempty (sep : ascii) (s : string) : split_on sep s ≠ [].
Proof.
  destruct s as [|c s]; simpl; [done|].
  destruct (Ascii.eqb c sep); [done|]. by destruct (split_on sep s).
Qed.

Lemma split_on_no_sep (sep : ascii) (s : string) :
  sep ∉ list_ascii_of_string s → split_on sep s = [s].
Proof.
  induction s as [|c s IH]; simpl; [done|].
  intros [Hne Hs]%not_elem_of_cons.
  destruct (Ascii.eqb_spec c sep) as [->|_]; [done|]. by rewrite IH.
Qed.

Lemma split_on_first (sep : ascii) (a b : string) :
  sep ∉ list_ascii_of_string a →
  split_on sep (a +:+ String sep b) = a :: split_on sep b.
Proof.
  induction a as [|c a IH]; intros Ha.
  - change ("" +:+ String sep b) with (String sep b). simpl.
    by rewrite Ascii.eqb_refl.
  - change (String c a +:+ String sep b) with (String c (a +:+ String sep b)).
    simpl in *. apply not_elem_of_cons in Ha as [Hne Ha].
    destruct (Ascii.eqb_spec c sep) as [->|_]; [done|]. by rewrite IH.
Qed.

Lemma split_on_has_sep (sep : ascii) (s : string) :
  sep ∈ list_ascii_of_string s →
  ∃ a b, s = a +:+ String sep b ∧ sep ∉ list_ascii_of_string a.
Proof.
  induction s as [|c s IH]; simpl; [by intros ?%elem_of_nil|].
  destruct (decide (c = sep)) as [->|Hne].
  - intros _. exists "", s. split; [done|]. apply not_elem_of_nil.
  - intros [?|Hin]%elem_of_cons; [congruence|].
    destruct (IH Hin) as (a & b & -> & Ha). exists (String c a), b.
    split; [done|]. simpl. apply not_elem_of_cons. auto.
Qed.

(** [s.split(sep)[1]] raises exactly when [sep] does not occur in [s]. *)
Lemma second_split_on (sep : ascii) (s : string) :
  second (split_on sep s) = Raise IndexError ↔ sep ∉ list_ascii_of_string s.
Proof.
  split.
  - intros Hraise Hin. destruct (split_on_has_sep _ _ Hin) as (a & b & -> & Ha).
    rewrite split_on_first in Hraise by done. unfold second in Hraise. simpl in Hraise.
    pose proof (split_on_nonempty sep b). by destruct (split_on sep b).
  - intros Hs. by rewrite split_on_no_sep.
Qed.

(** ** The layer table *)

(** The loop over the sub-elements of a layer definition, when none of
    them is a [Name]: the table and the name are as before. *)
Lemma get_layers_sub_no_name (subs : list Element) :
  ∀ (layers_ref : layer_table) (layer_values : gmap string (option string))
    (name_value : option string),
    Forall (λ sub, ∃ p, second (split_on "}" (tag sub)) = Ok p ∧ p ≠ "Name") subs →
    ∃ layer_values',
      rfold get_layers_sub subs (layers_ref, layer_values, name_value)
      = Ok (layers_ref, layer_values', name_value).
Proof.
  induction subs as [|sub subs IH]; intros lr lv nv Hsubs; simpl.
  - by exists lv.
  - apply Forall_cons in Hsubs as [(p & Hp & Hne) Hsubs].
    unfold get_layers_sub at 1. rewrite Hp. simpl.
    rewrite decide_False by done. simpl. by apply IH.
Qed.

(** X12: a layer definition without a [Name] sub-element is stored under
    the placeholder name [x]; unless a layer of that name is already in
    the table, [get_layers] raises [KeyError] for [x]. *)
Theorem layer_without_name_raises (layers_ref : layer_table) (layer : Element) :
  contains (namespace +:+ "LayerDefinition") (tag layer) = true →
  Forall (λ sub, ∃ p, second (split_on "}" (tag sub)) = Ok p ∧ p ≠ "Name")
         (children layer) →
  layers_ref !! Some "x" = None →
  get_layers_layer layers_ref layer = Raise (KeyError "x").
Proof.
  intros Htag Hsubs Hx. unfold get_layers_layer. rewrite Htag.
  destruct (get_layers_sub_no_name (children layer) layers_ref ∅ (Some "x") Hsubs)
    as [lv ->].
  simpl. by rewrite Hx.
Qed.

Lemma layer_without_name_raises_witness :
  get_layers_layer ∅ (elem "LayerDefinition" [] None [elem "Color" [] (Some "FF0000FF") []])
  = Raise (KeyError "x").
Proof.
  apply layer_without_name_raises.
  - reflexivity.
  - repeat constructor. exists "Color". split; [reflexivity|done].
  - reflexivity.
Defined.

Lemma get_layers_sub_keys (subs : list Element) :
  ∀ (lr lr' : layer_table) (lv lv' : gmap string (option string)) (nv nv' : option string),
    rfold get_layers_sub subs (lr, lv, nv) = Ok (lr', lv', nv') →
    (∀ k, is_Some (lr !! k) → is_Some (lr' !! k)) ∧
    (is_Some (lr !! nv) ∨ nv = Some "x" → is_Some (lr' !! nv') ∨ nv' = Some "x") ∧
    (∀ sub, sub ∈ subs → second (split_on "}" (tag sub)) = Ok "Name" →
            is_Some (lr' !! text sub)).
Proof.
  induction subs as [|sub subs IH]; intros lr lr' lv lv' nv nv'; simpl.
  - intros [= <- <- <-]. split_and!; [done..|]. by intros ? ?%elem_of_nil.
  - unfold get_layers_sub at 1.
    destruct (second (split_on "}" (tag sub))) as [p|e] eqn:Hp; [|done]. simpl.
    destruct (decide (p = "Name")) as [->|Hne]; simpl.
    + intros (Hmono & Hname & Hsubs)%IH.
      assert (∀ k, is_Some (lr !! k) → is_Some (setdefault (text sub) ∅ lr !! k)) as Hstep.
      { intros k [v Hv]. rewrite lookup_setdefault, Hv. eauto. }
      assert (is_Some (setdefault (text sub) ∅ lr !! text sub)) as Hnew.
      { rewrite lookup_setdefault. destruct (lr !! text sub); [eauto|].
        rewrite decide_True by done. eauto. }
      split_and!; [by auto|by auto|].
      intros s [->|Hin]%elem_of_cons Hs; [by apply Hmono|by apply Hsubs].
    + intros (Hmono & Hname & Hsubs)%IH. split_and!; [done..|].
      intros s [->|Hin]%elem_of_cons Hs; [congruence|by apply Hsubs].
Qed.

Lemma get_layers_layer_keys (lr lr' : layer_table) (layer : Element) :
  get_layers_layer lr layer = Ok lr' →
  (∀ k, is_Some (lr !! k) → is_Some (lr' !! k)) ∧
  (contains (namespace +:+ "LayerDefinition") (tag layer) = true →
   ∀ sub, sub ∈ children layer → second (split_on "}" (tag sub)) = Ok "Name" →
          is_Some (lr' !! text sub)).
Proof.
  unfold get_layers_layer. destruct (contains _ (tag layer)); [|by intros [= <-]].
  destruct (rfold get_layers_sub (children layer) (lr, ∅, Some "x"))
    as [[[lr1 lv] nv]|e] eqn:Hsubs; [|done]. simpl.
  destruct (lr1 !! nv) as [old|] eqn:Hold; [|done]. intros [= <-].
  apply get_layers_sub_keys in Hsubs as (Hmono & _ & Hnames).
  assert (∀ k, is_Some (lr1 !! k) → is_Some (<[nv := lv ∪ old]> lr1 !! k)) as Hins.
  { intros k Hk. destruct (decide (nv = k)) as [->|Hne].
    - rewrite lookup_insert_eq. eauto.
    - by rewrite lookup_insert_ne. }
  split; [by auto|]. intros _ sub Hin Hs. by apply Hins, Hnames.
Qed.

Lemma get_layers_layers_keys (layers : list Element) :
  ∀ (lr lr' : layer_table),
    rfold get_layers_layer layers lr = Ok lr' →
    (∀ k, is_Some (lr !! k) → is_Some (lr' !! k)) ∧
    (∀ layer sub, layer ∈ layers →
       contains (namespace +:+ "LayerDefinition") (tag layer) = true →
       sub ∈ children layer → second (split_on "}" (tag sub)) = Ok "Name" →
       is_Some (lr' !! text sub)).
Proof.
  induction layers as [|layer layers IH]; intros lr lr'; simpl.
  - intros [= <-]. split; [done|]. by intros ? ? ?%elem_of_nil.
  - destruct (get_layers_layer lr layer) as [lr1|e] eqn:Hlayer; [|done]. simpl.
    apply get_layers_layer_keys in Hlayer as [Hmono1 Hnames1].
    intros (Hmono & Hnames)%IH. split; [by auto|].
    intros l sub [->|Hin]%elem_of_cons Htag Hsub Hs; [by apply Hmono, Hnames1|].
    by eapply Hnames.
Qed.

Lemma get_layers_children_keys (cs : list Element) :
  ∀ (lr lr' : layer_table),
    rfold get_layers_child cs lr = Ok lr' →
    (∀ k, is_Some (lr !! k) → is_Some (lr' !! k)) ∧
    (∀ layer sub, layer ∈ layer_definitions (Elem "" ∅ None cs) →
       sub ∈ children layer → second (split_on "}" (tag sub)) = Ok "Name" →
       is_Some (lr' !! text sub)).
Proof.
  unfold layer_definitions. cbn [children].
  induction cs as [|c cs IH]; intros lr lr'; simpl.
  - intros [= <-]. split; [done|]. by intros ? ? ?%elem_of_nil.
  - unfold get_layers_child at 1.
    destruct (contains _ (tag c)) eqn:Htag; simpl.
    + destruct (rfold get_layers_layer (children c) lr) as [lr1|e] eqn:Hc; [|done]. simpl.
      apply get_layers_layers_keys in Hc as [Hmono1 Hnames1].
      intros (Hmono & Hnames)%IH. split; [by auto|].
      intros layer sub [Hin|Hin]%elem_of_app Hsub Hs; [|by eapply Hnames].
      apply list_elem_of_filter in Hin as [Hl Hin]. apply Hmono. by eapply Hnames1.
    + intros (Hmono & Hnames)%IH. split; [done|]. intros layer sub Hin. by eapply Hnames.
Qed.

(** X13: when [get_layers] succeeds, the text of every [Name] sub-element
    of every layer definition it visited is a key of the layer table. *)
Theorem layer_names_are_keys (root : Element) (layers : layer_table)
    (layer sub : Element) :
  get_layers_root root = Ok layers →
  layer ∈ layer_definitions root →
  sub ∈ children layer →
  second (split_on "}" (tag sub)) = Ok "Name" →
  is_Some (layers !! text sub).
Proof.
  unfold get_layers_root. intros Hrun Hlayer Hsub Hname.
  apply get_layers_children_keys in Hrun as [_ Hnames].
  eapply Hnames; [|exact Hsub|exact Hname]. by destruct root.
Qed.

Lemma layer_names_are_keys_witness :
  ∃ layers, get_layers_root library_example = Ok layers ∧ is_Some (layers !! Some "Kerb").
Proof.
  destruct (get_layers_root library_example) as [layers|e] eqn:Hrun; [|done].
  exists layers. split; [reflexivity|].
  apply (layer_names_are_keys library_example layers
           (elem "LayerDefinition" [] None
              [elem "Name" [] (Some "Kerb") []; elem "Color" [] (Some "FF0000FF") []])
           (elem "Name" [] (Some "Kerb") []) Hrun).
  - assert (layer_definitions library_example =
              [elem "LayerDefinition" [] None
                 [elem "Name" [] (Some "Kerb") []; elem "Color" [] (Some "FF0000FF") []];
               elem "LayerDefinition" [] None
                 [elem "Name" [] (Some "BenchMarks") [];
                  elem "Color" [] (Some "FFFF0000") []]]) as -> by reflexivity.
    left.
  - left.
  - reflexivity.
Defined.

(** ** When layer resolution fails, and what it depends on *)

Lemma get_layer_from_pcode_raise (code_layer_map : code_layer_table)
    (pcode_list : list string) : ∀ (start : gset string) (e : exn),
  rfold (get_layer_from_pcode_step code_layer_map) pcode_list start = Raise e →
  e = TypeError "can only concatenate str (not NoneType) to str" ∧
  ∃ pcode, pcode ∈ pcode_list ∧ code_layer_map !! Some pcode = Some None.
Proof.
  induction pcode_list as [|pcode l IH]; intros start e; simpl; [done|].
  unfold get_layer_from_pcode_step at 1.
  destruct (code_layer_map !! Some pcode) as [[layer|]|] eqn:E; simpl.
  - intros (-> & c & Hc & Hnone)%IH. split; [done|]. exists c. split; [by right|done].
  - intros [= <-]. split; [done|]. exists pcode. split; [by left|done].
  - intros (-> & c & Hc & Hnone)%IH. split; [done|]. exists c. split; [by right|done].
Qed.

Lemma get_layer_from_pcode_ok (code_layer_map : code_layer_table)
    (pcode_list : list string) (start needed_layers : gset string) :
  rfold (get_layer_from_pcode_step code_layer_map) pcode_list start = Ok needed_layers →
  ∀ pcode, pcode ∈ pcode_list → code_layer_map !! Some pcode ≠ Some None.
Proof.
  revert start. induction pcode_list as [|pcode l IH]; intros start; simpl.
  - by intros _ ? ?%elem_of_nil.
  - unfold get_layer_from_pcode_step at 1.
    destruct (code_layer_map !! Some pcode) as [[layer|]|] eqn:E; simpl; [|done|].
    + intros Hrun c [->|Hc]%elem_of_cons; [congruence|by eapply IH].
    + intros Hrun c [->|Hc]%elem_of_cons; [congruence|by eapply IH].
Qed.

(** X14: layer resolution fails exactly when some needed code is mapped to
    a missing [Layer] attribute ([None]), and then with a [TypeError], that
    of the string concatenation; in every other case it returns a set. *)
Theorem layer_resolution_failure (pcode_list : list string)
    (code_layer_map : code_layer_table) :
  ((∃ pcode, pcode ∈ pcode_list ∧ code_layer_map !! Some pcode = Some None) ∧
   ∃ what, get_layer_from_pcode pcode_list code_layer_map = Raise (TypeError what)) ∨
  ((∀ pcode, pcode ∈ pcode_list → code_layer_map !! Some pcode ≠ Some None) ∧
   ∃ needed_layers, get_layer_from_pcode pcode_list code_layer_map = Ok needed_layers).
Proof.
  unfold get_layer_from_pcode.
  destruct (rfold _ pcode_list {["Points"]}) as [needed_layers|e] eqn:Hrun.
  - right. split; [by eapply get_layer_from_pcode_ok|eauto].
  - left. apply get_layer_from_pcode_raise in Hrun as (-> & Hex). eauto.
Qed.

(** X15: the resolved layers depend on the needed codes as a set: two
    lists with the same elements, in any order and with any repetitions,
    give the same result. *)
Theorem layer_resolution_ignores_order (l1 l2 : list string)
    (code_layer_map : code_layer_table) :
  (∀ pcode, pcode ∈ l1 ↔ pcode ∈ l2) →
  get_layer_from_pcode l1 code_layer_map = get_layer_from_pcode l2 code_layer_map.
Proof.
  intros Hsame. unfold get_layer_from_pcode.
  destruct (rfold _ l1 {["Points"]}) as [s1|e1] eqn:H1,
           (rfold _ l2 {["Points"]}) as [s2|e2] eqn:H2.
  - f_equal. apply set_eq. intros layer.
    destruct (get_layer_from_pcode_from code_layer_map l1 {["Points"]}
                (get_layer_from_pcode_ok _ _ _ _ H1)) as (s1' & E1 & Hin1).
    destruct (get_layer_from_pcode_from code_layer_map l2 {["Points"]}
                (get_layer_from_pcode_ok _ _ _ _ H2)) as (s2' & E2 & Hin2).
    rewrite H1 in E1. rewrite H2 in E2. injection E1 as <-. injection E2 as <-.
    rewrite Hin1, Hin2. split.
    + intros [?|(c & Hc%Hsame & ?)]; [by left|right; eauto].
    + intros [?|(c & Hc%Hsame & ?)]; [by left|right; eauto].
  - apply get_layer_from_pcode_raise in H2 as (_ & c & Hc%Hsame & Hnone).
    by destruct (get_layer_from_pcode_ok _ _ _ _ H1 c Hc).
  - apply get_layer_from_pcode_raise in H1 as (_ & c & Hc%Hsame & Hnone).
    by destruct (get_layer_from_pcode_ok _ _ _ _ H2 c Hc).
  - apply get_layer_from_pcode_raise in H1 as (-> & _).
    by apply get_layer_from_pcode_raise in H2 as (-> & _).
Qed.

Lemma layer_resolution_ignores_order_witness :
  get_layer_from_pcode ["kb"; "xyz"; "kb"] {[Some "kb" := Some "Kerb"]} =
  get_layer_from_pcode ["xyz"; "kb"] {[Some "kb" := Some "Kerb"]}.
Proof.
  apply layer_resolution_ignores_order.
  intros pcode. rewrite !elem_of_cons, !elem_of_nil. tauto.
Defined.

(** ** The view *)

Section View.
Context {F : FloatOps}.
Implicit Types (w : world F).

Lemma get_float_cases (point : row_dict) (key : string) w :
  (coordinate_ok point key ∧ ∃ x, get_float point key w = (Ok x, w)) ∨
  (¬ coordinate_ok point key ∧ ∃ s, get_float point key w = (Raise (ValueError s), w)).
Proof.
  unfold coordinate_ok, get_float.
  destruct (cols point !! key) as [s|]; [|left; eauto].
  destruct (float_of_str s) as [x|]; [left; eauto|right].
  split; [by intros [? ?]|eauto].
Qed.

(** A loop whose body leaves the state of the script alone and can only
    raise [ValueError]: it runs through when every element is accepted,
    and raises [ValueError] otherwise, leaving the state alone as well. *)
Lemma foldM_value_errors {A B} (ok : A → Prop) (f : B → A → M B) (l : list A) :
  (∀ b a w, (ok a ∧ ∃ b', f b a w = (Ok b', w)) ∨
            (¬ ok a ∧ ∃ s, f b a w = (Raise (ValueError s), w))) →
  ∀ b w, (Forall ok l ∧ ∃ b', foldM f l b w = (Ok b', w)) ∨
         (¬ Forall ok l ∧ ∃ s, foldM f l b w = (Raise (ValueError s), w)).
Proof.
  intros Hf. induction l as [|a l IH]; intros b w; simpl.
  - left. split; [constructor|]. by exists b.
  - unfold bind. destruct (Hf b a w) as [[Ha [b' ->]]|[Ha [s ->]]].
    + destruct (IH b' w) as [[Hl [b'' ->]]|[Hl [s ->]]].
      * left. split; [by constructor|eauto].
      * right. split; [|eauto]. by intros [_ ?]%Forall_cons.
    + right. split; [|eauto]. by intros [? _]%Forall_cons.
Qed.

Lemma Forall_points_of_group (P : row_dict → Prop) (group : code_map) :
  Forall (λ kv : string * seq_map,
            Forall (λ sv : option Z * list row_dict, Forall P sv.2) kv.2) group ↔
  Forall P (points_of_group group).
Proof.
  unfold points_of_group. rewrite Forall_concat, Forall_fmap.
  apply Forall_proper; [|done]. intros [code seqs]. simpl.
  rewrite Forall_concat, Forall_fmap. done.
Qed.
End View.

(** X16: [set_dxf_view] reads the [Easting] and the [Northing] of the
    points of the Line group and nothing else. If all of them are numbers
    it returns after three calls on the document, the two limits and the
    view port, printing nothing; otherwise it raises [ValueError] before
    any call on the document. *)
Theorem view_setup_outcomes {F : FloatOps} (m : all_pts) (w : world F) :
  (Forall (λ point, coordinate_ok point "Easting" ∧ coordinate_ok point "Northing")
          (points_of_group (line_pts m)) ∧
   ∃ x1 y1 x2 y2 height cen_x cen_y,
     set_dxf_view (Some m) w =
       (Ok tt, World (csv_files w) (xml_files w) (needed_pcodes w) (stdout w)
                     (doc w ++ [SetLimits "$LIMMIN" x1 y1; SetLimits "$LIMMAX" x2 y2;
                                SetVport height cen_x cen_y]))) ∨
  (¬ Forall (λ point, coordinate_ok point "Easting" ∧ coordinate_ok point "Northing")
            (points_of_group (line_pts m)) ∧
   ∃ s, set_dxf_view (Some m) w = (Raise (ValueError s), w)).
Proof.
  pose proof (eq_refl (set_dxf_view (Some m) w)) as E.
  unfold set_dxf_view at 2, subscript in E. unfold bind at 1 in E.
  unfold ret at 1 in E. cbv zeta in E. unfold bind at 1 in E.
  match type of E with
  | context [foldM ?body (pts_of Line m) ?start w] =>
      assert (∀ b a w0,
                (Forall (λ sv : option Z * list row_dict,
                   Forall (λ point, coordinate_ok point "Easting" ∧
                                    coordinate_ok point "Northing") sv.2) a.2 ∧
                 ∃ b', body b a w0 = (Ok b', w0)) ∨
                (¬ Forall (λ sv : option Z * list row_dict,
                     Forall (λ point, coordinate_ok point "Easting" ∧
                                      coordinate_ok point "Northing") sv.2) a.2 ∧
                 ∃ s, body b a w0 = (Raise (ValueError s), w0))) as Hbody;
      [|destruct (foldM_value_errors _ body (pts_of Line m) Hbody start w)
          as [[Hok [st Hst]]|[Hbad [s Hs]]]]
  end.
  - intros b [code seqs] w0. apply foldM_value_errors.
    intros b1 [sequence pts] w1. apply foldM_value_errors.
    intros [[[[count min_x] min_y] max_x] max_y] point w2. unfold bind.
    destruct (get_float_cases point "Easting" w2) as [[Hx [x ->]]|[Hx [s ->]]].
    + destruct (get_float_cases point "Northing" w2) as [[Hy [y ->]]|[Hy [s ->]]].
      * left. split; [done|]. destruct (decide (count = 0)); eauto.
      * right. split; [by intros [_ ?]|eauto].
    + right. split; [by intros [? _]|eauto].
  - left. split; [by apply Forall_points_of_group|].
    rewrite E, Hst. destruct st as [[[[count min_x] min_y] max_x] max_y].
    do 7 eexists. unfold bind, emit. simpl. rewrite <- !app_assoc. reflexivity.
  - right. split; [by rewrite <- Forall_points_of_group|].
    exists s. by rewrite E, Hs.
Qed.

(** ** The labels of a point *)

Lemma pretty_N_go_not_N (x : N) : ∀ s, not_N s → not_N (pretty_N_go x s).
Proof.
  induction (N.lt_wf_0 x) as [x _ IH]; intros s Hs.
  assert (x = 0 ∨ 0 < x)%N as [->|Hpos] by lia.
  - by rewrite pretty_N_go_0.
  - rewrite pretty_N_go_step by done. apply IH.
    + by apply N.div_lt.
    + simpl. unfold pretty_N_char. by repeat case_match.
Qed.

Lemma pretty_Z_not_N (z : Z) : not_N (pretty z).
Proof.
  destruct z as [|p|p]; [done| |done].
  by apply (pretty_N_go_not_N (N.pos p) "").
Qed.

(** The text of the differentiator after the test of [add_attrib_text]. *)
Lemma sequence_text_label (sequence : option Z) :
  (if decide (fmt_sequence sequence = "None" ∨ fmt_sequence sequence = "-1")
   then "" else fmt_sequence sequence) = sequence_label sequence.
Proof.
  destruct sequence as [z|]; unfold fmt_sequence, sequence_label.
  - destruct (decide (z = -1)) as [->|Hne]; [reflexivity|].
    destruct (decide (pretty z = "None" ∨ pretty z = "-1")) as [[H|H]|_]; [| |done].
    + pose proof (pretty_Z_not_N z) as Hz. rewrite H in Hz. by destruct Hz.
    + change "-1" with (pretty (-1)) in H. by apply (inj pretty) in H.
  - reflexivity.
Qed.

Section Labels.
Context {F : FloatOps}.
Implicit Types (w : world F).
Local Open Scope M_scope.

Lemma second_cases (l : list string) : (∃ x, second l = Ok x) ∨ second l = Raise IndexError.
Proof. unfold second. destruct (l !! 1%nat); eauto. Qed.

(** The loop over the attributes of a point: it stops with [IndexError]
    at the first key without a colon; on the way it prints nothing. *)
Lemma attrib_loop (x y : float) (attribs : list (string * string)) : ∀ (count : Z) w,
  (¬ Exists no_colon attribs ∧
   ∃ count' w',
     foldM (λ count '(attrib_key, attrib_value),
              label <- lift (second (split_on ":" attrib_key)) ;;
              emit (AddMText ("\H0.5x;" +:+ label +:+ ": \H1x;" +:+ attrib_value)
                             x y count) ;;
              ret (count + 1))
           attribs count w = (Ok count', w')) ∨
  (Exists no_colon attribs ∧
   ∃ w',
     foldM (λ count '(attrib_key, attrib_value),
              label <- lift (second (split_on ":" attrib_key)) ;;
              emit (AddMText ("\H0.5x;" +:+ label +:+ ": \H1x;" +:+ attrib_value)
                             x y count) ;;
              ret (count + 1))
           attribs count w = (Raise IndexError, w')).
Proof.
  induction attribs as [|[key value] attribs IH]; intros count w.
  - left. split; [by intros ?%Exists_nil|]. by exists count, w.
  - cbn [foldM]. unfold bind at 1. unfold bind at 1. unfold lift at 1.
    destruct (second_cases (split_on ":" key)) as [[label Hl]|Hl].
    + rewrite Hl. unfold bind at 1. unfold emit at 1. unfold ret at 1.
      match goal with
      | |- context [foldM _ attribs ?c ?w1] => destruct (IH c w1) as [[Hn H]|[Hn H]]
      end.
      * left. split; [|exact H]. intros [Hk|?]%Exists_cons; [|done].
        unfold no_colon in Hk. simpl in Hk. apply second_split_on in Hk. congruence.
      * right. split; [by right|exact H].
    + rewrite Hl. right. split; [|by exists w].
      left. unfold no_colon. simpl. by apply second_split_on.
Qed.
End Labels.

(** X17: for a survey row of exactly five columns whose coordinates are
    numbers, [add_attrib_text] draws the point on the layer [points_]
    followed by the layer name and writes three labels: the code it is
    given followed by the differentiator, unless that is absent or [-1],
    the height and the point number as the survey file spells them. It
    prints nothing and does not raise. *)
Theorem labels_of_plain_row {F : FloatOps}
    (n e nn h c pcode point_code layer_name : string) (sequence : option Z)
    (x y z : float) (w : world F) :
  float_of_str e = Some x → float_of_str nn = Some y → float_of_str h = Some z →
  add_attrib_text (make_row_dict [n; e; nn; h; c] pcode sequence) point_code layer_name w =
    (Ok tt,
     World (csv_files w) (xml_files w) (needed_pcodes w) (stdout w)
           (doc w ++ [AddPoint x y z ("points_" +:+ layer_name);
                      AddText ("Code: " +:+ point_code +:+ sequence_label sequence)
                              x y 1 "Point Code";
                      AddText ("Z = " +:+ h) x y 2 "Point Height";
                      AddText ("PtNum: " +:+ n) x y 3 "Point Number"])).
Proof.
  intros Hx Hy Hz.
  set (point := make_row_dict [n; e; nn; h; c] pcode sequence).
  assert (cols point !! "PointNumber" = Some n ∧ cols point !! "Easting" = Some e ∧
          cols point !! "Northing" = Some nn ∧ cols point !! "Height" = Some h ∧
          cols point !! "Sequence" = Some (fmt_sequence sequence))
    as (Hn & He & Hnn & Hh & Hs).
  { subst point. unfold make_row_dict. cbn [cols]. simpl. split_and!;
      rewrite ?lookup_insert_ne by done; by rewrite ?lookup_insert_eq. }
  assert (attrib_of point = None) as Ha by reflexivity.
  clearbody point.
  unfold add_attrib_text, get_float, get_col.
  rewrite He, Hnn, Hh, Hn, Hs, Ha, Hx, Hy, Hz. cbv zeta. cbn [default]. unfold id.
  rewrite sequence_text_label.
  unfold bind, ret, emit. cbn [csv_files xml_files needed_pcodes stdout doc].
  rewrite <- !app_assoc. reflexivity.
Qed.

Lemma labels_of_plain_row_witness :
  add_attrib_text (F := ZCoords) (make_row_dict ["7"; "100"; "200"; "10"; "kb1"] "kb" (Some 1))
    "kb" "Kerb" (world_example CsvNotFound) =
  (Ok tt,
   World (csv_files (world_example CsvNotFound)) (xml_files (world_example CsvNotFound)) [] []
         [AddPoint (F := ZCoords) 100 200 10 "points_Kerb";
          AddText (F := ZCoords) "Code: kb1" 100 200 1 "Point Code";
          AddText (F := ZCoords) "Z = 10" 100 200 2 "Point Height";
          AddText (F := ZCoords) "PtNum: 7" 100 200 3 "Point Number"]).
Proof.
  apply (labels_of_plain_row (F := ZCoords) "7" "100" "200" "10" "kb1" "kb" "kb" "Kerb"
           (Some 1) 100 200 10 (world_example CsvNotFound)); reflexivity.
Defined.

(** X18: [add_attrib_text] raises [IndexError] exactly when the three
    coordinates of the point are numbers and one of its attribute keys has
    no colon. *)
Theorem attribute_key_without_colon {F : FloatOps} (point : row_dict)
    (point_code layer_name : string) (w : world F) :
  (∃ w', add_attrib_text point point_code layer_name w = (Raise IndexError, w')) ↔
  coordinate_ok point "Easting" ∧ coordinate_ok point "Northing" ∧
  coordinate_ok point "Height" ∧
  ∃ attribs, attrib_of point = Some attribs ∧ Exists no_colon attribs.
Proof.
  unfold add_attrib_text. unfold bind at 1.
  destruct (get_float_cases point "Easting" w) as [[Hx [x ->]]|[Hx [s ->]]];
    [|split; [by intros [? ?]|by intros [? _]]].
  unfold bind at 1.
  destruct (get_float_cases point "Northing" w) as [[Hy [y ->]]|[Hy [s ->]]];
    [|split; [by intros [? ?]|by intros (_ & ? & _)]].
  unfold bind at 1.
  destruct (get_float_cases point "Height" w) as [[Hz [z ->]]|[Hz [s ->]]];
    [|split; [by intros [? ?]|by intros (_ & _ & ? & _)]].
  unfold bind at 1.
  destruct (attrib_of point) as [attribs|].
  - unfold bind at 1.
    destruct (attrib_loop x y attribs 0 w) as [[Hn (c' & w1 & ->)]|[Hn (w1 & ->)]].
    + split; [|by intros (_ & _ & _ & ? & [= <-] & ?)].
      intros [w' Hrun]. exfalso. revert Hrun.
      unfold bind, print, emit, ret, raise, get_col.
      destruct (cols point !! "Height"), (cols point !! "PointNumber");
        cbv beta iota; discriminate.
    + split; [|by exists w1]. intros _. split_and!; [done..|]. by exists attribs.
  - split; [|by intros (_ & _ & _ & ? & ? & _)].
    intros [w' Hrun]. exfalso. revert Hrun.
    unfold bind, print, emit, ret, raise, get_col.
    destruct (cols point !! "Height"), (cols point !! "PointNumber");
      cbv beta iota; discriminate.
Qed.

(** ** Writing the output file *)

Section SavesLast.
Context {F : FloatOps}.
Implicit Types (w : world F).

Hint Resolve no_save_get_float no_save_get_col no_save_vertex no_save_add_attrib_text
  no_save_create_blocks : nosave.

Lemma no_save_draw_points (point_codes_dict : code_table) (group : code_map) :
  no_save (draw_points point_codes_dict group).
Proof. unfold draw_points. cbv zeta. no_save_steps. Qed.

Lemma no_save_keeps {A} (m : M A) w (r : result A) w' :
  no_save m → m w = (r, w') → ¬ saves w → ¬ saves w'.
Proof. intros Hm Hrun Hw Hs. apply Hw. by eapply Hm. Qed.

Lemma saves_last_emit (path : string) : saves_last path (emit (SaveAs path)).
Proof.
  intros w r w' [= <- <-] Hw. exists (doc w). split; [done|].
  intros p Hp. apply Hw. by exists p.
Qed.

Lemma saves_last_bind {A} (path : string) (m : M A) (f : A → M unit) :
  no_save m → (∀ a, saves_last path (f a)) → saves_last path (bind m f).
Proof.
  intros Hm Hf w r w'. unfold bind. destruct (m w) as [[a|e] w1] eqn:E.
  - intros Hrun Hw. eapply Hf; [exact Hrun|]. by eapply no_save_keeps.
  - intros [= <- <-] Hw. by eapply no_save_keeps.
Qed.

Lemma saves_last_create_dxf (output : string) (layers : layer_table)
    (survey : option all_pts) (pcd lcd : code_table) (needed_layers : gset string) :
  saves_last output (create_dxf output layers survey pcd lcd needed_layers).
Proof.
  unfold create_dxf.
  apply saves_last_bind; [apply no_save_create_dxf_setup|intros _].
  apply saves_last_bind; [apply no_save_subscript|intros lines].
  apply saves_last_bind; [apply no_save_draw_chains|intros _].
  apply saves_last_bind; [apply no_save_subscript|intros unknowns].
  apply saves_last_bind; [apply no_save_draw_chains|intros _].
  apply saves_last_bind; [apply no_save_subscript|intros points].
  apply saves_last_bind; [apply no_save_draw_points|intros _].
  apply saves_last_emit.
Qed.

Lemma saves_last_main (library survey output : string) :
  saves_last output (main library survey output).
Proof.
  unfold main.
  apply saves_last_bind; [auto with nosave|intros _].
  apply saves_last_bind; [apply no_save_get_layers|intros layers].
  apply saves_last_bind; [apply no_save_get_codes|intros [[pcd lcd] code_layer_map]].
  cbv zeta.
  apply saves_last_bind; [apply no_save_get_survey|intros index].
  apply saves_last_bind; [apply no_save_set_dxf_view|intros _].
  apply saves_last_bind; [auto with nosave|intros needed].
  apply saves_last_bind; [auto with nosave|intros needed_layers].
  apply saves_last_create_dxf.
Qed.

(** The loop of [create_blocks] over a list of codes. *)
Lemma create_blocks_loop (codes : list string) : ∀ w,
  forM codes (λ needed_pcode,
    match POINTCODE_TO_TEXT !! needed_pcode with
    | Some block_text => emit (CreateBlock (block_text +:+ "_Block") block_text)
    | None => ret tt
    end) w =
  (Ok tt, World (csv_files w) (xml_files w) (needed_pcodes w) (stdout w)
                (doc w ++ omap (λ code, (λ block_text,
                                           CreateBlock (block_text +:+ "_Block") block_text)
                                        <$> POINTCODE_TO_TEXT !! code) codes)).
Proof.
  unfold forM. induction codes as [|code codes IH]; intros w.
  - simpl. unfold ret. rewrite app_nil_r. by destruct w.
  - cbn [foldM omap list_omap]. unfold bind at 1.
    destruct (POINTCODE_TO_TEXT !! code) as [block_text|]; cbn [fmap option_fmap option_map].
    + unfold emit at 1. rewrite IH. cbn [csv_files xml_files needed_pcodes stdout doc].
      by rewrite <- app_assoc.
    + unfold ret at 1. by rewrite IH.
Qed.
End SavesLast.

(** X19: [create_dxf] writes the output file as its last call on the
    document when it returns, under the path it is given; when it raises,
    whichever loop raises, no file is written. Nothing before the last
    call writes a file. *)
Theorem output_written_on_return {F : FloatOps} (output : string) (layers : layer_table)
    (survey : option all_pts) (pcd lcd : code_table) (needed_layers : gset string)
    (w w' : world F) (r : result unit) :
  ¬ saves w →
  create_dxf output layers survey pcd lcd needed_layers w = (r, w') →
  match r with
  | Ok _ => ∃ calls, doc w' = calls ++ [SaveAs output] ∧ ∀ path, SaveAs path ∉ calls
  | Raise _ => ¬ saves w'
  end.
Proof. intros Hw Hrun. by apply (saves_last_create_dxf _ _ _ _ _ _ w r w' Hrun). Qed.

Lemma output_written_on_return_witness :
  ∃ w' calls,
    create_dxf (F := ZCoords) "out.dxf" ∅ (Some (AllPts [] [] [])) ∅ ∅ {["Points"]}
      (world_example CsvNotFound) = (Ok tt, w') ∧
    doc w' = calls ++ [SaveAs "out.dxf"] ∧
    ∀ path, SaveAs path ∉ calls.
Proof.
  destruct (create_dxf (F := ZCoords) "out.dxf" ∅ (Some (AllPts [] [] [])) ∅ ∅ {["Points"]}
              (world_example CsvNotFound)) as [r w'] eqn:Hrun.
  assert (r = Ok tt) as ->.
  { change r with (r, w').1. rewrite <- Hrun. vm_compute. reflexivity. }
  assert (¬ saves (world_example CsvNotFound)) as Hw.
  { intros [path Hpath]. by apply elem_of_nil in Hpath. }
  destruct (output_written_on_return (F := ZCoords) "out.dxf" ∅ (Some (AllPts [] [] [])) ∅ ∅
              {["Points"]} (world_example CsvNotFound) w' (Ok tt) Hw Hrun)
    as (calls & Hdoc & Hcalls).
  exists w', calls. split; [reflexivity|]. split; [exact Hdoc|exact Hcalls].
Defined.

(** X20: the script writes the output file exactly when it ends without
    an exception, and then as its last call on the document; an exception
    in any step, from reading the library to the drawing loops, leaves no
    output file. *)
Theorem script_writes_on_return {F : FloatOps} (library survey output : string)
    (w w' : world F) (r : result unit) :
  ¬ saves w →
  main library survey output w = (r, w') →
  match r with
  | Ok _ => ∃ calls, doc w' = calls ++ [SaveAs output] ∧ ∀ path, SaveAs path ∉ calls
  | Raise _ => ¬ saves w'
  end.
Proof. intros Hw Hrun. by apply (saves_last_main _ _ _ w r w' Hrun). Qed.

Lemma script_writes_on_return_witness :
  ∃ w' calls,
    main (F := ZCoords) "library.fxl" "survey.csv" "out.dxf"
      (world_example (CsvRows survey_rows_example)) = (Ok tt, w') ∧
    doc w' = calls ++ [SaveAs "out.dxf"] ∧
    ∀ path, SaveAs path ∉ calls.
Proof.
  destruct (main (F := ZCoords) "library.fxl" "survey.csv" "out.dxf"
              (world_example (CsvRows survey_rows_example))) as [r w'] eqn:Hrun.
  assert (r = Ok tt) as ->.
  { change r with (r, w').1. rewrite <- Hrun. vm_compute. reflexivity. }
  assert (¬ saves (world_example (CsvRows survey_rows_example))) as Hw.
  { intros [path Hpath]. by apply elem_of_nil in Hpath. }
  destruct (script_writes_on_return (F := ZCoords) "library.fxl" "survey.csv" "out.dxf"
              (world_example (CsvRows survey_rows_example)) w' (Ok tt) Hw Hrun)
    as (calls & Hdoc & Hcalls).
  exists w', calls. split; [reflexivity|]. split; [exact Hdoc|exact Hcalls].
Defined.

(** X21: a library that cannot be parsed, or in which [get_layers]
    raises, ends the script with that exception before the survey is
    opened: unlike the errors of opening the survey file, it is not
    caught, and nothing is printed or drawn. *)
Theorem library_failure_stops_script {F : FloatOps} (library survey output : string)
    (e : exn) (w : world F) :
  xml_files w library = XmlFails e ∨
  (∃ root, xml_files w library = XmlRoot root ∧ get_layers_root root = Raise e) →
  main library survey output w =
    (Raise e, World (csv_files w) (xml_files w) [] (stdout w) (doc w)).
Proof.
  intros Hlib. unfold main, get_layers, parse, set_needed, lift, bind.
  cbn [xml_files].
  destruct Hlib as [->|(root & -> & ->)]; reflexivity.
Qed.

Lemma library_failure_stops_script_witness :
  main (F := ZCoords) "missing.fxl" "survey.csv" "out.dxf"
       (world_example (CsvRows survey_rows_example)) =
  (Raise (OSError "missing.fxl"),
   World (csv_files (world_example (CsvRows survey_rows_example)))
         (xml_files (world_example (CsvRows survey_rows_example))) [] [] []).
Proof.
  apply (library_failure_stops_script (F := ZCoords) "missing.fxl" "survey.csv" "out.dxf"
           (OSError "missing.fxl") (world_example (CsvRows survey_rows_example))).
  left. reflexivity.
Defined.

(** No two codes of [POINTCODE_TO_TEXT] have the same text. *)
Lemma POINTCODE_TO_TEXT_inj (code1 code2 text : string) :
  POINTCODE_TO_TEXT !! code1 = Some text → POINTCODE_TO_TEXT !! code2 = Some text →
  code1 = code2.
Proof.
  assert (Forall (λ p : string * string,
            Forall (λ q : string * string, p.2 = q.2 → p.1 = q.1)
                   (map_to_list POINTCODE_TO_TEXT))
            (map_to_list POINTCODE_TO_TEXT)) as Hall
    by (apply (bool_decide_unpack _); vm_compute; exact I).
  intros H1%elem_of_map_to_list H2%elem_of_map_to_list.
  rewrite Forall_forall in Hall. specialize (Hall _ H1).
  rewrite Forall_forall in Hall. exact (Hall _ H2 eq_refl).
Qed.

Lemma NoDup_omap_inj {A B} (f : A → option B) (l : list A) :
  (∀ x y z, f x = Some z → f y = Some z → x = y) → NoDup l → NoDup (omap f l).
Proof.
  intros Hf. induction 1 as [|a l Ha Hl IH]; [constructor|].
  cbn [omap list_omap]. destruct (f a) as [b|] eqn:Hb; [|exact IH].
  constructor; [|exact IH].
  intros (y & Hy & Hfy)%list_elem_of_omap.
  by rewrite (Hf a y b Hb Hfy) in Ha.
Qed.

(** X22: when no needed code is listed twice, as after [get_survey],
    [create_blocks] creates one block for each needed code that has an
    entry in [POINTCODE_TO_TEXT], in the order of the needed codes and
    named after the text of the entry, does nothing for the other codes,
    and creates no block twice. *)
Theorem blocks_are_created_once {F : FloatOps} (w : world F) :
  NoDup (needed_pcodes w) →
  ∃ blocks,
    blocks = omap (λ code, (λ block_text, CreateBlock (block_text +:+ "_Block") block_text)
                           <$> POINTCODE_TO_TEXT !! code)
                  (needed_pcodes w) ∧
    NoDup blocks ∧
    create_blocks w =
      (Ok tt, World (csv_files w) (xml_files w) (needed_pcodes w) (stdout w)
                    (doc w ++ blocks)).
Proof.
  intros Hneeded. eexists. split; [reflexivity|]. split.
  - apply NoDup_omap_inj; [|done]. intros code1 code2 d H1 H2.
    destruct (POINTCODE_TO_TEXT !! code1) as [t1|] eqn:E1; [|done].
    destruct (POINTCODE_TO_TEXT !! code2) as [t2|] eqn:E2; [|done].
    simpl in H1, H2. injection H1 as <-. injection H2 as _ ->.
    exact (POINTCODE_TO_TEXT_inj _ _ _ E1 E2).
  - unfold create_blocks, get_needed. unfold bind at 1. apply create_blocks_loop.
Qed.

Lemma blocks_are_created_once_witness :
  ∃ blocks,
    blocks = [CreateBlock (F := ZCoords) "A.V._Block" "A.V."; CreateBlock "Tee_Block" "Tee"] ∧
    NoDup blocks ∧
    create_blocks (World (csv_files (world_example CsvNotFound))
                         (xml_files (world_example CsvNotFound))
                         ["wmf_av"; "kb"; "wmf_tp"] [] []) =
      (Ok tt, World (csv_files (world_example CsvNotFound))
                    (xml_files (world_example CsvNotFound))
                    ["wmf_av"; "kb"; "wmf_tp"] [] blocks).
Proof.
  apply (blocks_are_created_once (F := ZCoords)
           (World (csv_files (world_example CsvNotFound))
                  (xml_files (world_example CsvNotFound))
                  ["wmf_av"; "kb"; "wmf_tp"] [] [])).
  apply (bool_decide_unpack _). vm_compute. exact I.
Defined.

(** ** The drawing loops *)

Section Returns.
Context {F : FloatOps} {B : Type}.
Variable proj : draw_call F → option B.
Implicit Types (w : world F).
Local Open Scope M_scope.

Lemma returns_ret {A} (a : A) w : returns_with proj (ret a) w a [].
Proof. exists w, []. by rewrite app_nil_r. Qed.

Lemma returns_lift {A} (a : A) w : returns_with proj (lift (Ok a)) w a [].
Proof. exists w, []. by rewrite app_nil_r. Qed.

Lemma returns_print (m : msg) w : returns_with proj (print m) w tt [].
Proof. eexists _, []. split; [reflexivity|]. by rewrite app_nil_r. Qed.

Lemma returns_emit (d : draw_call F) w : returns_with proj (emit d) w tt (omap proj [d]).
Proof. by eexists _, [d]. Qed.

Lemma returns_bind {A C} (m : M A) (f : A → M C) w (a : A) (c : C) (out1 out2 : list B) :
  returns_with proj m w a out1 →
  (∀ w', returns_with proj (f a) w' c out2) →
  returns_with proj (bind m f) w c (out1 ++ out2).
Proof.
  intros (w1 & calls1 & Hm & Hdoc1 & <-) Hf.
  destruct (Hf w1) as (w2 & calls2 & Hfa & Hdoc2 & <-).
  exists w2, (calls1 ++ calls2). unfold bind. rewrite Hm. split; [done|].
  split; [by rewrite Hdoc2, Hdoc1, app_assoc|by rewrite omap_app].
Qed.

Lemma returns_bind_nil {A C} (m : M A) (f : A → M C) w (a : A) (c : C) :
  returns_with proj m w a [] →
  (∀ w', returns_with proj (f a) w' c []) →
  returns_with proj (bind m f) w c [].
Proof. intros Hm Hf. by apply (returns_bind m f w a c [] []). Qed.

Lemma returns_out {A} (m : M A) w (a : A) (out out' : list B) :
  returns_with proj m w a out → out = out' → returns_with proj m w a out'.
Proof. by intros H <-. Qed.

Lemma returns_get_float (point : row_dict) (key : string) w :
  coordinate_ok point key →
  returns_with proj (get_float point key) w (coordinate point key) [].
Proof.
  unfold coordinate_ok, get_float, coordinate.
  destruct (cols point !! key) as [s|]; [|intros _; apply returns_ret].
  intros [x ->]. apply returns_ret.
Qed.

Lemma returns_get_col (point : row_dict) (key s : string) w :
  cols point !! key = Some s → returns_with proj (get_col point key) w s [].
Proof. unfold get_col. intros ->. apply returns_ret. Qed.

Lemma returns_vertex (point : row_dict) w :
  drawable point → returns_with proj (vertex point) w (location point) [].
Proof.
  intros (Hx & Hy & Hz & _). unfold vertex.
  eapply returns_bind_nil; [by apply returns_get_float|intros w1].
  eapply returns_bind_nil; [by apply returns_get_float|intros w2].
  eapply returns_bind_nil; [by apply returns_get_float|intros w3].
  apply returns_ret.
Qed.

Hypothesis proj_label : ∀ d, is_label d = true → proj d = None.

Lemma returns_label (d : draw_call F) w :
  is_label d = true → returns_with proj (emit d) w tt [].
Proof.
  intros Hd. eapply returns_out; [apply returns_emit|].
  simpl. by rewrite proj_label.
Qed.

Lemma returns_attrib_loop (x y : float) (attribs : list (string * string)) :
  ¬ Exists no_colon attribs →
  ∀ (count : Z) w,
    returns_with proj
      (foldM (λ count '(attrib_key, attrib_value),
                label <- lift (second (split_on ":" attrib_key)) ;;
                emit (AddMText ("\H0.5x;" +:+ label +:+ ": \H1x;" +:+ attrib_value)
                               x y count) ;;
                ret (count + 1))
             attribs count) w (count + Z.of_nat (length attribs)) [].
Proof.
  induction attribs as [|[key value] attribs IH]; intros Hkeys count w.
  - simpl. rewrite Z.add_0_r. apply returns_ret.
  - cbn [foldM length].
    replace (count + Z.of_nat (S (length attribs)))
      with ((count + 1) + Z.of_nat (length attribs)) by lia.
    destruct (second_cases (split_on ":" key)) as [[label Hl]|Hl].
    + apply (returns_bind_nil _ _ _ (count + 1));
        [|intros w1; apply IH; intros H; apply Hkeys; by right].
      eapply returns_bind_nil; [rewrite Hl; apply returns_lift|intros w1].
      eapply returns_bind_nil; [by apply returns_label|intros w2].
      apply returns_ret.
    + destruct Hkeys. left. unfold no_colon. simpl. by apply second_split_on.
Qed.
End Returns.

Section Labelling.
Context {F : FloatOps} {B : Type}.
Variable proj : draw_call F → option B.
Hypothesis proj_label : ∀ d, is_label d = true → proj d = None.
Implicit Types (w : world F).

(** [add_attrib_text] on a point that it can draw: it returns, and all
    its calls are labels. *)
Lemma returns_add_attrib_text (point : row_dict) (point_code layer : string) w :
  drawable point →
  returns_with proj (add_attrib_text point point_code layer) w tt [].
Proof.
  intros (Hx & Hy & Hz & Ha & [height Hh] & [number Hn]). unfold add_attrib_text.
  eapply returns_bind_nil; [by apply returns_get_float|intros w1].
  eapply returns_bind_nil; [by apply returns_get_float|intros w2].
  eapply returns_bind_nil; [by apply returns_get_float|intros w3].
  apply (returns_bind_nil _ _ _ _ tt).
  { destruct (attrib_of point) as [attribs|]; [|apply returns_ret].
    eapply returns_bind_nil; [by apply returns_attrib_loop|intros w4].
    apply returns_print. }
  intros w4. cbv zeta.
  eapply returns_bind_nil; [by apply returns_label|intros w5].
  eapply returns_bind_nil; [by apply returns_label|intros w6].
  eapply returns_bind_nil; [by apply returns_get_col|intros w7].
  eapply returns_bind_nil; [by apply returns_label|intros w8].
  eapply returns_bind_nil; [by apply returns_get_col|intros w9].
  by apply returns_label.
Qed.
End Labelling.

Section LabellingReturns.
Context {F : FloatOps}.
Implicit Types (w : world F).
Local Open Scope M_scope.

(** [add_attrib_text] returns only for a point that it can draw. *)
Lemma add_attrib_text_ok (point : row_dict) (point_code layer : string) w (r : unit) w' :
  add_attrib_text point point_code layer w = (Ok r, w') → drawable point.
Proof.
  destruct r. unfold add_attrib_text, drawable. unfold bind at 1.
  destruct (get_float_cases point "Easting" w) as [[Hx [x ->]]|[Hx [s ->]]]; [|done].
  unfold bind at 1.
  destruct (get_float_cases point "Northing" w) as [[Hy [y ->]]|[Hy [s ->]]]; [|done].
  unfold bind at 1.
  destruct (get_float_cases point "Height" w) as [[Hz [z ->]]|[Hz [s ->]]]; [|done].
  unfold bind at 1.
  assert (∀ w1 : world F,
            (∃ w', (emit (AddPoint x y z ("points_" +:+ layer)) ;;
                    let sequence_text := default "" (cols point !! "Sequence") in
                    let sequence_text :=
                      if decide (sequence_text = "None" ∨ sequence_text = "-1")
                      then "" else sequence_text in
                    emit (AddText ("Code: " +:+ point_code +:+ sequence_text) x y 1
                                  "Point Code") ;;
                    height <- get_col point "Height" ;;
                    emit (AddText ("Z = " +:+ height) x y 2 "Point Height") ;;
                    point_number <- get_col point "PointNumber" ;;
                    emit (AddText ("PtNum: " +:+ point_number) x y 3 "Point Number"))%M
                     w1 = (Ok tt, w')) →
            is_Some (cols point !! "Height") ∧ is_Some (cols point !! "PointNumber"))
    as Htail.
  { intros w1 [w2 Hrun]. revert Hrun. unfold bind, emit, get_col, ret, raise.
    destruct (cols point !! "Height"), (cols point !! "PointNumber");
      cbv beta iota zeta; [by eauto|discriminate..]. }
  destruct (attrib_of point) as [attribs|].
  - unfold bind at 1.
    destruct (attrib_loop x y attribs 0 w) as [[Hn (c' & w1 & ->)]|[Hn (w1 & ->)]];
      [|done].
    unfold bind at 1, print at 1. intros Hrun.
    split_and!; [done..|eapply Htail; eauto|eapply Htail; eauto].
  - unfold ret at 1. intros Hrun.
    split_and!; [done..|eapply Htail; eauto|eapply Htail; eauto].
Qed.
End LabellingReturns.

(** X23: [add_attrib_text] returns exactly for the points whose three
    coordinates are numbers, whose attribute keys all have a colon and
    which have the entries [Height] and [PointNumber]; for every other
    point it raises. *)
Theorem labels_drawn_iff_drawable {F : FloatOps} (point : row_dict)
    (point_code layer : string) (w : world F) :
  (∃ w', add_attrib_text point point_code layer w = (Ok tt, w')) ↔ drawable point.
Proof.
  split.
  - intros [w' Hrun]. by eapply add_attrib_text_ok.
  - intros Hpoint.
    destruct (returns_add_attrib_text (λ _, @None unit) (λ _ _, eq_refl) point point_code
                layer w Hpoint) as (w' & _ & Hrun & _).
    by exists w'.
Qed.

Section Loops.
Context {F : FloatOps}.
Implicit Types (w : world F).
Local Open Scope M_scope.

Lemma block_ref_label (d : draw_call F) : is_label d = true → block_ref d = None.
Proof. by destruct d. Qed.

Lemma polyline_label (d : draw_call F) : is_label d = true → polyline d = None.
Proof. by destruct d. Qed.

Lemma layer_of_name (codes_dict : code_table) (point_code layer : string) :
  layer_name codes_dict point_code = Some layer →
  layer_of codes_dict point_code = Ok layer.
Proof.
  unfold layer_name, layer_of.
  destruct (codes_dict !! Some point_code) as [attribs|]; [simpl|done].
  by intros ->.
Qed.

Lemma growing_app {A} (l1 l2 : list A) : ∀ acc,
  growing acc (l1 ++ l2) = growing acc l1 ++ growing (acc ++ l1) l2.
Proof.
  induction l1 as [|a l1 IH]; intros acc; simpl.
  - by rewrite app_nil_r.
  - rewrite IH. by rewrite <- app_assoc.
Qed.

Lemma length_concat_growing {A} (l : list A) : ∀ acc,
  (2 * length (concat (growing acc l)) =
   2 * length l * length acc + length l * (length l + 1))%nat.
Proof.
  induction l as [|a l IH]; intros acc; cbn [growing concat length]; [lia|].
  pose proof (IH (acc ++ [a])) as Hl. rewrite length_app in Hl. cbn [length] in Hl.
  rewrite !length_app. cbn [length]. nia.
Qed.

(** [insert_block]: one reference for each location. *)
Lemma returns_block_refs (block_name : string) (locations : list (float * float * float)) :
  ∀ w, returns_with block_ref
         (forM locations (λ location, emit (AddBlockRef block_name location))) w tt
         ((λ loc, (block_name, loc)) <$> locations).
Proof.
  unfold forM. induction locations as [|loc locations IH]; intros w.
  - apply returns_ret.
  - cbn [foldM fmap list_fmap].
    apply (returns_bind block_ref _ _ w tt tt [(block_name, loc)]);
      [exact (returns_emit block_ref (AddBlockRef block_name loc) w)|intros w1; apply IH].
Qed.

(** The loop over the points of one sequence in the loop over
    [survey['Point']]. *)
Lemma draw_points_inner (needs_block : bool) (point_code layer_name lead_text block_name : string)
    (pts : list row_dict) :
  Forall drawable pts →
  ∀ (locations : list (float * float * float)) w,
    returns_with block_ref
      (foldM (λ locations point,
                locations <-
                  (if needs_block then
                     v <- vertex point ;;
                     x <- get_float point "Easting" ;;
                     y <- get_float point "Northing" ;;
                     emit (AddMultiLeader lead_text x y) ;;
                     ret (locations ++ [v])
                   else ret locations) ;;
                add_attrib_text point point_code layer_name ;;
                (if needs_block
                 then forM locations (λ location, emit (AddBlockRef block_name location))
                 else ret tt) ;;
                ret locations)
             pts locations)
      w
      (if needs_block then locations ++ (location <$> pts) else locations)
      (if needs_block
       then (λ loc, (block_name, loc)) <$> concat (growing locations (location <$> pts))
       else []).
Proof.
  destruct needs_block.
  - induction pts as [|point pts IH]; intros Hpts locations w.
    + cbn. rewrite app_nil_r. apply returns_ret.
    + apply Forall_cons in Hpts as [Hpoint Hpts].
      cbn [foldM fmap list_fmap growing concat]. rewrite fmap_app.
      replace (locations ++ location point :: (location <$> pts))
        with ((locations ++ [location point]) ++ (location <$> pts))
        by (by rewrite <- app_assoc).
      apply (returns_bind block_ref _ _ w (locations ++ [location point]));
        [|intros w1; by apply IH].
      eapply returns_out.
      { eapply returns_bind.
        - eapply returns_bind_nil; [by apply returns_vertex|intros w1].
          eapply returns_bind_nil; [apply returns_get_float, Hpoint|intros w2].
          eapply returns_bind_nil; [apply returns_get_float, Hpoint|intros w3].
          eapply returns_bind_nil; [exact (returns_emit block_ref _ w3)|intros w4].
          apply returns_ret.
        - intros w1. eapply returns_bind;
            [apply returns_add_attrib_text; [apply block_ref_label|done]|intros w2].
          eapply returns_bind; [apply returns_block_refs|intros w3].
          apply returns_ret. }
      simpl. by rewrite app_nil_r.
  - induction pts as [|point pts IH]; intros Hpts locations w.
    + apply returns_ret.
    + apply Forall_cons in Hpts as [Hpoint Hpts]. cbn [foldM].
      apply (returns_bind_nil block_ref _ _ w locations); [|intros w1; by apply IH].
      eapply returns_bind_nil; [apply returns_ret|intros w1].
      eapply returns_bind_nil;
        [apply returns_add_attrib_text; [apply block_ref_label|done]|intros w2].
      eapply returns_bind_nil; [apply returns_ret|intros w3].
      apply returns_ret.
Qed.

(** The loop over the sequences of one code in the loop over
    [survey['Point']]: the locations are collected across the sequences. *)
Lemma draw_points_seqs (needs_block : bool) (point_code layer_name lead_text block_name : string)
    (seqs : seq_map) :
  Forall drawable (concat (snd <$> seqs)) →
  ∀ (locations : list (float * float * float)) w,
    returns_with block_ref
      (foldM (λ locations '(key, value),
         foldM (λ locations point,
                  locations <-
                    (if needs_block then
                       v <- vertex point ;;
                       x <- get_float point "Easting" ;;
                       y <- get_float point "Northing" ;;
                       emit (AddMultiLeader lead_text x y) ;;
                       ret (locations ++ [v])
                     else ret locations) ;;
                  add_attrib_text point point_code layer_name ;;
                  (if needs_block
                   then forM locations (λ location, emit (AddBlockRef block_name location))
                   else ret tt) ;;
                  ret locations)
               value locations)
         seqs locations)
      w
      (if needs_block then locations ++ (location <$> concat (snd <$> seqs)) else locations)
      (if needs_block
       then (λ loc, (block_name, loc)) <$>
              concat (growing locations (location <$> concat (snd <$> seqs)))
       else []).
Proof.
  destruct needs_block.
  - induction seqs as [|[sequence pts] seqs IH]; intros Hpts locations w.
    + cbn. rewrite app_nil_r. apply returns_ret.
    + cbn [fmap list_fmap concat snd] in Hpts |- *.
      apply Forall_app in Hpts as [Hhere Hrest]. cbn [foldM].
      rewrite fmap_app, growing_app, concat_app, fmap_app, app_assoc.
      eapply returns_bind.
      * apply (draw_points_inner true point_code layer_name lead_text block_name
                 pts Hhere locations w).
      * intros w1. apply (IH Hrest).
  - induction seqs as [|[sequence pts] seqs IH]; intros Hpts locations w.
    + apply returns_ret.
    + cbn [fmap list_fmap concat snd] in Hpts.
      apply Forall_app in Hpts as [Hhere Hrest]. cbn [foldM].
      eapply returns_bind_nil.
      * apply (draw_points_inner false point_code layer_name lead_text block_name
                 pts Hhere locations w).
      * intros w1. apply (IH Hrest).
Qed.
End Loops.

Section Groups.
Context {F : FloatOps}.
Implicit Types (w : world F).
Local Open Scope M_scope.

(** The loop over [survey['Point']]. *)
Lemma returns_draw_points (point_codes_dict : code_table) (group : code_map) :
  Forall (λ kv : string * seq_map, is_Some (layer_name point_codes_dict kv.1)) group →
  Forall drawable (points_of_group group) →
  ∀ w, returns_with block_ref (draw_points point_codes_dict group) w tt
         (concat ((λ kv : string * seq_map, refs_of_code kv.1 kv.2) <$> group)).
Proof.
  unfold draw_points, forM.
  induction group as [|[point_code seqs] group IH]; intros Hlayers Hpts w.
  - apply returns_ret.
  - apply Forall_cons in Hlayers as [[layer Hname] Hlayers]. cbn [fst] in Hname.
    pose proof (layer_of_name _ _ _ Hname) as Hlayer.
    unfold points_of_group in Hpts. cbn [fmap list_fmap concat snd] in Hpts.
    apply Forall_app in Hpts as [Hhere Hrest].
    cbn [foldM fmap list_fmap concat fst snd].
    apply (returns_bind block_ref _ _ w tt); [|intros w1; by apply IH].
    cbv zeta. eapply returns_out.
    { eapply returns_bind; [apply returns_print|intros w1].
      eapply returns_bind; [rewrite Hlayer; apply returns_lift|intros w2].
      eapply returns_bind; [by apply draw_points_seqs|intros w3].
      apply returns_ret. }
    unfold refs_of_code. cbn [app]. rewrite app_nil_r.
    by destruct (POINTCODE_TO_TEXT !! point_code).
Qed.

(** The loop over the points of one sequence in the loops over
    [survey['Line']] and [survey['Unknown']]. *)
Lemma draw_chains_inner (point_code layer : string) (pts : list row_dict) :
  Forall drawable pts →
  ∀ (vertex_list : list (float * float * float)) w,
    returns_with polyline
      (foldM (λ vertex_list point,
                add_attrib_text point point_code layer ;;
                v <- vertex point ;;
                ret (vertex_list ++ [v]))
             pts vertex_list)
      w (vertex_list ++ (location <$> pts)) [].
Proof.
  induction pts as [|point pts IH]; intros Hpts vertex_list w.
  - cbn. rewrite app_nil_r. apply returns_ret.
  - apply Forall_cons in Hpts as [Hpoint Hpts]. cbn [foldM fmap list_fmap].
    replace (vertex_list ++ location point :: (location <$> pts))
      with ((vertex_list ++ [location point]) ++ (location <$> pts))
      by (by rewrite <- app_assoc).
    apply (returns_bind_nil polyline _ _ w (vertex_list ++ [location point]));
      [|intros w1; by apply IH].
    eapply returns_bind_nil;
      [apply returns_add_attrib_text; [apply polyline_label|done]|intros w1].
    eapply returns_bind_nil; [by apply returns_vertex|intros w2].
    apply returns_ret.
Qed.

(** The loop over the sequences of one code. *)
Lemma draw_chains_seqs (point_code layer : string) (seqs : seq_map) :
  Forall drawable (concat (snd <$> seqs)) →
  ∀ w, returns_with polyline
         (forM seqs (λ '(sequence, pts),
            vertex_list <-
              foldM (λ vertex_list point,
                       add_attrib_text point point_code layer ;;
                       v <- vertex point ;;
                       ret (vertex_list ++ [v]))
                    pts [] ;;
            emit (AddPolyline3d vertex_list layer)))
         w tt
         ((λ sv : option Z * list row_dict, (location <$> sv.2, layer)) <$> seqs).
Proof.
  unfold forM. induction seqs as [|[sequence pts] seqs IH]; intros Hpts w.
  - apply returns_ret.
  - cbn [fmap list_fmap concat snd] in Hpts |- *.
    apply Forall_app in Hpts as [Hhere Hrest]. cbn [foldM].
    apply (returns_bind polyline _ _ w tt tt [(location <$> pts, layer)]);
      [|intros w1; by apply IH].
    apply (returns_bind polyline _ _ w (location <$> pts) tt [] [(location <$> pts, layer)]).
    + apply (draw_chains_inner point_code layer pts Hhere [] w).
    + intros w1. exact (returns_emit polyline (AddPolyline3d (location <$> pts) layer) w1).
Qed.

(** The loops over [survey['Line']] and [survey['Unknown']]. *)
Lemma returns_draw_chains (announce : string → msg) (line_codes_dict : code_table)
    (group : code_map) :
  Forall (λ kv : string * seq_map, is_Some (layer_name line_codes_dict kv.1)) group →
  Forall drawable (points_of_group group) →
  ∀ w, returns_with polyline (draw_chains announce line_codes_dict group) w tt
         (concat ((λ kv : string * seq_map, polylines_of_code line_codes_dict kv.1 kv.2)
                  <$> group)).
Proof.
  unfold draw_chains, forM.
  induction group as [|[point_code seqs] group IH]; intros Hlayers Hpts w.
  - apply returns_ret.
  - apply Forall_cons in Hlayers as [[layer Hname] Hlayers]. cbn [fst] in Hname.
    unfold points_of_group in Hpts. cbn [fmap list_fmap concat snd] in Hpts.
    apply Forall_app in Hpts as [Hhere Hrest].
    cbn [foldM fmap list_fmap concat fst snd].
    apply (returns_bind polyline _ _ w tt); [|intros w1; by apply IH].
    unfold polylines_of_code. rewrite Hname. cbn [default].
    apply (returns_bind polyline _ _ w tt tt []); [apply returns_print|intros w1].
    apply (returns_bind polyline _ _ w1 layer tt []);
      [rewrite (layer_of_name _ _ _ Hname); apply returns_lift|intros w2].
    by apply draw_chains_seqs.
Qed.
End Groups.

(** X24: when every code of the Point group has a [Layer] in the point
    table and every point of the group can be drawn, the loop over
    [survey['Point']] returns, and the block references it inserts are,
    code by code, those of [refs_of_code]: only codes with an entry in
    [POINTCODE_TO_TEXT] get any, and after each point of such a code all
    the locations collected for the code so far are referenced again,
    across the sequences of the code. *)
Theorem block_references_accumulate {F : FloatOps} (point_codes_dict : code_table)
    (group : code_map) (w : world F) :
  Forall (λ kv : string * seq_map, is_Some (layer_name point_codes_dict kv.1)) group →
  Forall drawable (points_of_group group) →
  ∃ w' calls,
    draw_points point_codes_dict group w = (Ok tt, w') ∧
    doc w' = doc w ++ calls ∧
    omap block_ref calls = concat ((λ kv : string * seq_map, refs_of_code kv.1 kv.2) <$> group).
Proof. intros Hlayers Hpts. by apply returns_draw_points. Qed.

Lemma block_references_accumulate_witness :
  ∃ (w' : world ZCoords) (calls : list (draw_call ZCoords)),
    draw_points {[Some "wmf_av" := {["Layer" := "Valves"]}]} [("wmf_av", valves_example)]
      (world_example CsvNotFound) = (Ok tt, w') ∧
    doc w' = doc (world_example CsvNotFound) ++ calls ∧
    omap block_ref calls =
      [("A.V._Block", (100, 200, 10));
       ("A.V._Block", (100, 200, 10)); ("A.V._Block", (101, 201, 10));
       ("A.V._Block", (100, 200, 10)); ("A.V._Block", (101, 201, 10));
       ("A.V._Block", (5, 6, 7))].
Proof.
  destruct (block_references_accumulate (F := ZCoords)
              {[Some "wmf_av" := {["Layer" := "Valves"]}]} [("wmf_av", valves_example)]
              (world_example CsvNotFound)) as (w' & calls & Hrun & Hdoc & Hrefs).
  - repeat constructor. by exists "Valves".
  - repeat apply Forall_cons_2; try apply Forall_nil;
      vm_compute; repeat split; eauto.
  - exists w', calls. split_and!; [exact Hrun|exact Hdoc|].
    rewrite Hrefs. vm_compute. reflexivity.
Defined.


(** X25: a code of the Point group that has a block and [n] points gets
    [n (n + 1) / 2] block references, not [n]. *)
Theorem block_reference_count {F : FloatOps} (point_codes_dict : code_table)
    (point_code : string) (seqs : seq_map) (w : world F) :
  is_Some (POINTCODE_TO_TEXT !! point_code) →
  is_Some (layer_name point_codes_dict point_code) →
  Forall drawable (concat (snd <$> seqs)) →
  ∃ w' calls,
    draw_points point_codes_dict [(point_code, seqs)] w = (Ok tt, w') ∧
    doc w' = doc w ++ calls ∧
    (2 * length (omap block_ref calls) =
     length (concat (snd <$> seqs)) * (length (concat (snd <$> seqs)) + 1))%nat.
Proof.
  intros [block_text Htext] Hlayer Hpts.
  destruct (returns_draw_points point_codes_dict [(point_code, seqs)]) with (w := w)
    as (w' & calls & Hrun & Hdoc & Hrefs).
  { by repeat constructor. }
  { unfold points_of_group. cbn [fmap list_fmap concat]. by rewrite app_nil_r. }
  exists w', calls. split_and!; [done..|].
  rewrite Hrefs. cbn [fmap list_fmap concat fst snd]. rewrite app_nil_r.
  unfold refs_of_code. rewrite Htext, length_fmap, length_concat_growing, length_fmap.
  cbn [length]. lia.
Qed.

Lemma block_reference_count_witness :
  ∃ (w' : world ZCoords) (calls : list (draw_call ZCoords)),
    draw_points {[Some "wmf_av" := {["Layer" := "Valves"]}]} [("wmf_av", valves_example)]
      (world_example CsvNotFound) = (Ok tt, w') ∧
    doc w' = doc (world_example CsvNotFound) ++ calls ∧
    length (omap block_ref calls) = 6%nat.
Proof.
  destruct (block_reference_count (F := ZCoords)
              {[Some "wmf_av" := {["Layer" := "Valves"]}]} "wmf_av" valves_example
              (world_example CsvNotFound)) as (w' & calls & Hrun & Hdoc & Hcount).
  - by exists "A.V.".
  - by exists "Valves".
  - repeat apply Forall_cons_2; try apply Forall_nil;
      vm_compute; repeat split; eauto.
  - exists w', calls. split_and!; [exact Hrun|exact Hdoc|].
    change (length (concat (snd <$> valves_example))) with 3%nat in Hcount. lia.
Defined.


(** X26: when every code of a group has a [Layer] in the line table and
    every point of the group can be drawn, the loop over the group
    returns and adds exactly one polyline for each sequence of each code,
    in the order of the index, through the points of the sequence in
    their order and on the layer of the code. *)
Theorem polylines_follow_sequences {F : FloatOps} (announce : string → msg)
    (line_codes_dict : code_table) (group : code_map) (w : world F) :
  Forall (λ kv : string * seq_map, is_Some (layer_name line_codes_dict kv.1)) group →
  Forall drawable (points_of_group group) →
  ∃ w' calls,
    draw_chains announce line_codes_dict group w = (Ok tt, w') ∧
    doc w' = doc w ++ calls ∧
    omap polyline calls =
      concat ((λ kv : string * seq_map, polylines_of_code line_codes_dict kv.1 kv.2)
              <$> group).
Proof. intros Hlayers Hpts. by apply returns_draw_chains. Qed.

Lemma polylines_follow_sequences_witness :
  ∃ (w' : world ZCoords) (calls : list (draw_call ZCoords)),
    draw_chains MsgPointCode {[Some "kb" := {["Layer" := "Kerb"]}]} [("kb", kerbs_example)]
      (world_example CsvNotFound) = (Ok tt, w') ∧
    doc w' = doc (world_example CsvNotFound) ++ calls ∧
    omap polyline calls =
      [([(100, 200, 10); (101, 201, 10)], "Kerb"); ([(5, 6, 7)], "Kerb")].
Proof.
  destruct (polylines_follow_sequences (F := ZCoords) MsgPointCode
              {[Some "kb" := {["Layer" := "Kerb"]}]} [("kb", kerbs_example)]
              (world_example CsvNotFound)) as (w' & calls & Hrun & Hdoc & Hlines).
  - repeat constructor. by exists "Kerb".
  - repeat apply Forall_cons_2; try apply Forall_nil;
      vm_compute; repeat split; eauto.
  - exists w', calls. split_and!; [exact Hrun|exact Hdoc|].
    rewrite Hlines. vm_compute. reflexivity.
Defined.


(** ** What a run of [create_dxf] that returns says about its input *)

Section Inversion.
Context {F : FloatOps}.
Implicit Types (w : world F).
Local Open Scope M_scope.

Lemma bind_ok_inv {A C} (m : M A) (f : A → M C) w (c : C) w' :
  bind m f w = (Ok c, w') → ∃ a w1, m w = (Ok a, w1) ∧ f a w1 = (Ok c, w').
Proof. unfold bind. destruct (m w) as [[a|e] w1]; [eauto|done]. Qed.

Lemma foldM_ok_inv {A C} (P : A → Prop) (f : C → A → M C) (l : list A) :
  (∀ c a w c' w', f c a w = (Ok c', w') → P a) →
  ∀ c w c' w', foldM f l c w = (Ok c', w') → Forall P l.
Proof.
  intros Hf. induction l as [|a l IH]; intros c w c' w' Hrun; [constructor|].
  cbn [foldM] in Hrun. apply bind_ok_inv in Hrun as (c1 & w1 & Ha & Hl).
  constructor; [by eapply Hf|by eapply IH].
Qed.

Lemma layer_of_ok (codes_dict : code_table) (point_code layer : string) :
  layer_of codes_dict point_code = Ok layer →
  layer_name codes_dict point_code = Some layer.
Proof.
  unfold layer_name, layer_of.
  destruct (codes_dict !! Some point_code) as [attribs|]; [simpl|done].
  destruct (attribs !! "Layer"); [by intros [= ->]|done].
Qed.

Lemma Forall_group (P : row_dict → Prop) (group : code_map) :
  Forall (λ kv : string * seq_map, Forall P (concat (snd <$> kv.2))) group ↔
  Forall P (points_of_group group).
Proof.
  unfold points_of_group. rewrite Forall_concat, Forall_fmap. done.
Qed.

Lemma Forall_seqs (P : row_dict → Prop) (seqs : seq_map) :
  Forall (λ sv : option Z * list row_dict, Forall P sv.2) seqs ↔
  Forall P (concat (snd <$> seqs)).
Proof. rewrite Forall_concat, Forall_fmap. done. Qed.

Lemma draw_chains_ok (announce : string → msg) (line_codes_dict : code_table)
    (group : code_map) w (r : unit) w' :
  draw_chains announce line_codes_dict group w = (Ok r, w') →
  Forall (λ kv : string * seq_map, is_Some (layer_name line_codes_dict kv.1)) group ∧
  Forall drawable (points_of_group group).
Proof.
  unfold draw_chains, forM. intros Hrun.
  rewrite <- Forall_group, <- Forall_and.
  revert Hrun. apply foldM_ok_inv. clear.
  intros [] [point_code seqs] w [] w' Hrun. cbn [fst snd].
  apply bind_ok_inv in Hrun as ([] & w1 & _ & Hrun).
  apply bind_ok_inv in Hrun as (layer & w2 & Hlayer & Hrun).
  injection Hlayer as Hlayer%layer_of_ok _. split; [by exists layer|].
  rewrite <- Forall_seqs. revert Hrun. apply foldM_ok_inv. clear.
  intros [] [sequence pts] w [] w' Hrun. cbn [snd].
  apply bind_ok_inv in Hrun as (vertex_list & w1 & Hrun & _).
  revert Hrun. apply foldM_ok_inv. clear.
  intros vertex_list point w vertex_list' w' Hrun.
  apply bind_ok_inv in Hrun as (r & w1 & Hrun & _).
  by eapply add_attrib_text_ok.
Qed.

Lemma draw_points_ok (point_codes_dict : code_table) (group : code_map) w (r : unit) w' :
  draw_points point_codes_dict group w = (Ok r, w') →
  Forall (λ kv : string * seq_map, is_Some (layer_name point_codes_dict kv.1)) group ∧
  Forall drawable (points_of_group group).
Proof.
  unfold draw_points, forM. intros Hrun.
  rewrite <- Forall_group, <- Forall_and.
  revert Hrun. apply foldM_ok_inv. clear.
  intros [] [point_code seqs] w [] w' Hrun. cbn [fst snd]. cbv zeta in Hrun.
  apply bind_ok_inv in Hrun as ([] & w1 & _ & Hrun).
  apply bind_ok_inv in Hrun as (layer & w2 & Hlayer & Hrun).
  injection Hlayer as Hlayer%layer_of_ok _. split; [by exists layer|].
  apply bind_ok_inv in Hrun as (locations & w3 & Hrun & _).
  rewrite <- Forall_seqs. revert Hrun. apply foldM_ok_inv. clear.
  intros locations [sequence pts] w locations' w' Hrun. cbn [snd].
  revert Hrun. apply foldM_ok_inv. clear.
  intros locations point w locations' w' Hrun.
  apply bind_ok_inv in Hrun as (locations1 & w1 & _ & Hrun).
  apply bind_ok_inv in Hrun as (r & w2 & Hrun & _).
  by eapply add_attrib_text_ok.
Qed.

Lemma create_dxf_setup_ok (layers : layer_table) (needed_layers : gset string)
    w (r : unit) w' :
  create_dxf_setup layers needed_layers w = (Ok r, w') →
  colours_known layers needed_layers.
Proof.
  unfold create_dxf_setup. intros Hrun.
  do 8 apply bind_ok_inv in Hrun as (? & ? & _ & Hrun).
  apply bind_ok_inv in Hrun as (colour & w1 & Hrun & _).
  intros layer props Hlayer%elem_of_elements Hprops. revert layer Hlayer props Hprops.
  apply (Forall_forall (λ layer, ∀ props, layers !! Some layer = Some props →
                                  layer ∈ ["0"; "Points"] ∨ is_Some (props !! "Color"))).
  revert Hrun. apply foldM_ok_inv. clear.
  intros colour layer w colour' w' Hrun props Hprops.
  apply bind_ok_inv in Hrun as (colour1 & w1 & Hrun & _).
  rewrite Hprops in Hrun.
  destruct (decide (layer ∈ ["0"; "Points"])); [by left|right].
  by destruct (props !! "Color").
Qed.

Lemma create_dxf_ok (output : string) (layers : layer_table) (survey : option all_pts)
    (pcd lcd : code_table) (needed_layers : gset string) w (r : unit) w' :
  create_dxf output layers survey pcd lcd needed_layers w = (Ok r, w') →
  ∃ m, survey = Some m ∧
       colours_known layers needed_layers ∧
       Forall (λ kv : string * seq_map, is_Some (layer_name lcd kv.1))
              (line_pts m ++ unknown_pts m) ∧
       Forall (λ kv : string * seq_map, is_Some (layer_name pcd kv.1)) (point_pts m) ∧
       Forall drawable (all_points m).
Proof.
  unfold create_dxf. intros Hrun.
  apply bind_ok_inv in Hrun as ([] & w1 & Hsetup%create_dxf_setup_ok & Hrun).
  apply bind_ok_inv in Hrun as (lines & w2 & Hlines & Hrun).
  destruct survey as [m|]; [|done]. injection Hlines as <- _.
  apply bind_ok_inv in Hrun as ([] & w3 & [Hl1 Hl2]%draw_chains_ok & Hrun).
  apply bind_ok_inv in Hrun as (unknowns & w4 & [= <- _] & Hrun).
  apply bind_ok_inv in Hrun as ([] & w5 & [Hu1 Hu2]%draw_chains_ok & Hrun).
  apply bind_ok_inv in Hrun as (points & w6 & [= <- _] & Hrun).
  apply bind_ok_inv in Hrun as ([] & w7 & [Hp1 Hp2]%draw_points_ok & _).
  exists m. split_and!; [done..| |done|].
  - by apply Forall_app.
  - unfold all_points. rewrite !Forall_app. done.
Qed.
End Inversion.

(** X27: a run of [create_dxf] that returns had an index to read, found
    a [Color] for every needed layer that the library defines, [0] and
    [Points] apart, a [Layer] in the line table for every code of the Line
    and of the Unknown group, a [Layer] in the point table for every code
    of the Point group, and only points that can be drawn. When one of
    these fails, [create_dxf] raises. *)
Theorem returning_run_of_create_dxf {F : FloatOps} (output : string) (layers : layer_table)
    (survey : option all_pts) (pcd lcd : code_table) (needed_layers : gset string)
    (w w' : world F) :
  create_dxf output layers survey pcd lcd needed_layers w = (Ok tt, w') →
  ∃ m, survey = Some m ∧
       colours_known layers needed_layers ∧
       Forall (λ kv : string * seq_map, is_Some (layer_name lcd kv.1))
              (line_pts m ++ unknown_pts m) ∧
       Forall (λ kv : string * seq_map, is_Some (layer_name pcd kv.1)) (point_pts m) ∧
       Forall drawable (all_points m).
Proof. apply create_dxf_ok. Qed.

Lemma returning_run_of_create_dxf_witness :
  ∃ w' : world ZCoords,
    create_dxf "out.dxf" ∅ (Some index_example) {[Some "wmf_av" := {["Layer" := "Valves"]}]}
      {[Some "kb" := {["Layer" := "Kerb"]}]} {["Points"]} (world_example CsvNotFound)
    = (Ok tt, w') ∧
    Forall (drawable (F := ZCoords)) (all_points index_example).
Proof.
  destruct (create_dxf (F := ZCoords) "out.dxf" ∅ (Some index_example)
              {[Some "wmf_av" := {["Layer" := "Valves"]}]}
              {[Some "kb" := {["Layer" := "Kerb"]}]} {["Points"]}
              (world_example CsvNotFound)) as [r w'] eqn:Hrun.
  assert (r = Ok tt) as ->.
  { change r with (r, w').1. rewrite <- Hrun. vm_compute. reflexivity. }
  destruct (returning_run_of_create_dxf (F := ZCoords) "out.dxf" ∅ (Some index_example)
              {[Some "wmf_av" := {["Layer" := "Valves"]}]}
              {[Some "kb" := {["Layer" := "Kerb"]}]} {["Points"]}
              (world_example CsvNotFound) w' Hrun) as (m & [= <-] & _ & _ & _ & Hpts).
  exists w'. split; [reflexivity|exact Hpts].
Defined.
